(** * sensorsio: WorldClim 2.0 and Sentinel-2 (L2A MAJA) readers

    A shallow embedding of [sensorsio/worldclim.py] and
    [sensorsio/sentinel2.py], and the properties of the pixel-window
    resolver, the variable stack assembler, the destination grid and the
    path builders.

    Conventions of the embedding:
    - A Python float is an IEEE 754 binary64 number. A finite float is a
      rational and is carried by that rational ([Q]); every arithmetic
      operation of the code computes the exact result and rounds it
      ([Float.add], [Float.sub], [Float.mul], [Float.div]). The rounding is a
      parameter of the definitions ([Rounding]); [binary64] is the rounding
      of the code, to nearest with ties to even. Equality of floats is [Qeq]
      ([==]), the value a float comparison observes. Signed zeros,
      infinities and NaN are outside the carrier: a result too large for
      binary64 stays finite here.
    - Python exceptions are values of type [exn]; a call either returns
      ([Ok]) or raises ([Raise]).
    - Methods that touch the file system run in a state-and-error monad whose
      state survives a raise, so that what was opened or printed before an
      exception stays observable.
    - rasterio, affine and numpy are collaborators: the operations the code
      calls are modelled after their documented behaviour ([Affine],
      [rowcol], [np_stack], [np_zeros], [np_linspace]); what depends on file
      contents or on the resampling engine is an interface ([Rasterio]). *)

From Stdlib Require Import String Ascii.
From Stdlib Require Import ZArith QArith Qround Qabs Qpower List Bool Lia Lqa.
From Stdlib Require Import DecimalString.
Import ListNotations.

Local Open Scope string_scope.
Local Open Scope list_scope.
Local Open Scope Z_scope.

(** ** Exceptions and results *)

Inductive exn : Type :=
| ValueError (msg : string)
| AssertionError
| FileNotFoundError (msg : string)
| IndexError
| KeyError (key : string)
| AttributeError (attr : string)
| ZeroDivisionError
| TransformNotInvertibleError
| RasterioIOError (path : string)
| CRSError (crs : string).

Inductive result (A : Type) : Type :=
| Ok (x : A)
| Raise (e : exn).

Arguments Ok {A} x.
Arguments Raise {A} e.

Definition rbind {A B : Type} (r : result A) (k : A -> result B) : result B :=
  match r with
  | Ok x => k x
  | Raise e => Raise e
  end.

(** [M S A]: a computation over a state [S] that returns an [A] or raises;
    the state reached is kept in both cases. *)
Definition M (S A : Type) : Type := S -> result A * S.

Definition ret {S A : Type} (x : A) : M S A := fun s => (Ok x, s).

Definition raise {S A : Type} (e : exn) : M S A := fun s => (Raise e, s).

Definition bind {S A B : Type} (m : M S A) (k : A -> M S B) : M S B :=
  fun s =>
    match m s with
    | (Ok x, s') => k x s'
    | (Raise e, s') => (Raise e, s')
    end.

Definition lift {S A : Type} (r : result A) : M S A := fun s => (r, s).

Definition gets {S A : Type} (f : S -> A) : M S A := fun s => (Ok (f s), s).

Definition modify {S : Type} (f : S -> S) : M S unit := fun s => (Ok tt, f s).

Declare Scope monad_scope.
Delimit Scope monad_scope with monad.

Notation "x <- m ;; k" := (bind m (fun x => k))
  (at level 61, m at next level, right associativity) : monad_scope.
Notation "' pat <- m ;; k" := (bind m (fun x => match x with pat => k end))
  (at level 61, pat pattern, m at next level, right associativity) : monad_scope.
Notation "m ;; k" := (bind m (fun _ => k))
  (at level 61, right associativity) : monad_scope.

Local Open Scope monad_scope.

(** A list comprehension [[f x for x in xs]] whose body has effects. *)
Fixpoint mapM {S A B : Type} (f : A -> M S B) (xs : list A) : M S (list B) :=
  match xs with
  | [] => ret []
  | x :: xs' =>
      y <- f x ;;
      ys <- mapM f xs' ;;
      ret (y :: ys)
  end.

(** The same for a body that can only raise. *)
Fixpoint rmap {A B : Type} (f : A -> result B) (xs : list A) : result (list B) :=
  match xs with
  | [] => Ok []
  | x :: xs' =>
      rbind (f x) (fun y => rbind (rmap f xs') (fun ys => Ok (y :: ys)))
  end.

(** ** Python floats *)

(** How the exact result of an operation becomes a float. *)
Class Rounding : Type := { rnd : Q -> Q }.

Module Float.

Section Operations.

Context {R : Rounding}.

Local Open Scope Q_scope.

(** [x + y] *)
Definition add (x y : Q) : Q := rnd (x + y).

(** [x - y] *)
Definition sub (x y : Q) : Q := rnd (x - y).

(** [x * y] *)
Definition mul (x y : Q) : Q := rnd (x * y).

(** [x / y] for a divisor other than zero; see [truediv] for the check. *)
Definition div (x y : Q) : Q := rnd (x / y).

End Operations.

End Float.

(** *** binary64

    A binary64 number is [m * 2 ^ e] for an integer [m] of at most 53 bits
    and an exponent [e] from -1074 up. The float nearest to a rational [q]
    is found on the grid of the multiples of [2 ^ e], for the exponent [e]
    that the size of [q] selects. *)

(** [floor (log2 |q|)], for [q] other than zero. *)
Definition ilog2 (q : Q) : Z :=
  let k := Z.log2 (Z.abs (Qnum q)) - Z.log2 (Zpos (Qden q)) in
  if Qle_bool (2 ^ k) (Qabs q) then k else k - 1.

(** The nearest integer; of two nearest ones, the even one. *)
Definition round_half_even (q : Q) : Z :=
  let fl := Qfloor q in
  match (q - inject_Z fl ?= 1 # 2)%Q with
  | Lt => fl
  | Gt => fl + 1
  | Eq => if Z.even fl then fl else fl + 1
  end.

(** The nearest multiple of [2 ^ e]. *)
Definition round_to_grid (e : Z) (q : Q) : Q :=
  (inject_Z (round_half_even (q / 2 ^ e)) * 2 ^ e)%Q.

(** The exponent of the last place of a float of the size of [q]: 52 binary
    places below the leading one, and never below that of the subnormal
    numbers. *)
Definition ulp_exponent (q : Q) : Z := Z.max (ilog2 q - 52) (-1074).

Definition round_binary64 (q : Q) : Q :=
  if Qeq_bool q 0 then 0%Q else round_to_grid (ulp_exponent q) q.

(** The arithmetic of the code. *)
Definition binary64 : Rounding := {| rnd := round_binary64 |}.

(** The float that a decimal literal denotes. *)
Definition float_literal (q : Q) : Q := Qred (round_binary64 q).

(** The three facts about a rounding that the properties below rest on: it
    keeps the order, it keeps zero, and it leaves a float as it is. *)
Class Faithful (R : Rounding) : Prop := {
  rnd_le : forall x y : Q, (x <= y)%Q -> (rnd x <= rnd y)%Q;
  rnd_zero : (rnd 0 == 0)%Q;
  rnd_idempotent : forall x : Q, (rnd (rnd x) == rnd x)%Q
}.

(** ** affine.Affine *)

Module Affine.

Local Open Scope Q_scope.

(** The six coefficients of [| a b c ; d e f ; 0 0 1 |]. *)
Record t : Type := Affine { a : Q; b : Q; c : Q; d : Q; e : Q; f : Q }.

Section Operations.

Context {R : Rounding}.

(** [sa * se - sb * sd] *)
Definition determinant (m : t) : Q :=
  Float.sub (Float.mul (a m) (e m)) (Float.mul (b m) (d m)).

Definition is_degenerate (m : t) : bool := Qeq_bool (determinant m) 0.

(** [~m]: [idet = 1.0 / determinant], then the coefficients one by one,
    [rc = -sc * ra - sf * rb] and [rf = -sc * rd - sf * re]. *)
Definition invert (m : t) : result t :=
  if is_degenerate m then Raise TransformNotInvertibleError
  else
    let idet := Float.div 1 (determinant m) in
    let ra := Float.mul (e m) idet in
    let rb := Float.mul (- b m) idet in
    let rd := Float.mul (- d m) idet in
    let re := Float.mul (a m) idet in
    Ok (Affine ra rb (Float.sub (Float.mul (- c m) ra) (Float.mul (f m) rb))
               rd re (Float.sub (Float.mul (- c m) rd) (Float.mul (f m) re))).

(** [m * (vx, vy)]: [(vx * sa + vy * sb + sc, vx * sd + vy * se + sf)]. *)
Definition apply (m : t) (v : Q * Q) : Q * Q :=
  let (vx, vy) := v in
  (Float.add (Float.add (Float.mul vx (a m)) (Float.mul vy (b m))) (c m),
   Float.add (Float.add (Float.mul vx (d m)) (Float.mul vy (e m))) (f m)).

End Operations.

End Affine.

(** ** rasterio.coords.BoundingBox *)

Module BoundingBox.

Record t : Type := BoundingBox { left : Q; bottom : Q; right : Q; top : Q }.

End BoundingBox.

(** ** rasterio.transform.rowcol

    The coordinates are taken pairwise ([zip(xs, ys)]), sent through the
    inverse transform and rounded with [op]; rows and columns come back as two
    lists. rasterio releases differ in whether the coordinates are nudged by
    the float epsilon before they are inverted; the embedding follows those
    that do not nudge. *)

Section RowCol.

Context {R : Rounding}.

Definition rowcol (transform : Affine.t) (xs ys : list Q) (op : Q -> Z)
  : result (list Z * list Z) :=
  rbind (Affine.invert transform) (fun invtransform =>
    let fcr := map (Affine.apply invtransform) (combine xs ys) in
    Ok (map (fun p => op (snd p)) fcr, map (fun p => op (fst p)) fcr)).

End RowCol.

(** Unpacking [(u, v) = seq]. *)
Definition unpack2 {A : Type} (l : list A) : result (A * A) :=
  match l with
  | [u; v] => Ok (u, v)
  | _ => Raise (ValueError "not enough or too many values to unpack")
  end.

(** A pixel window [((row_start, row_stop), (col_start, col_stop))]. *)
Record Window : Type :=
  mkWindow { row_start : Z; row_stop : Z; col_start : Z; col_stop : Z }.

(** ** numpy arrays

    A dense array: its shape and its elements in row-major order. *)

Record ndarray : Type := mk_ndarray { shape : list Z; flat : list Q }.

Definition size_of (sh : list Z) : Z := fold_right Z.mul 1 sh.

Definition shape_eqb (s1 s2 : list Z) : bool :=
  if list_eq_dec Z.eq_dec s1 s2 then true else false.

(** [arr[i]] along the first axis, for [0 <= i]. *)
Definition index_axis0 (i : Z) (arr : ndarray) : result ndarray :=
  match shape arr with
  | [] => Raise IndexError
  | n :: rest =>
      if (0 <=? i) && (i <? n) then
        let sz := Z.to_nat (size_of rest) in
        Ok (mk_ndarray rest (firstn sz (skipn (Z.to_nat i * sz) (flat arr))))
      else Raise IndexError
  end.

(** [arr[i, :, :]]: three indices need three axes. *)
Definition index_band (i : Z) (arr : ndarray) : result ndarray :=
  if (3 <=? Z.of_nat (length (shape arr))) then index_axis0 i arr
  else Raise IndexError.

(** [np.stack(arrays, axis=0)] *)
Definition np_stack (arrays : list ndarray) : result ndarray :=
  match arrays with
  | [] => Raise (ValueError "need at least one array to stack")
  | a0 :: rest =>
      if forallb (fun arr => shape_eqb (shape arr) (shape a0)) rest then
        Ok (mk_ndarray (Z.of_nat (List.length arrays) :: shape a0)
                       (concat (map flat arrays)))
      else Raise (ValueError "all input arrays must have the same shape")
  end.

(** [np.zeros(shape)] *)
Definition np_zeros (sh : list Z) : result ndarray :=
  if forallb (fun n => 0 <=? n) sh then
    Ok (mk_ndarray sh (repeat 0%Q (Z.to_nat (size_of sh))))
  else Raise (ValueError "negative dimensions are not allowed").

(** [arr[-1] = v] on a list that is not empty. *)
Definition set_last (l : list Q) (v : Q) : list Q := removelast l ++ [v].

Section FloatArrays.

Context {R : Rounding}.

(** [np.linspace(start, stop, num)] with the default [endpoint=True]:
    [arange(0, num) * step + start] with [step = (stop - start) / (num - 1)],
    the last point overwritten with [stop]. A step that comes out as zero
    makes numpy divide the indices first. *)
Definition np_linspace (start stop : Q) (num : Z) : result (list Q) :=
  if num <? 0 then Raise (ValueError "Number of samples must be non-negative")
  else
    let div := num - 1 in
    let delta := Float.sub stop start in
    let idx := map (fun i => inject_Z (Z.of_nat i)) (seq 0 (Z.to_nat num)) in
    let y :=
      if 0 <? div then
        let step := Float.div delta (inject_Z div) in
        if Qeq_bool step 0
        then map (fun i => Float.add (Float.mul (Float.div i (inject_Z div)) delta) start) idx
        else map (fun i => Float.add (Float.mul i step) start) idx
      else map (fun i => Float.add (Float.mul i delta) start) idx in
    Ok (if 1 <? num then set_last y stop else y).

(** Float division. *)
Definition truediv (x y : Q) : result Q :=
  if Qeq_bool y 0 then Raise ZeroDivisionError else Ok (Float.div x y).

End FloatArrays.

(** [f"{n:02}"]: decimal, zero-padded to two characters. *)
Definition fmt02 (n : Z) : string :=
  let s := NilZero.string_of_int (Z.to_int n) in
  if (String.length s <? 2)%nat then ("0" ++ s)%string else s.

(** [range(lo, hi)] *)
Definition range (lo hi : Z) : list Z :=
  map (fun i => lo + Z.of_nat i) (seq 0 (Z.to_nat (hi - lo))).

(** A dict with string keys, as the list of its items. *)
Definition dict (V : Type) : Type := list (string * V).

Definition dict_set {V : Type} (k : string) (v : V) (dc : dict V) : dict V :=
  if existsb (fun kv => String.eqb (fst kv) k) dc
  then map (fun kv => if String.eqb (fst kv) k then (k, v) else kv) dc
  else dc ++ [(k, v)].

Fixpoint dict_get {V : Type} (k : string) (dc : dict V) : result V :=
  match dc with
  | [] => Raise (KeyError k)
  | (k', v) :: dc' => if String.eqb k' k then Ok v else dict_get k dc'
  end.

(** [enumerate(xs, start)] *)
Fixpoint enumerate {A : Type} (xs : list A) (start : Z) : list (Z * A) :=
  match xs with
  | [] => []
  | x :: xs' => (start, x) :: enumerate xs' (start + 1)
  end.

(** ** The collaborators *)

Inductive Resampling : Type :=
| nearest | bilinear | cubic | cubic_spline | lanczos | average | mode | gauss.

(** What the code asks of rasterio and numpy that depends on file contents,
    on the resampling engine or on numeric types. *)
Class Rasterio : Type := {
  dataset : Type;
  (** [rasterio.open(path)] on the backing store. *)
  rio_open : string -> result dataset;
  (** [ds.transform] *)
  ds_transform : dataset -> Affine.t;
  (** [ds.read(window=((r0, r1), (c0, c1)))] *)
  ds_read : dataset -> Window -> result ndarray;
  (** The values [rasterio.warp.reproject] writes into a destination of the
      given shape. *)
  resample : ndarray -> Affine.t -> string -> Affine.t -> string ->
             Resampling -> list Z -> result (list Q);
  dtype : Type;
  (** The cast of one value by [ndarray.astype]. *)
  cast : dtype -> Q -> Q
}.

(** [sensorsio.utils], of which only the call sites are at hand. *)
Class Utils : Type := {
  compute_latlon_bbox_from_region : BoundingBox.t -> string -> result BoundingBox.t
}.

(** What a run leaves behind on the outside. *)
Inductive event : Type :=
| EvPrint (l r t b : Z)
| EvOpen (path : string)
| EvRead (path : string) (w : Window).

Definition emit (ev : event) : M (list event) unit :=
  modify (fun tr => tr ++ [ev]).

(** ** worldclim.py *)

Inductive WorldClimQuantity : Type :=
| PREC | SRAD | TAVG | TMAX | TMIN | VAPR | WIND.

Inductive WorldClimBio : Type :=
| ANNUAL_MEAN_TEMP | MEAN_DIURNAL_TEMP_RANGE | ISOTHERMALITY | TEMP_SEASONALITY
| MAX_TEMP_WARMEST_MONTH | MIN_TEMP_COLDEST_MONTH | TEMP_ANNUAL_RANGE
| MEAN_TEMP_WETTEST_QUART | MEAN_TEMP_DRIEST_QUART | MEAN_TEMP_WARMEST_QUART
| MEAN_TEMP_COLDEST_QUART | ANNUAL_PREC | PREC_WETTEST_MONTH | PREC_DRIEST_MONTH
| PREC_SEASONALITY | PREC_WETTEST_QUART | PREC_DRIEST_QUART | PREC_WARMEST_QUART
| PREC_COLDEST_QUART.

Definition WorldClimQuantity_value (q : WorldClimQuantity) : string :=
  match q with
  | PREC => "prec" | SRAD => "srad" | TAVG => "tavg" | TMAX => "tmax"
  | TMIN => "tmin" | VAPR => "vapr" | WIND => "wind"
  end.

Definition WorldClimBio_value (wcb : WorldClimBio) : string :=
  match wcb with
  | ANNUAL_MEAN_TEMP => "Annual_Mean_Temp"
  | MEAN_DIURNAL_TEMP_RANGE => "Mean_Diurnal_Temp_Range"
  | ISOTHERMALITY => "Isothermality"
  | TEMP_SEASONALITY => "Temp_Seasonality"
  | MAX_TEMP_WARMEST_MONTH => "Max_Temp_Warmest_Month"
  | MIN_TEMP_COLDEST_MONTH => "Min_Temp_Coldest_Month"
  | TEMP_ANNUAL_RANGE => "Temp_Annual_Range"
  | MEAN_TEMP_WETTEST_QUART => "Mean_Temp_Wettest_Quart"
  | MEAN_TEMP_DRIEST_QUART => "Mean_Temp_Driest_Quart"
  | MEAN_TEMP_WARMEST_QUART => "Mean_Temp_Warmest_Quart"
  | MEAN_TEMP_COLDEST_QUART => "Mean_Temp_Coldest_Quart"
  | ANNUAL_PREC => "Annual_Prec"
  | PREC_WETTEST_MONTH => "Prec_Wettest_Month"
  | PREC_DRIEST_MONTH => "Prec_Driest_Month"
  | PREC_SEASONALITY => "Prec_Seasonality"
  | PREC_WETTEST_QUART => "Prec_Wettest_Quart"
  | PREC_DRIEST_QUART => "Prec_Driest_Quart"
  | PREC_WARMEST_QUART => "Prec_Warmest_Quart"
  | PREC_COLDEST_QUART => "Prec_Coldest_Quart"
  end.

Definition WorldClimQuantityAll : list WorldClimQuantity :=
  [PREC; SRAD; TAVG; TMAX; TMIN; VAPR; WIND].

Definition WorldClimBioAll : list WorldClimBio :=
  [ANNUAL_MEAN_TEMP; MEAN_DIURNAL_TEMP_RANGE; ISOTHERMALITY; TEMP_SEASONALITY;
   MAX_TEMP_WARMEST_MONTH; MIN_TEMP_COLDEST_MONTH; TEMP_ANNUAL_RANGE;
   MEAN_TEMP_WETTEST_QUART; MEAN_TEMP_DRIEST_QUART; MEAN_TEMP_WARMEST_QUART;
   MEAN_TEMP_COLDEST_QUART; ANNUAL_PREC; PREC_WETTEST_MONTH; PREC_DRIEST_MONTH;
   PREC_SEASONALITY; PREC_WETTEST_QUART; PREC_DRIEST_QUART; PREC_WARMEST_QUART;
   PREC_COLDEST_QUART].

Module WorldClimVar.

(** [Union[WorldClimQuantity, WorldClimBio]] *)
Inductive var : Type :=
| Quantity (q : WorldClimQuantity)
| Bio (wcb : WorldClimBio).

Definition var_value (v : var) : string :=
  match v with
  | Quantity q => WorldClimQuantity_value q
  | Bio wcb => WorldClimBio_value wcb
  end.

Definition is_bio (v : var) : bool :=
  match v with Bio _ => true | Quantity _ => false end.

Definition is_quantity (v : var) : bool :=
  match v with Quantity _ => true | Bio _ => false end.

(** The attributes of an instance; [month] is [None] when the attribute was
    never assigned. *)
Record t : Type := WorldClimVar { value : string; typ : string; month : option Z }.

Definition is_None {A : Type} (o : option A) : bool :=
  match o with None => true | Some _ => false end.

Definition __init__ (v : var) (month : option Z) : result t :=
  if is_None month && is_bio v then
    Ok (WorldClimVar (var_value v) "bio" None)
  else
    match month with
    | Some m =>
        if (1 <=? m) && (m <=? 12) && is_quantity v then
          Ok (WorldClimVar (var_value v) "clim" (Some m))
        else Raise (ValueError
          "Quantity needs month. Bio does not use month. Received {var.value} {month}")
    | None => Raise (ValueError
          "Quantity needs month. Bio does not use month. Received {var.value} {month}")
    end.

End WorldClimVar.

(** Module-level lists are built once, at import. *)
Definition at_import {A : Type} (r : result (list A)) : list A :=
  match r with Ok l => l | Raise _ => [] end.

Definition WorldClimQuantityVarAll : list WorldClimVar.t :=
  Eval cbv in
    at_import
      (rmap (fun vm => WorldClimVar.__init__ (WorldClimVar.Quantity (fst vm)) (Some (snd vm)))
            (flat_map (fun v => map (fun m => (v, m)) (range 1 13)) WorldClimQuantityAll)).

Definition WorldClimBioVarAll : list WorldClimVar.t :=
  Eval cbv in
    at_import
      (rmap (fun wcb => WorldClimVar.__init__ (WorldClimVar.Bio wcb) None) WorldClimBioAll).

Definition WorldClimVarAll : list WorldClimVar.t :=
  WorldClimQuantityVarAll ++ WorldClimBioVarAll.

Module WorldClimData.

(** The attributes of an instance. *)
Record t : Type := WorldClimData {
  wcdir : string;
  wcprefix : string;
  crs : string;
  wcres : string;
  resolution : Q;
  climfiles : list string;
  biofiles : list string;
  transform : Affine.t
}.

(** A method runs on the instance and on the outside world. *)
Record state : Type := mkState { this : t; trace : list event }.

(** The [xr.Dataset] of [read_as_xarray]: variables with their dimensions,
    coordinates, and the attributes before [str]. *)
Record Dataset : Type := mkDataset {
  data_vars : dict (list string * ndarray);
  coords : dict (list Q);
  attrs_crs : string;
  attrs_resolution : Q;
  attrs_transform : Affine.t
}.

Definition io {A : Type} (m : M (list event) A) : M state A :=
  fun s => let (r, tr) := m (trace s) in (r, mkState (this s) tr).

Section Methods.

Context {R : Rounding} {RIO : Rasterio} {UTILS : Utils}.

(** [with rio.open(path) as ds] *)
Definition open_dataset (path : string) : M (list event) dataset :=
  emit (EvOpen path) ;;
  lift (rio_open path).

Definition read_window (path : string) (ds : dataset) (w : Window)
  : M (list event) ndarray :=
  emit (EvRead path w) ;;
  lift (ds_read ds w).

(** The body of [get_var_name], on the one attribute it reads. *)
Definition var_name (wcres : string) (var : WorldClimVar.t) : result string :=
  if String.eqb (WorldClimVar.typ var) "bio" then
    let bio_names :=
      fold_left (fun dc iw => dict_set (WorldClimBio_value (snd iw)) (fmt02 (fst iw)) dc)
                (enumerate WorldClimBioAll 1) [] in
    rbind (dict_get (WorldClimVar.value var) bio_names) (fun idx =>
    Ok ("bio_" ++ wcres ++ "_" ++ idx)%string)
  else
    match WorldClimVar.month var with
    | Some m => Ok (wcres ++ "_" ++ WorldClimVar.value var ++ "_" ++ fmt02 m)%string
    | None => Raise (AttributeError "month")
    end.

(** The body of [get_file_path], on the attributes it reads. *)
Definition file_path (wcdir wcprefix wcres : string) (var : WorldClimVar.t)
  : result string :=
  rbind (var_name wcres var) (fun name =>
  Ok (wcdir ++ "/" ++ wcprefix ++ "_" ++ name ++ ".tif")%string).

(** The constructor. While it runs the instance is still being filled:
    [get_file_path] sees the attributes assigned so far. *)
Definition __init__ (wcdir : string) : M (list event) t :=
  let wcprefix := "wc2.0" in
  let crs := "+proj=latlong" in
  let wcres := "30s" in
  let resolution := Float.div (Float.div 30 60) 60 in
  let months := range 1 13 in
  climfiles <- lift (rmap (fun mcv =>
                  rbind (WorldClimVar.__init__ (WorldClimVar.Quantity (snd mcv))
                                               (Some (fst mcv)))
                        (file_path wcdir wcprefix wcres))
                (flat_map (fun m => map (fun cv => (m, cv)) WorldClimQuantityAll) months)) ;;
  biofiles <- lift (rmap (fun b =>
                  rbind (WorldClimVar.__init__ (WorldClimVar.Bio b) None)
                        (file_path wcdir wcprefix wcres))
                WorldClimBioAll) ;;
  match climfiles with
  | [] => raise IndexError
  | first :: _ =>
      clim_ds <- open_dataset first ;;
      let tr := ds_transform clim_ds in
      ret (WorldClimData wcdir wcprefix crs wcres resolution climfiles biofiles
             (Affine.Affine (Affine.a tr) (Affine.b tr)
                            (Float.sub (Affine.c tr) (Float.div (Affine.a tr) 2))
                            (Affine.d tr) (Affine.e tr)
                            (Float.sub (Affine.f tr) (Float.div (Affine.e tr) 2))))
  end.

(** The window of [crop_to_bbox]: the corners through [rowcol], once with
    floor and once with ceil, then the outer envelope of the candidates. *)
Definition crop_window (transform : Affine.t) (bbox : BoundingBox.t)
  : result Window :=
  rbind (rowcol transform [BoundingBox.left bbox; BoundingBox.right bbox]
                          [BoundingBox.top bbox; BoundingBox.bottom bbox] Qfloor)
    (fun rc_f =>
  rbind (unpack2 (fst rc_f)) (fun '(top_f, bottom_f) =>
  rbind (unpack2 (snd rc_f)) (fun '(left_f, right_f) =>
  rbind (rowcol transform [BoundingBox.left bbox; BoundingBox.right bbox]
                          [BoundingBox.top bbox; BoundingBox.bottom bbox] Qceiling)
    (fun rc_c =>
  rbind (unpack2 (fst rc_c)) (fun '(top_c, bottom_c) =>
  rbind (unpack2 (snd rc_c)) (fun '(left_c, right_c) =>
    let left := Z.min (Z.min left_c right_c) (Z.min left_f right_f) in
    let right := Z.max (Z.max left_c right_c) (Z.max left_f right_f) in
    let bottom := Z.max (Z.max bottom_c top_c) (Z.max bottom_f top_f) in
    let top := Z.min (Z.min bottom_c top_c) (Z.min bottom_f top_f) in
    Ok (mkWindow top bottom left right))))))).

Definition crop_to_bbox (imfile : string) (bbox : BoundingBox.t) : M state ndarray :=
  self <- gets this ;;
  w <- lift (crop_window (transform self) bbox) ;;
  io (emit (EvPrint (col_start w) (col_stop w) (row_start w) (row_stop w))) ;;
  data_source <- io (open_dataset imfile) ;;
  image <- io (read_window imfile data_source w) ;;
  ret image.

Definition get_var_name (var : WorldClimVar.t) : M state string :=
  self <- gets this ;;
  lift (var_name (wcres self) var).

Definition get_file_path (var : WorldClimVar.t) : M state string :=
  self <- gets this ;;
  var_name <- get_var_name var ;;
  ret (wcdir self ++ "/" ++ wcprefix self ++ "_" ++ var_name ++ ".tif")%string.

Definition get_wc_for_bbox (bbox : BoundingBox.t)
                           (wc_vars : option (list WorldClimVar.t))
  : M state (ndarray * Affine.t) :=
  let wc_vars := match wc_vars with None => WorldClimVarAll | Some l => l end in
  files <- mapM get_file_path wc_vars ;;
  wcvars <- mapM (fun wc_file =>
                    image <- crop_to_bbox wc_file bbox ;;
                    lift (index_band 0 image)) files ;;
  self <- gets this ;;
  let transform :=
    Affine.Affine (Affine.a (transform self)) (Affine.b (transform self))
                  (BoundingBox.left bbox)
                  (Affine.d (transform self)) (Affine.e (transform self))
                  (BoundingBox.top bbox) in
  stacked <- lift (np_stack wcvars) ;;
  ret (stacked, transform).

(** [rasterio.warp.reproject(source, destination=..., ...)]: the
    destination array comes back, filled, with the destination transform. *)
Definition reproject (source destination : ndarray)
                     (src_transform : Affine.t) (src_crs : string)
                     (dst_transform : Affine.t) (dst_crs : string)
                     (resampling : Resampling)
  : result (ndarray * Affine.t) :=
  rbind (resample source src_transform src_crs dst_transform dst_crs
                  resampling (shape destination)) (fun values =>
  Ok (mk_ndarray (shape destination) values, dst_transform)).

Definition astype (arr : ndarray) (dt : dtype) : ndarray :=
  mk_ndarray (shape arr) (map (cast dt) (flat arr)).

Definition read_as_numpy (wc_vars : option (list WorldClimVar.t))
                         (crs : option string)
                         (resolution : Q)
                         (bounds : option BoundingBox.t)
                         (algorithm : Resampling)
                         (dt : dtype)
  : M state (ndarray * list Q * list Q * string * Affine.t) :=
  match bounds with
  | None => raise AssertionError
  | Some bounds =>
      self <- gets this ;;
      let crs := match crs with None => WorldClimData.crs self | Some c => c end in
      let wc_vars := match wc_vars with None => WorldClimVarAll | Some l => l end in
      let dst_transform :=
        Affine.Affine resolution 0 (BoundingBox.left bounds)
                      0 (- resolution) (BoundingBox.top bounds) in
      qx <- lift (truediv (Float.sub (BoundingBox.right bounds) (BoundingBox.left bounds))
                          resolution) ;;
      let dst_size_x := Qceiling qx in
      qy <- lift (truediv (Float.sub (BoundingBox.top bounds) (BoundingBox.bottom bounds))
                          resolution) ;;
      let dst_size_y := Qceiling qy in
      bbox <- lift (compute_latlon_bbox_from_region bounds crs) ;;
      '(wc_bbox, src_transform) <- get_wc_for_bbox bbox (Some wc_vars) ;;
      n <- lift (match shape wc_bbox with
                 | n :: _ => Ok n
                 | [] => Raise IndexError
                 end) ;;
      dst_wc <- lift (np_zeros [n; dst_size_y; dst_size_x]) ;;
      '(dst_wc, dst_wc_transform) <-
         lift (reproject wc_bbox dst_wc src_transform (WorldClimData.crs self)
                         dst_transform crs algorithm) ;;
      let dst_wc := astype dst_wc dt in
      xcoords <- lift (np_linspace
                         (Float.add (BoundingBox.left bounds) (Float.div resolution 2))
                         (Float.sub (BoundingBox.right bounds) (Float.div resolution 2))
                         dst_size_x) ;;
      ycoords <- lift (np_linspace
                         (Float.sub (BoundingBox.top bounds) (Float.div resolution 2))
                         (Float.add (BoundingBox.bottom bounds) (Float.div resolution 2))
                         dst_size_y) ;;
      ret (dst_wc, xcoords, ycoords, crs, dst_wc_transform)
  end.

Definition read_as_xarray (wc_vars : option (list WorldClimVar.t))
                          (crs : option string)
                          (resolution : Q)
                          (bounds : option BoundingBox.t)
                          (algorithm : Resampling)
                          (dt : dtype)
  : M state Dataset :=
  let wc_vars := match wc_vars with None => WorldClimVarAll | Some l => l end in
  '(np_wc, xcoords, ycoords, crs, transform) <-
     read_as_numpy (Some wc_vars) crs resolution bounds algorithm dt ;;
  items <- mapM (fun iv =>
                   name <- get_var_name (snd iv) ;;
                   layer <- lift (index_band (fst iv) np_wc) ;;
                   ret (("wc_" ++ name)%string, (["y"; "x"], layer)))
                (enumerate wc_vars 0) ;;
  let xr_vars := fold_left (fun dc kv => dict_set (fst kv) (snd kv) dc) items [] in
  ret (mkDataset xr_vars [("x", xcoords); ("y", ycoords)] crs resolution transform).

End Methods.

End WorldClimData.

(** ** sentinel2.py *)

(** [glob.glob(pattern)] on the backing store. *)
Class FileSystem : Type := {
  glob : string -> list string
}.

Module Sentinel2.

Inductive Satellite : Type := S2A | S2B.

Definition Satellite_value (sat : Satellite) : string :=
  match sat with S2A => "SENTINEL2A" | S2B => "SENTINEL2B" end.

Inductive Band : Type :=
| B2 | B3 | B4 | B5 | B6 | B7 | B8 | B8A | B9 | B10 | B11 | B12.

Definition Band_value (band : Band) : string :=
  match band with
  | B2 => "B2" | B3 => "B3" | B4 => "B4" | B5 => "B5" | B6 => "B6" | B7 => "B7"
  | B8 => "B8" | B8A => "B8A" | B9 => "B9" | B10 => "B10" | B11 => "B11"
  | B12 => "B12"
  end.

Inductive Mask : Type := SAT | CLM | EDG | MG2.

Definition Mask_value (mask : Mask) : string :=
  match mask with SAT => "SAT" | CLM => "CLM" | EDG => "EDG" | MG2 => "MG2" end.

Inductive MaskRes : Type := R1 | R2.

Definition MaskRes_value (res : MaskRes) : string :=
  match res with R1 => "R1" | R2 => "R2" end.

Inductive BandType : Type := FRE | SRE.

Definition BandType_value (band_type : BandType) : string :=
  match band_type with FRE => "FRE" | SRE => "SRE" end.

Definition GROUP_10M : list Band := [B2; B3; B4; B8].
Definition GROUP_20M : list Band := [B5; B6; B7; B8A; B11; B12].
Definition GROUP_60M : list Band := [B9; B10].

(** The attributes the path builders read. *)
Record t : Type := Sentinel2 {
  product_dir : string;
  product_name : string;
  satellite : Satellite;
  tile : string
}.

Section Methods.

Context {FS : FileSystem}.

(** The body ends without a [return]: the call yields [None]. *)
Definition build_xml_path (self : t) : result (option string) :=
  let p := glob (product_dir self ++ "/*MTD_ALL.xml")%string in
  if (length p =? 0)%nat then
    Raise (FileNotFoundError
             ("Could not find root XML file in product directory "
              ++ product_dir self)%string)
  else Ok None.

Definition build_band_path (self : t) (band : Band) (band_type : BandType)
  : result string :=
  let p := glob (product_dir self ++ "/*" ++ BandType_value band_type ++ "_"
                 ++ Band_value band ++ ".tif")%string in
  if (length p =? 0)%nat then
    Raise (FileNotFoundError
             ("Could not find band " ++ Band_value band ++ " of type "
              ++ BandType_value band_type ++ " in product directory "
              ++ product_dir self)%string)
  else
    match p with
    | first :: _ => Ok first
    | [] => Raise IndexError
    end.

Definition build_mask_path (self : t) (mask : Mask) (resolution : MaskRes)
  : result string :=
  let p := glob (product_dir self ++ "/MASKS/*" ++ Mask_value mask ++ "_"
                 ++ MaskRes_value resolution ++ ".tif")%string in
  if (length p =? 0)%nat then
    Raise (FileNotFoundError
             ("Could not find mask " ++ Mask_value mask ++ " of resolution "
              ++ MaskRes_value resolution ++ " in product directory "
              ++ product_dir self)%string)
  else
    match p with
    | first :: _ => Ok first
    | [] => Raise IndexError
    end.

End Methods.

End Sentinel2.

(** ** Vocabulary of the statements *)

Section Geometry.

Context {R : Rounding}.

Local Open Scope Q_scope.

(** An axis-aligned transform of a north-up raster: columns grow with x,
    rows grow as y decreases. *)
Definition north_up (tr : Affine.t) : Prop :=
  Affine.b tr == 0 /\ Affine.d tr == 0 /\ 0 < Affine.a tr /\ Affine.e tr < 0.

(** The geographic box of a window: its top-left and bottom-right corners
    through the transform, [tr * (col, row)]. *)
Definition window_bounds (tr : Affine.t) (w : Window) : BoundingBox.t :=
  let (x0, y0) := Affine.apply tr (inject_Z (col_start w), inject_Z (row_start w)) in
  let (x1, y1) := Affine.apply tr (inject_Z (col_stop w), inject_Z (row_stop w)) in
  BoundingBox.BoundingBox x0 y1 x1 y0.

Definition covers (outer inner : BoundingBox.t) : Prop :=
  BoundingBox.left outer <= BoundingBox.left inner /\
  BoundingBox.right inner <= BoundingBox.right outer /\
  BoundingBox.bottom outer <= BoundingBox.bottom inner /\
  BoundingBox.top inner <= BoundingBox.top outer.

(** Along one axis, the pixels from [lo] to [hi] hold the two positions [p]
    and [q]. *)
Definition holds (lo hi : Z) (p q : Q) : Prop :=
  inject_Z lo <= p /\ p <= inject_Z hi /\ inject_Z lo <= q /\ q <= inject_Z hi.

(** Along one axis, [lo] lies less than one pixel before the smaller of two
    positions and [hi] less than one pixel after the greater. *)
Definition snug (lo hi : Z) (p q : Q) : Prop :=
  (p - inject_Z lo < 1 \/ q - inject_Z lo < 1) /\
  (inject_Z hi - p < 1 \/ inject_Z hi - q < 1).

Definition same_box (b1 b2 : BoundingBox.t) : Prop :=
  BoundingBox.left b1 == BoundingBox.left b2 /\
  BoundingBox.right b1 == BoundingBox.right b2 /\
  BoundingBox.bottom b1 == BoundingBox.bottom b2 /\
  BoundingBox.top b1 == BoundingBox.top b2.

Definition ordered (bbox : BoundingBox.t) : Prop :=
  BoundingBox.left bbox <= BoundingBox.right bbox /\
  BoundingBox.bottom bbox <= BoundingBox.top bbox.

(** The four edges lie on pixel boundaries of the grid of [tr], in exact
    terms. *)
Definition on_pixel_grid (tr : Affine.t) (bbox : BoundingBox.t) : Prop :=
  exists kl kr kt kb : Z,
    BoundingBox.left bbox == inject_Z kl * Affine.a tr + Affine.c tr /\
    BoundingBox.right bbox == inject_Z kr * Affine.a tr + Affine.c tr /\
    BoundingBox.top bbox == inject_Z kt * Affine.e tr + Affine.f tr /\
    BoundingBox.bottom bbox == inject_Z kb * Affine.e tr + Affine.f tr.

(** [m] is the least (resp. greatest) element of [l]. *)
Definition least (m : Z) (l : list Z) : Prop := In m l /\ Forall (Z.le m) l.

Definition greatest (m : Z) (l : list Z) : Prop := In m l /\ Forall (Z.ge m) l.

(** An array holds as many values as its shape says. *)
Definition well_formed (arr : ndarray) : Prop :=
  length (flat arr) = Z.to_nat (size_of (shape arr)).

End Geometry.

Section Observations.

Context {R : Rounding} {RIO : Rasterio} {UTILS : Utils}.

(** What the backing store hands out is well formed. *)
Definition reads_well_formed : Prop :=
  forall path ds w arr,
    rio_open path = Ok ds -> ds_read ds w = Ok arr -> well_formed arr.

(** The cropped data of one variable: the body of the comprehensions of
    [get_wc_for_bbox], run on its own for the instance [self]. *)
Definition cropped_layer (self : WorldClimData.t) (bbox : BoundingBox.t)
                         (var : WorldClimVar.t) : result ndarray :=
  fst ((wc_file <- WorldClimData.get_file_path var ;;
        image <- WorldClimData.crop_to_bbox wc_file bbox ;;
        lift (index_band 0 image))
       (WorldClimData.mkState self [])).

(** A method leaves the instance as it found it, however it ends. *)
Definition preserves_self {A : Type} (m : M WorldClimData.state A) : Prop :=
  forall s, WorldClimData.this (snd (m s)) = WorldClimData.this s.

End Observations.

(** ** A small world to run the readers in *)

Module Demo.

(** The readers run on binary64 arithmetic. *)

(** The WorldClim 30-arc-second global grid, as a file gives it: the pixel
    size is the float nearest to 1/120 degree. *)
Definition grid : Affine.t :=
  Eval vm_compute in
    Affine.Affine (float_literal (1 # 120)) 0 (-180) 0 (- float_literal (1 # 120)) 90.

Fixpoint checksum (s : string) : Z :=
  match s with
  | EmptyString => 0
  | String ch s' => Z.of_nat (nat_of_ascii ch) + checksum s'
  end.

(** Every path opens; a file holds one band of a constant that depends on
    its name. Windows must start inside the raster and be well-ordered. *)
Definition rasterio : Rasterio := {|
  dataset := Z;
  rio_open := fun path => Ok (checksum path);
  ds_transform := fun _ => grid;
  ds_read := fun ds w =>
    if (0 <=? row_start w) && (row_start w <=? row_stop w)
       && (0 <=? col_start w) && (col_start w <=? col_stop w)
    then
      let h := row_stop w - row_start w in
      let wd := col_stop w - col_start w in
      Ok (mk_ndarray [1; h; wd] (repeat (inject_Z ds) (Z.to_nat (h * wd))))
    else Raise (ValueError "window outside of the raster");
  resample := fun _ _ _ _ _ _ sh => Ok (repeat 0%Q (Z.to_nat (size_of sh)));
  dtype := unit;
  cast := fun _ v => v
|}.

(** Regions are given in units of 1/100000 degree. *)
Definition utils : Utils := {|
  compute_latlon_bbox_from_region := fun bounds _ =>
    Ok (BoundingBox.BoundingBox
          (Float.div (R := binary64) (BoundingBox.left bounds) 100000)
          (Float.div (R := binary64) (BoundingBox.bottom bounds) 100000)
          (Float.div (R := binary64) (BoundingBox.right bounds) 100000)
          (Float.div (R := binary64) (BoundingBox.top bounds) 100000))
|}.

(** A product directory with two files for one band and none for another. *)
Definition filesystem : FileSystem := {|
  glob := fun pattern =>
    if String.eqb pattern "/products/S2/*FRE_B2.tif"
    then ["/products/S2/A_FRE_B2.tif"; "/products/S2/B_FRE_B2.tif"]
    else if String.eqb pattern "/products/S2/*MTD_ALL.xml"
    then ["/products/S2/S2_MTD_ALL.xml"]
    else []
|}.

Definition product : Sentinel2.t :=
  Sentinel2.Sentinel2 "/products/S2" "S2" Sentinel2.S2A "31TCJ".

Definition catalog : result WorldClimData.t :=
  fst (WorldClimData.__init__ (R := binary64) (RIO := rasterio) "/wc" []).

Definition tavg_08 : WorldClimVar.t := WorldClimVar.WorldClimVar "tavg" "clim" (Some 8).
Definition prec_01 : WorldClimVar.t := WorldClimVar.WorldClimVar "prec" "clim" (Some 1).
Definition annual_prec : WorldClimVar.t := WorldClimVar.WorldClimVar "Annual_Prec" "bio" None.

Definition region : BoundingBox.t := BoundingBox.BoundingBox 0 0 1000 1000.

(** The catalog built on this store, when it was built. *)
Definition self : WorldClimData.t :=
  Eval vm_compute in
    match catalog with
    | Ok c => c
    | Raise _ => WorldClimData.WorldClimData "" "" "" "" 0 [] [] grid
    end.

Definition start : WorldClimData.state := WorldClimData.mkState self [].

(** A box of one degree with whole coordinates, and the box 1.2, 43.1, 1.9,
    43.9 inside it. *)
Definition box_on_grid : BoundingBox.t := BoundingBox.BoundingBox 1 43 2 44.

Definition box_off_grid : BoundingBox.t :=
  Eval vm_compute in
    BoundingBox.BoundingBox (float_literal (6 # 5)) (float_literal (431 # 10))
                            (float_literal (19 # 10)) (float_literal (439 # 10)).

(** A grid of pixels of three units with its origin at (1, -1), and a box
    whose four edges lie on pixel boundaries of it: columns 2 to 4, rows 2 to
    4. *)
Definition coarse_grid : Affine.t := Affine.Affine 3 0 1 0 (-3) (-1).

Definition box_aligned : BoundingBox.t := BoundingBox.BoundingBox 7 (-13) 13 (-7).

(** A grid of pixels of a quarter unit, and a box on pixel boundaries of
    it: columns 4 to 12, rows 4 to 8. *)
Definition quarter_grid : Affine.t := Affine.Affine (1 # 4) 0 0 0 (- (1 # 4)) 0.

Definition box_quarters : BoundingBox.t := BoundingBox.BoundingBox 1 (-2) 3 (-1).

(** A grid of three degrees, and a box whose left edge is the float next
    below -126, the boundary of column 18. *)
Definition degree3_grid : Affine.t := Affine.Affine 3 0 (-180) 0 (-3) 0.

Definition box_near_boundary : BoundingBox.t :=
  BoundingBox.BoundingBox (- (8866461766385665 # 70368744177664)) (-10) (-100) (-1).

End Demo.

(** ** worldclim.py: the rest of [WorldClimVar] *)

(** [str.upper] on ASCII text; the values of the two enumerations are ASCII. *)
Definition ascii_upper (ch : ascii) : ascii :=
  let n := nat_of_ascii ch in
  if ((97 <=? n) && (n <=? 122))%nat then ascii_of_nat (n - 32) else ch.

Fixpoint upper (s : string) : string :=
  match s with
  | EmptyString => EmptyString
  | String ch s' => String (ascii_upper ch) (upper s')
  end.

(** [WorldClimVar.__str__] *)
Definition WorldClimVar_str (self : WorldClimVar.t) : result string :=
  if String.eqb (WorldClimVar.typ self) "bio" then
    Ok (upper (WorldClimVar.value self))
  else
    match WorldClimVar.month self with
    | Some m => Ok ("CLIM_" ++ upper (WorldClimVar.value self) ++ "_" ++ fmt02 m)%string
    | None => Raise (AttributeError "month")
    end.

(** A variable that came out of the constructor. *)
Definition constructed (v : WorldClimVar.t) : Prop :=
  exists var month, WorldClimVar.__init__ var month = Ok v.

(** ** sentinel2.py: the rest of the class *)

Module Sentinel2Product.

Import Sentinel2.

Definition Band_eqb (x y : Band) : bool :=
  match x, y with
  | B2, B2 | B3, B3 | B4, B4 | B5, B5 | B6, B6 | B7, B7
  | B8, B8 | B8A, B8A | B9, B9 | B10, B10 | B11, B11 | B12, B12 => true
  | _, _ => false
  end.

(** A class-level dict keyed by band; a missing key raises KeyError. *)
Fixpoint lookup {V : Type} (band : Band) (table : list (Band * V)) : result V :=
  match table with
  | [] => Raise (KeyError ("Band." ++ Band_value band)%string)
  | (k, v) :: table' => if Band_eqb k band then Ok v else lookup band table'
  end.

Definition MTF : list (Band * Q) :=
  [(B2, float_literal (304 # 1000)); (B3, float_literal (276 # 1000));
   (B4, float_literal (233 # 1000)); (B5, float_literal (343 # 1000));
   (B6, float_literal (336 # 1000)); (B7, float_literal (338 # 1000));
   (B8, float_literal (222 # 1000)); (B8A, float_literal (325 # 1000));
   (B9, float_literal (39 # 100)); (B11, float_literal (21 # 100));
   (B12, float_literal (19 # 100))].

Definition RES : list (Band * Z) :=
  [(B2, 10); (B3, 10); (B4, 10); (B5, 20); (B6, 20); (B7, 20); (B8, 10);
   (B8A, 20); (B9, 60); (B11, 60); (B12, 60)].

(** [Satellite(value)]: the member with that value. *)
Definition Satellite_of (v : string) : result Satellite :=
  if String.eqb v "SENTINEL2A" then Ok S2A
  else if String.eqb v "SENTINEL2B" then Ok S2B
  else Raise (ValueError ("'" ++ v ++ "' is not a valid Sentinel2.Satellite")%string).

(** What the constructor keeps of the parsed acquisition date. *)
Record Date : Type := mkDate { date_year : Z; date_tm_yday : Z }.

(** A float that may be [nan]. *)
Inductive pyfloat : Type := Finite (q : Q) | NaN.

(** [Union[Tuple[int, int, int, int], BoundingBox]] *)
Inductive Region : Type :=
| PixelRegion (r : Z * Z * Z * Z)
| GeoRegion (bbox : BoundingBox.t).

(** The keyword arguments of [utils.read_as_numpy]. *)
Record read_kwargs (dtype : Type) : Type := mk_kwargs {
  kw_crs : option string;
  kw_resolution : Q;
  kw_offsets : option (Q * Q);
  kw_region : option Region;
  kw_output_no_data_value : pyfloat;
  kw_input_no_data_value : Q;
  kw_bounds : option BoundingBox.t;
  kw_algorithm : Resampling;
  kw_separate : bool;
  kw_dtype : dtype;
  kw_scale : Q
}.

Arguments mk_kwargs {dtype}.
Arguments kw_crs {dtype}.
Arguments kw_resolution {dtype}.
Arguments kw_offsets {dtype}.
Arguments kw_region {dtype}.
Arguments kw_output_no_data_value {dtype}.
Arguments kw_input_no_data_value {dtype}.
Arguments kw_bounds {dtype}.
Arguments kw_algorithm {dtype}.
Arguments kw_separate {dtype}.
Arguments kw_dtype {dtype}.
Arguments kw_scale {dtype}.

(** os.path, dateutil, rasterio and [sensorsio.utils], as the class calls
    them. *)
Class Collaborators : Type := {
  normpath : string -> string;
  basename : string -> string;
  (** [dateutil.parser.parse] *)
  parse : string -> result Date;
  (** [rio.open(path)]: the bounds and the crs of the dataset. *)
  open_bounds_crs : string -> result (BoundingBox.t * string);
  (** [utils.generate_psf_kernel(resolution, res, mtf, half_kernel_width)] *)
  generate_psf_kernel : Q -> Z -> Q -> option Z -> result ndarray;
  np_dtype : Type;
  (** [utils.read_as_numpy(img_files, **kwargs)] *)
  utils_read_as_numpy : list string -> read_kwargs np_dtype -> result ndarray
}.

(** The attributes of an instance: those of the path builders, and the
    rest. *)
Record t : Type := mkProduct {
  core : Sentinel2.t;
  offsets : option (Q * Q);
  date : Date;
  year : Z;
  day_of_year : Z;
  bounds : BoundingBox.t;
  crs : string
}.

Section Methods.

Context {FS : FileSystem} {EXT : Collaborators}.

(** The constructor. Slices are clipped to the string, as in Python. *)
Definition __init__ (product_dir : string) (offsets : option (Q * Q)) : result t :=
  let product_dir := normpath product_dir in
  let product_name := basename product_dir in
  rbind (Satellite_of (substring 0 10 product_name)) (fun satellite =>
  let tile := substring 35 6 product_name in
  rbind (parse (substring 11 8 product_name)) (fun date =>
  let year := date_year date in
  let day_of_year := date_tm_yday date in
  let self := Sentinel2.Sentinel2 product_dir product_name satellite tile in
  rbind (build_band_path self B2 FRE) (fun path =>
  rbind (open_bounds_crs path) (fun bc =>
  Ok (mkProduct self offsets date year day_of_year (fst bc) (snd bc)))))).

Definition PSF (self : t) (bands : list Band) (resolution : Q)
               (half_kernel_width : option Z) : result ndarray :=
  rbind (rmap (fun b =>
                 rbind (lookup b RES) (fun res =>
                 rbind (lookup b MTF) (fun mtf =>
                 generate_psf_kernel resolution res mtf half_kernel_width)))
              bands)
        np_stack.

Definition read_bands (self : t) (bands : list Band) (band_type : BandType)
                      (scale : Q) (crs : option string) (resolution : Q)
                      (offsets : option (Q * Q)) (region : option Region)
                      (no_data_value : pyfloat) (bounds : option BoundingBox.t)
                      (algorithm : Resampling) (dt : np_dtype) : result ndarray :=
  rbind (rmap (fun b => build_band_path (core self) b band_type) bands) (fun img_files =>
  rbind (utils_read_as_numpy img_files
           (mk_kwargs crs resolution (Sentinel2Product.offsets self) region
                      no_data_value (-10000) bounds algorithm true dt scale))
        (fun np_arr =>
  index_axis0 0 np_arr)).

End Methods.

End Sentinel2Product.

(** ** A product directory to run the Sentinel-2 reader on *)

Module DemoProduct.

Definition dir : string := "/data/SENTINEL2A_20200101-105859-123_L2A_T31TCJ_C_V2-2".

(** Band files for B2, B3 and B11 only. *)
Definition filesystem : FileSystem := {|
  glob := fun pattern =>
    if String.eqb pattern (dir ++ "/*FRE_B2.tif")
    then [(dir ++ "/X_FRE_B2.tif")%string]
    else if String.eqb pattern (dir ++ "/*FRE_B3.tif")
    then [(dir ++ "/X_FRE_B3.tif")%string; (dir ++ "/Y_FRE_B3.tif")%string]
    else if String.eqb pattern (dir ++ "/*FRE_B11.tif")
    then [(dir ++ "/X_FRE_B11.tif")%string]
    else if String.eqb pattern (dir ++ "/MASKS/*CLM_R1.tif")
    then [(dir ++ "/MASKS/X_CLM_R1.tif")%string; (dir ++ "/MASKS/Y_CLM_R1.tif")%string]
    else []
|}.

Fixpoint after_last_slash (s acc : string) : string :=
  match s with
  | EmptyString => acc
  | String ch s' =>
      if Ascii.eqb ch "/" then after_last_slash s' s' else after_last_slash s' acc
  end.

(** Paths are already normal; dates parse to the first of January 2020;
    kernels are 3 by 3; a read gives one slice per file. *)
Definition collaborators : Sentinel2Product.Collaborators := {|
  Sentinel2Product.normpath := fun p => p;
  Sentinel2Product.basename := fun p => after_last_slash p p;
  Sentinel2Product.parse := fun _ => Ok (Sentinel2Product.mkDate 2020 1);
  Sentinel2Product.open_bounds_crs := fun _ =>
    Ok (BoundingBox.BoundingBox 300000 4790220 409800 4900020, "EPSG:32631");
  Sentinel2Product.generate_psf_kernel := fun _ res mtf _ =>
    Ok (mk_ndarray [3; 3] (repeat (Float.mul (R := binary64) (inject_Z res) mtf) 9));
  Sentinel2Product.np_dtype := unit;
  Sentinel2Product.utils_read_as_numpy := fun img_files kw =>
    Ok (mk_ndarray [1; Z.of_nat (length img_files)]
                   (map (fun f => inject_Z (Demo.checksum f)) img_files))
|}.

(** The instance the constructor builds on this directory. *)
Definition product : Sentinel2Product.t :=
  Sentinel2Product.mkProduct
    (Sentinel2.Sentinel2 dir "SENTINEL2A_20200101-105859-123_L2A_T31TCJ_C_V2-2"
                         Sentinel2.S2A "T31TCJ")
    (Some (1 # 2, - (1 # 2))%Q)
    (Sentinel2Product.mkDate 2020 1) 2020 1
    (BoundingBox.BoundingBox 300000 4790220 409800 4900020) "EPSG:32631".

End DemoProduct.

(** * Properties *)

(** ** The rounding of binary64 *)

Section Binary64.

Local Open Scope Q_scope.

Lemma pow2_pos (e : Z) : 0 < 2 ^ e.
Proof. apply Qpower_0_lt. reflexivity. Qed.

Lemma pow2_le (j k : Z) : (j <= k)%Z -> 2 ^ j <= 2 ^ k.
Proof. intros H. apply Qpower_le_compat_l; [exact H | discriminate]. Qed.

Lemma pow2_plus (j k : Z) : 2 ^ (j + k) == 2 ^ j * 2 ^ k.
Proof. apply Qpower_plus. discriminate. Qed.

Lemma pow2_Z (k : Z) : (0 <= k)%Z -> inject_Z (2 ^ k) == 2 ^ k.
Proof. intros H. rewrite Zpower_Qpower by exact H. reflexivity. Qed.

Lemma round_half_even_bounds (q : Q) :
  (Qfloor q <= round_half_even q <= Qfloor q + 1)%Z.
Proof.
  unfold round_half_even.
  destruct (q - inject_Z (Qfloor q) ?= 1 # 2); [destruct (Z.even (Qfloor q)) | |]; lia.
Qed.

Lemma round_half_even_Z (k : Z) : round_half_even (inject_Z k) = k.
Proof.
  unfold round_half_even. rewrite Qfloor_Z.
  assert (E : (inject_Z k - inject_Z k ?= 1 # 2) = Lt).
  { rewrite <- Qlt_alt. lra. }
  rewrite E. reflexivity.
Qed.

Lemma round_half_even_whole (q : Q) (k : Z) : q == inject_Z k -> round_half_even q = k.
Proof.
  intros H. unfold round_half_even.
  assert (F : Qfloor q = k) by (rewrite H; apply Qfloor_Z).
  rewrite F.
  assert (E : (q - inject_Z k ?= 1 # 2) = Lt).
  { rewrite <- Qlt_alt. lra. }
  rewrite E. reflexivity.
Qed.

Lemma round_half_even_le (x y : Q) : x <= y -> (round_half_even x <= round_half_even y)%Z.
Proof.
  intros H. pose proof (Qfloor_resp_le _ _ H) as Hf.
  destruct (Z.eq_dec (Qfloor x) (Qfloor y)) as [E | N].
  - unfold round_half_even. rewrite <- E.
    destruct (x - inject_Z (Qfloor x) ?= 1 # 2) eqn:Cx;
      destruct (y - inject_Z (Qfloor x) ?= 1 # 2) eqn:Cy;
      try (destruct (Z.even (Qfloor x))); try lia;
      try rewrite <- Qeq_alt in *; try rewrite <- Qlt_alt in *; try rewrite <- Qgt_alt in *;
      exfalso; lra.
  - pose proof (round_half_even_bounds x). pose proof (round_half_even_bounds y). lia.
Qed.

Lemma round_to_grid_le (e : Z) (x y : Q) : x <= y -> round_to_grid e x <= round_to_grid e y.
Proof.
  intros H. unfold round_to_grid. pose proof (pow2_pos e) as He.
  apply Qmult_le_compat_r; [| lra].
  rewrite <- Zle_Qle. apply round_half_even_le.
  apply Qmult_le_compat_r; [exact H |].
  apply Qlt_le_weak, Qinv_lt_0_compat, He.
Qed.

(** A multiple of a coarser power of two lies on the grid. *)
Lemma round_to_grid_fixes (e j k : Z) (q : Q) :
  (0 <= j)%Z -> q == inject_Z k * 2 ^ (e + j) -> round_to_grid e q == q.
Proof.
  intros Hj Hq. unfold round_to_grid. pose proof (pow2_pos e) as He.
  assert (W : q / 2 ^ e == inject_Z (k * 2 ^ j)).
  { rewrite Hq, inject_Z_mult, pow2_Z by exact Hj. rewrite pow2_plus. field. lra. }
  rewrite (round_half_even_whole _ _ W).
  rewrite Hq, inject_Z_mult, pow2_Z by exact Hj. rewrite pow2_plus. ring.
Qed.

Lemma round_to_grid_0 (e : Z) (q : Q) : q == 0 -> round_to_grid e q == 0.
Proof.
  intros H. rewrite (round_to_grid_fixes e 0 0 q); [exact H | lia |].
  rewrite H. cbn [inject_Z]. ring.
Qed.

Lemma ilog2_spec (q : Q) : ~ q == 0 -> 2 ^ ilog2 q <= Qabs q /\ Qabs q < 2 ^ (ilog2 q + 1).
Proof.
  intros Hq. destruct q as [n d]. unfold ilog2. cbn [Qnum Qden].
  assert (Hn : (0 < Z.abs n)%Z).
  { assert (n <> 0)%Z; [| lia]. intros ->. apply Hq. reflexivity. }
  pose proof (Z.log2_spec _ Hn) as [Ln Un].
  pose proof (Z.log2_spec (Zpos d) ltac:(lia)) as [Ld Ud].
  pose proof (Z.log2_nonneg (Z.abs n)) as An.
  pose proof (Z.log2_nonneg (Zpos d)) as Ad.
  set (a := Z.log2 (Z.abs n)) in *. set (b := Z.log2 (Zpos d)) in *.
  assert (Eabs : Qabs (n # d) == inject_Z (Z.abs n) / inject_Z (Zpos d)).
  { unfold Qabs. rewrite (Qmake_Qdiv (Z.abs n) d). reflexivity. }
  assert (Dpos : 0 < inject_Z (Zpos d)) by (rewrite <- (Zlt_Qlt 0); lia).
  assert (Qa : 2 ^ a <= inject_Z (Z.abs n)) by (rewrite <- pow2_Z, <- Zle_Qle; lia).
  assert (Qa' : inject_Z (Z.abs n) < 2 ^ (a + 1))
    by (rewrite <- pow2_Z, <- Zlt_Qlt; [exact Un | lia]).
  assert (Qb : 2 ^ b <= inject_Z (Zpos d)) by (rewrite <- pow2_Z, <- Zle_Qle; lia).
  assert (Qb' : inject_Z (Zpos d) < 2 ^ (b + 1))
    by (rewrite <- pow2_Z, <- Zlt_Qlt; [exact Ud | lia]).
  pose proof (pow2_pos b) as Pb. pose proof (pow2_pos (a - b)) as Pk.
  pose proof (pow2_pos (a - b - 1)) as Pk1.
  assert (Up : Qabs (n # d) < 2 ^ (a - b + 1)).
  { rewrite Eabs. apply Qlt_shift_div_r; [exact Dpos |].
    apply Qlt_le_trans with (2 ^ (a + 1)); [exact Qa' |].
    replace (a + 1)%Z with ((a - b + 1) + b)%Z by lia. rewrite pow2_plus.
    apply Qmult_le_l; [apply pow2_pos | exact Qb]. }
  assert (Lo : 2 ^ (a - b - 1) <= Qabs (n # d)).
  { rewrite Eabs. apply Qle_shift_div_l; [exact Dpos |].
    apply Qle_trans with (2 ^ a); [| exact Qa].
    replace a with ((a - b - 1) + (b + 1))%Z at 2 by lia. rewrite pow2_plus.
    apply Qmult_le_l; [apply pow2_pos | lra]. }
  destruct (Qle_bool (2 ^ (a - b)) (Qabs (n # d))) eqn:T.
  - apply Qle_bool_iff in T. split; [exact T | exact Up].
  - assert (T' : Qabs (n # d) < 2 ^ (a - b)).
    { apply Qnot_le_lt. intros C. apply Qle_bool_iff in C. congruence. }
    split; [exact Lo |]. replace (a - b - 1 + 1)%Z with (a - b)%Z by lia. exact T'.
Qed.

Lemma ilog2_le (x y : Q) : ~ x == 0 -> ~ y == 0 -> Qabs x <= Qabs y -> (ilog2 x <= ilog2 y)%Z.
Proof.
  intros Hx Hy H.
  destruct (ilog2_spec x Hx) as [Lx _]. destruct (ilog2_spec y Hy) as [_ Uy].
  destruct (Z_le_gt_dec (ilog2 x) (ilog2 y)) as [L | G]; [exact L | exfalso].
  pose proof (pow2_le (ilog2 y + 1) (ilog2 x) ltac:(lia)). lra.
Qed.

Lemma ulp_exponent_le (x y : Q) :
  ~ x == 0 -> ~ y == 0 -> Qabs x <= Qabs y -> (ulp_exponent x <= ulp_exponent y)%Z.
Proof. intros Hx Hy H. pose proof (ilog2_le x y Hx Hy H). unfold ulp_exponent. lia. Qed.

(** Between two numbers of different exponents lies a power of two that is
    on both grids. *)
Lemma binade_between (x y : Q) :
  ~ x == 0 -> ~ y == 0 -> (ulp_exponent x < ulp_exponent y)%Z ->
  Qabs x < 2 ^ (ulp_exponent y + 52) /\ 2 ^ (ulp_exponent y + 52) <= Qabs y.
Proof.
  intros Hx Hy H. unfold ulp_exponent in *.
  destruct (ilog2_spec x Hx) as [_ Ux]. destruct (ilog2_spec y Hy) as [Ly _].
  assert (E : Z.max (ilog2 y - 52) (-1074) = (ilog2 y - 52)%Z) by lia.
  rewrite E in *. replace (ilog2 y - 52 + 52)%Z with (ilog2 y) by lia.
  split; [| exact Ly].
  apply Qlt_le_trans with (2 ^ (ilog2 x + 1)); [exact Ux |]. apply pow2_le. lia.
Qed.

Lemma round_binary64_nonneg (q : Q) : 0 <= q -> 0 <= round_binary64 q.
Proof.
  intros H. unfold round_binary64. destruct (Qeq_bool q 0); [lra |].
  rewrite <- (round_to_grid_0 (ulp_exponent q) 0) by reflexivity.
  apply round_to_grid_le, H.
Qed.

Lemma round_binary64_nonpos (q : Q) : q <= 0 -> round_binary64 q <= 0.
Proof.
  intros H. unfold round_binary64. destruct (Qeq_bool q 0); [lra |].
  rewrite <- (round_to_grid_0 (ulp_exponent q) 0) by reflexivity.
  apply round_to_grid_le, H.
Qed.

Lemma round_binary64_nonzero (q : Q) :
  ~ q == 0 -> round_binary64 q = round_to_grid (ulp_exponent q) q.
Proof.
  intros H. unfold round_binary64. destruct (Qeq_bool q 0) eqn:E; [| reflexivity].
  apply Qeq_bool_eq in E. contradiction.
Qed.

Lemma round_binary64_le_pos (x y : Q) : 0 < x -> x <= y -> round_binary64 x <= round_binary64 y.
Proof.
  intros Hx H. assert (Nx : ~ x == 0) by lra. assert (Ny : ~ y == 0) by lra.
  rewrite (round_binary64_nonzero x Nx), (round_binary64_nonzero y Ny).
  assert (Ax : Qabs x == x) by (apply Qabs_pos; lra).
  assert (Ay : Qabs y == y) by (apply Qabs_pos; lra).
  pose proof (ulp_exponent_le x y Nx Ny ltac:(rewrite Ax, Ay; exact H)) as He.
  destruct (Z.eq_dec (ulp_exponent x) (ulp_exponent y)) as [E | N].
  - rewrite E. apply round_to_grid_le, H.
  - destruct (binade_between x y Nx Ny ltac:(lia)) as [Bx By].
    rewrite Ax in Bx. rewrite Ay in By.
    set (B := 2 ^ (ulp_exponent y + 52)) in *.
    apply Qle_trans with B.
    + rewrite <- (round_to_grid_fixes (ulp_exponent x)
                    (ulp_exponent y + 52 - ulp_exponent x) 1 B).
      * apply round_to_grid_le. lra.
      * unfold ulp_exponent in *. lia.
      * unfold B. replace (ulp_exponent x + (ulp_exponent y + 52 - ulp_exponent x))%Z
          with (ulp_exponent y + 52)%Z by lia. cbn [inject_Z]. ring.
    + rewrite <- (round_to_grid_fixes (ulp_exponent y) 52 1 B) at 1.
      * apply round_to_grid_le, By.
      * lia.
      * unfold B. cbn [inject_Z]. ring.
Qed.

Lemma round_binary64_le_neg (x y : Q) : y < 0 -> x <= y -> round_binary64 x <= round_binary64 y.
Proof.
  intros Hy H. assert (Nx : ~ x == 0) by lra. assert (Ny : ~ y == 0) by lra.
  rewrite (round_binary64_nonzero x Nx), (round_binary64_nonzero y Ny).
  assert (Ax : Qabs x == - x) by (apply Qabs_neg; lra).
  assert (Ay : Qabs y == - y) by (apply Qabs_neg; lra).
  pose proof (ulp_exponent_le y x Ny Nx ltac:(rewrite Ax, Ay; lra)) as He.
  destruct (Z.eq_dec (ulp_exponent y) (ulp_exponent x)) as [E | N].
  - rewrite E. apply round_to_grid_le, H.
  - destruct (binade_between y x Ny Nx ltac:(lia)) as [By Bx].
    rewrite Ax in Bx. rewrite Ay in By.
    set (B := 2 ^ (ulp_exponent x + 52)) in *.
    apply Qle_trans with (- B).
    + rewrite <- (round_to_grid_fixes (ulp_exponent x) 52 (-1) (- B)).
      * apply round_to_grid_le. lra.
      * lia.
      * unfold B. cbn [inject_Z]. ring.
    + rewrite <- (round_to_grid_fixes (ulp_exponent y)
                    (ulp_exponent x + 52 - ulp_exponent y) (-1) (- B)) at 1.
      * apply round_to_grid_le. lra.
      * unfold ulp_exponent in *. lia.
      * unfold B. replace (ulp_exponent y + (ulp_exponent x + 52 - ulp_exponent y))%Z
          with (ulp_exponent x + 52)%Z by lia. cbn [inject_Z]. ring.
Qed.

Theorem round_binary64_le (x y : Q) : x <= y -> round_binary64 x <= round_binary64 y.
Proof.
  intros H.
  destruct (Qlt_le_dec 0 x) as [Px | Nx].
  - apply round_binary64_le_pos; assumption.
  - destruct (Qlt_le_dec y 0) as [Ny | Py].
    + apply round_binary64_le_neg; assumption.
    + apply Qle_trans with 0;
        [apply round_binary64_nonpos, Nx | apply round_binary64_nonneg, Py].
Qed.

Lemma ilog2_unique (q : Q) (k : Z) :
  ~ q == 0 -> 2 ^ k <= Qabs q -> Qabs q < 2 ^ (k + 1) -> ilog2 q = k.
Proof.
  intros Hq Lo Up. destruct (ilog2_spec q Hq) as [Lo' Up'].
  destruct (Z_lt_ge_dec (ilog2 q) k) as [L | G].
  - pose proof (pow2_le (ilog2 q + 1) k ltac:(lia)). lra.
  - destruct (Z.eq_dec (ilog2 q) k) as [E | N]; [exact E |].
    pose proof (pow2_le (k + 1) (ilog2 q) ltac:(lia)). lra.
Qed.

Lemma Qabs_le_both (x b : Q) : - b <= x -> x <= b -> Qabs x <= b.
Proof. intros H1 H2. apply Qabs_case; intros; lra. Qed.

Lemma Qabs_bounds (x b : Q) : Qabs x < b -> - b < x /\ x < b.
Proof.
  intros H. pose proof (Qle_Qabs x). pose proof (Qle_Qabs (- x)) as H'.
  rewrite Qabs_opp in H'. split; lra.
Qed.

(** A number and its rounding on the grid of its own exponent stay below
    the next power of two. *)
Lemma round_to_grid_bound (x : Q) :
  ~ x == 0 ->
  Qabs (round_to_grid (ulp_exponent x) x) <= 2 ^ (ulp_exponent x + 53).
Proof.
  intros Hx. destruct (ilog2_spec x Hx) as [_ Up].
  assert (Hb : Qabs x < 2 ^ (ulp_exponent x + 53)).
  { apply Qlt_le_trans with (2 ^ (ilog2 x + 1)); [exact Up |].
    apply pow2_le. unfold ulp_exponent. lia. }
  apply Qabs_bounds in Hb. destruct Hb as [Hlo Hhi].
  set (e := ulp_exponent x) in *.
  apply Qabs_le_both.
  - rewrite <- (round_to_grid_fixes e 53 (-1) (- 2 ^ (e + 53))).
    + apply round_to_grid_le. lra.
    + lia.
    + cbn [inject_Z]. ring.
  - rewrite <- (round_to_grid_fixes e 53 1 (2 ^ (e + 53))).
    + apply round_to_grid_le. lra.
    + lia.
    + cbn [inject_Z]. ring.
Qed.

Lemma ulp_exponent_min (x : Q) : (-1074 <= ulp_exponent x)%Z.
Proof. unfold ulp_exponent. lia. Qed.

(** The rounding of a number lies on the grid of its own exponent. *)
Lemma round_to_grid_on_grid (x : Q) :
  ~ x == 0 -> ~ round_to_grid (ulp_exponent x) x == 0 ->
  exists k j : Z,
    (0 <= j)%Z /\
    round_to_grid (ulp_exponent x) x
    == inject_Z k * 2 ^ (ulp_exponent (round_to_grid (ulp_exponent x) x) + j).
Proof.
  intros Hx Hr. pose proof (round_to_grid_bound x Hx) as Hb.
  pose proof (ulp_exponent_min x) as Hmin.
  set (e := ulp_exponent x) in *. set (r := round_to_grid e x) in *.
  set (m := round_half_even (x / 2 ^ e)).
  assert (Er : r == inject_Z m * 2 ^ e) by reflexivity.
  destruct (ilog2_spec r Hr) as [Lo Up].
  assert (Hl : (ilog2 r <= e + 53)%Z).
  { destruct (Z_le_gt_dec (ilog2 r) (e + 53)) as [L | G]; [exact L | exfalso].
    pose proof (pow2_le (e + 53 + 1) (ilog2 r) ltac:(lia)).
    pose proof (pow2_le (e + 53) (e + 53 + 1) ltac:(lia)).
    pose proof (pow2_pos (e + 53)).
    assert (2 ^ (e + 53) < 2 ^ (e + 53 + 1)).
    { rewrite (pow2_plus (e + 53) 1). change (2 ^ 1) with 2. lra. }
    lra. }
  destruct (Z.eq_dec (ilog2 r) (e + 53)) as [E | N].
  - assert (Ha : Qabs r == 2 ^ (e + 53)).
    { apply Qle_antisym; [exact Hb |]. rewrite <- E. exact Lo. }
    assert (Hm : Z.abs m = (2 ^ 53)%Z).
    { apply (inject_Z_injective (Z.abs m) (2 ^ 53)).
      rewrite Er, Qabs_Qmult in Ha.
      assert (A1 : Qabs (inject_Z m) == inject_Z (Z.abs m)) by reflexivity.
      assert (A2 : Qabs (2 ^ e) == 2 ^ e) by (apply Qabs_pos, Qlt_le_weak, pow2_pos).
      rewrite A1, A2 in Ha.
      replace (e + 53)%Z with (53 + e)%Z in Ha by lia. rewrite pow2_plus in Ha.
      rewrite pow2_Z by lia.
      apply (Qmult_inj_r _ _ (2 ^ e)); [pose proof (pow2_pos e); lra | exact Ha]. }
    exists (m / 2 ^ 53)%Z, 52%Z. split; [lia |].
    replace (ulp_exponent r) with (e + 1)%Z by (unfold ulp_exponent; rewrite E; lia).
    rewrite Er. replace (e + 1 + 52)%Z with (53 + e)%Z by lia. rewrite pow2_plus.
    rewrite <- (pow2_Z 53) by lia.
    assert (Hd : m = (m / 2 ^ 53 * 2 ^ 53)%Z).
    { destruct (Z.abs_eq_or_opp m) as [A | A]; rewrite A in Hm.
      - rewrite Hm. reflexivity.
      - assert (m = - 2 ^ 53)%Z by lia. subst m. rewrite H. reflexivity. }
    rewrite Hd at 1. rewrite inject_Z_mult. ring.
  - exists m, (e - ulp_exponent r)%Z. split; [unfold ulp_exponent; lia |].
    replace (ulp_exponent r + (e - ulp_exponent r))%Z with e by lia. exact Er.
Qed.

Theorem round_binary64_idempotent (x : Q) :
  round_binary64 (round_binary64 x) == round_binary64 x.
Proof.
  destruct (Qeq_bool x 0) eqn:E0.
  - assert (H : round_binary64 x = 0) by (unfold round_binary64; rewrite E0; reflexivity).
    rewrite H. reflexivity.
  - assert (Hx : ~ x == 0) by (intros H; apply Qeq_eq_bool in H; congruence).
    rewrite (round_binary64_nonzero x Hx). unfold round_binary64.
    destruct (Qeq_bool (round_to_grid (ulp_exponent x) x) 0) eqn:E1.
    + apply Qeq_bool_eq in E1. rewrite E1. reflexivity.
    + assert (Hr : ~ round_to_grid (ulp_exponent x) x == 0)
        by (intros H; apply Qeq_eq_bool in H; congruence).
      destruct (round_to_grid_on_grid x Hx Hr) as (k & j & Hj & Hk).
      apply (round_to_grid_fixes _ j k _ Hj Hk).
Qed.

Lemma Qfloor_unique (x : Q) (k : Z) :
  inject_Z k <= x -> x < inject_Z (k + 1) -> Qfloor x = k.
Proof.
  intros Lo Up.
  pose proof (Qfloor_resp_le _ _ Lo) as H1. rewrite Qfloor_Z in H1.
  pose proof (Qfloor_le x) as H2.
  assert (H3 : (Qfloor x < k + 1)%Z) by (rewrite Zlt_Qlt; lra).
  lia.
Qed.

Lemma round_half_even_opp (x : Q) : round_half_even (- x) = (- round_half_even x)%Z.
Proof.
  destruct (Qeq_dec x (inject_Z (Qfloor x))) as [E | N].
  - rewrite (round_half_even_whole x (Qfloor x) E).
    apply round_half_even_whole. rewrite inject_Z_opp, <- E. reflexivity.
  - pose proof (Qfloor_le x) as Lo. pose proof (Qlt_floor x) as Up.
    rewrite inject_Z_plus in Up. change (inject_Z 1) with 1 in Up.
    assert (Lo' : inject_Z (Qfloor x) < x).
    { apply Qle_lteq in Lo. destruct Lo as [L | L]; [exact L |].
      exfalso. apply N. symmetry. exact L. }
    assert (F : Qfloor (- x) = (- Qfloor x - 1)%Z).
    { apply Qfloor_unique.
      - unfold Z.sub. rewrite inject_Z_plus, !inject_Z_opp. change (inject_Z 1) with 1. lra.
      - replace (- Qfloor x - 1 + 1)%Z with (- Qfloor x)%Z by lia.
        rewrite inject_Z_opp. lra. }
    unfold round_half_even. rewrite F.
    assert (I : inject_Z (- Qfloor x - 1) == - inject_Z (Qfloor x) - 1).
    { unfold Z.sub. rewrite inject_Z_plus, !inject_Z_opp. change (inject_Z 1) with 1. ring. }
    assert (P : Z.even (- Qfloor x - 1) = negb (Z.even (Qfloor x))).
    { replace (- Qfloor x - 1)%Z with (- (Qfloor x + 1))%Z by lia.
      rewrite Z.even_opp, Z.even_add. destruct (Z.even (Qfloor x)); reflexivity. }
    destruct (x - inject_Z (Qfloor x) ?= 1 # 2) eqn:C;
      destruct (- x - inject_Z (- Qfloor x - 1) ?= 1 # 2) eqn:C';
      try rewrite <- Qeq_alt in *; try rewrite <- Qlt_alt in *; try rewrite <- Qgt_alt in *;
      try (exfalso; lra); try lia.
    rewrite P. destruct (Z.even (Qfloor x)); cbn [negb]; lia.
Qed.

Lemma ilog2_opp (x : Q) : ~ x == 0 -> ilog2 (- x) = ilog2 x.
Proof.
  intros Hx. destruct (ilog2_spec x Hx) as [Lo Up].
  apply ilog2_unique; [lra | rewrite Qabs_opp; exact Lo | rewrite Qabs_opp; exact Up].
Qed.

Theorem round_binary64_opp (x : Q) : round_binary64 (- x) == - round_binary64 x.
Proof.
  destruct (Qeq_dec x 0) as [E | N].
  - assert (E' : - x == 0) by lra.
    unfold round_binary64.
    rewrite (Qeq_eq_bool _ _ E), (Qeq_eq_bool _ _ E'). reflexivity.
  - rewrite (round_binary64_nonzero x N), (round_binary64_nonzero (- x)) by lra.
    unfold ulp_exponent, round_to_grid. rewrite (ilog2_opp x N).
    set (e := Z.max (ilog2 x - 52) (-1074)).
    assert (D : - x / 2 ^ e == - (x / 2 ^ e)).
    { pose proof (pow2_pos e). field. lra. }
    assert (R : round_half_even (- x / 2 ^ e) = round_half_even (- (x / 2 ^ e))).
    { apply Z.le_antisymm; apply round_half_even_le; rewrite D; apply Qle_refl. }
    rewrite R, round_half_even_opp, inject_Z_opp. ring.
Qed.

#[export] Instance binary64_faithful : Faithful binary64.
Proof.
  split.
  - exact round_binary64_le.
  - reflexivity.
  - exact round_binary64_idempotent.
Qed.

(** Some values: the float of 0.1; 0.1 + 0.2; a tie, which goes to the even
    neighbour; and the smallest subnormal number, which is what three
    quarters of it round to. *)
Remark round_binary64_values :
  float_literal (1 # 10) = 3602879701896397 # 36028797018963968 /\
  Float.add (R := binary64) (float_literal (1 # 10)) (float_literal (2 # 10))
    == 1351079888211149 # 4503599627370496 /\
  round_binary64 (inject_Z (2 ^ 53 + 1)) == inject_Z (2 ^ 53) /\
  round_binary64 (inject_Z (2 ^ 53 + 3)) == inject_Z (2 ^ 53 + 4) /\
  round_binary64 (3 # Z.to_pos (2 ^ 1076)) == 1 # Z.to_pos (2 ^ 1074).
Proof. repeat split; vm_compute; reflexivity. Qed.

End Binary64.

(** What follows from the three facts. *)

Section FaithfulRounding.

Context {R : Rounding} {F : Faithful R}.

Local Open Scope Q_scope.

Lemma rnd_eq (x y : Q) : x == y -> rnd x == rnd y.
Proof. intros H. apply Qle_antisym; apply rnd_le; rewrite H; apply Qle_refl. Qed.

Lemma rnd_nonneg (x : Q) : 0 <= x -> 0 <= rnd x.
Proof. intros H. rewrite <- rnd_zero. apply rnd_le, H. Qed.

Lemma rnd_nonpos (x : Q) : x <= 0 -> rnd x <= 0.
Proof. intros H. rewrite <- rnd_zero. apply rnd_le, H. Qed.

Lemma rnd_null (x : Q) : x == 0 -> rnd x == 0.
Proof. intros H. rewrite (rnd_eq x 0 H). apply rnd_zero. Qed.

End FaithfulRounding.

(** ** Arithmetic on the pixel grid *)

Section GridArithmetic.

Local Open Scope Q_scope.

Lemma floor_of_integer (x : Q) (k : Z) : x == inject_Z k -> Qfloor x = k.
Proof. intros H. rewrite H. apply Qfloor_Z. Qed.

Lemma ceiling_of_integer (x : Q) (k : Z) : x == inject_Z k -> Qceiling x = k.
Proof. intros H. rewrite H. apply Qceiling_Z. Qed.

Lemma floor_le_ceiling (x : Q) : (Qfloor x <= Qceiling x)%Z.
Proof. rewrite Zle_Qle. apply Qle_floor_ceiling. Qed.

Lemma below_floor (k : Z) (x : Q) : (k <= Qfloor x)%Z -> inject_Z k <= x.
Proof.
  intros H. apply Qle_trans with (inject_Z (Qfloor x)); [| apply Qfloor_le].
  rewrite <- Zle_Qle. exact H.
Qed.

Lemma above_ceiling (k : Z) (x : Q) : (Qceiling x <= k)%Z -> x <= inject_Z k.
Proof.
  intros H. apply Qle_trans with (inject_Z (Qceiling x)); [apply Qle_ceiling |].
  rewrite <- Zle_Qle. exact H.
Qed.

Lemma floor_within_one (x : Q) : x - inject_Z (Qfloor x) < 1.
Proof.
  pose proof (Qlt_floor x) as H. rewrite inject_Z_plus in H.
  change (inject_Z 1) with 1 in H. lra.
Qed.

Lemma ceiling_within_one (x : Q) : inject_Z (Qceiling x) - x < 1.
Proof.
  pose proof (Qceiling_lt x) as H. unfold Z.sub in H.
  rewrite inject_Z_plus, inject_Z_opp in H. change (inject_Z 1) with 1 in H. lra.
Qed.

Lemma Qinv_neg (x : Q) : x < 0 -> / x < 0.
Proof.
  intros H. assert (P : 0 < / (- x)) by (apply Qinv_lt_0_compat; lra).
  assert (E : / (- x) == - / x) by (field; lra).
  rewrite E in P. lra.
Qed.

Lemma least_of_four (x y u v : Z) :
  least (Z.min (Z.min u v) (Z.min x y)) [x; y; u; v].
Proof.
  split.
  - destruct (Z.min_dec (Z.min u v) (Z.min x y)) as [-> | ->];
      [destruct (Z.min_dec u v) as [-> | ->] | destruct (Z.min_dec x y) as [-> | ->]];
      cbn; auto.
  - repeat constructor; lia.
Qed.

Lemma greatest_of_four (x y u v : Z) :
  greatest (Z.max (Z.max u v) (Z.max x y)) [x; y; u; v].
Proof.
  split.
  - destruct (Z.max_dec (Z.max u v) (Z.max x y)) as [-> | ->];
      [destruct (Z.max_dec u v) as [-> | ->] | destruct (Z.max_dec x y) as [-> | ->]];
      cbn; auto.
  - repeat constructor; lia.
Qed.

(** The envelope of the floor and ceil candidates of two positions holds
    both and is snug around them. *)
Lemma envelope_holds (p q : Q) :
  holds (Z.min (Z.min (Qceiling p) (Qceiling q)) (Z.min (Qfloor p) (Qfloor q)))
        (Z.max (Z.max (Qceiling p) (Qceiling q)) (Z.max (Qfloor p) (Qfloor q))) p q.
Proof.
  unfold holds.
  repeat split; first [apply below_floor; lia | apply above_ceiling; lia].
Qed.

Lemma envelope_snug (p q : Q) :
  snug (Z.min (Z.min (Qceiling p) (Qceiling q)) (Z.min (Qfloor p) (Qfloor q)))
       (Z.max (Z.max (Qceiling p) (Qceiling q)) (Z.max (Qfloor p) (Qfloor q))) p q.
Proof.
  pose proof (floor_le_ceiling p). pose proof (floor_le_ceiling q).
  pose proof (floor_within_one p). pose proof (floor_within_one q).
  pose proof (ceiling_within_one p). pose proof (ceiling_within_one q).
  unfold snug. split.
  - destruct (Z.min_dec (Qfloor p) (Qfloor q)) as [E | E].
    + left. replace (Z.min (Z.min (Qceiling p) (Qceiling q)) (Z.min (Qfloor p) (Qfloor q)))
        with (Qfloor p) by lia. assumption.
    + right. replace (Z.min (Z.min (Qceiling p) (Qceiling q)) (Z.min (Qfloor p) (Qfloor q)))
        with (Qfloor q) by lia. assumption.
  - destruct (Z.max_dec (Qceiling p) (Qceiling q)) as [E | E].
    + left. replace (Z.max (Z.max (Qceiling p) (Qceiling q)) (Z.max (Qfloor p) (Qfloor q)))
        with (Qceiling p) by lia. assumption.
    + right. replace (Z.max (Z.max (Qceiling p) (Qceiling q)) (Z.max (Qfloor p) (Qfloor q)))
        with (Qceiling q) by lia. assumption.
Qed.

(** The envelope of two positions lies inside the envelope of two
    positions that lie around them. *)
Lemma envelope_nested (p p' q' q : Q) :
  p <= p' -> p' <= q' -> q' <= q ->
  (Z.min (Z.min (Qceiling p) (Qceiling q)) (Z.min (Qfloor p) (Qfloor q))
   <= Z.min (Z.min (Qceiling p') (Qceiling q')) (Z.min (Qfloor p') (Qfloor q')))%Z /\
  (Z.max (Z.max (Qceiling p') (Qceiling q')) (Z.max (Qfloor p') (Qfloor q'))
   <= Z.max (Z.max (Qceiling p) (Qceiling q)) (Z.max (Qfloor p) (Qfloor q)))%Z.
Proof.
  intros H1 H2 H3.
  assert (H4 : p <= q') by lra. assert (H5 : p' <= q) by lra.
  pose proof (Qfloor_resp_le _ _ H1) as F1. pose proof (Qfloor_resp_le _ _ H4) as F4.
  pose proof (Qceiling_resp_le _ _ H3) as C3. pose proof (Qceiling_resp_le _ _ H5) as C5.
  pose proof (floor_le_ceiling p') as E1. pose proof (floor_le_ceiling q') as E2.
  split.
  - apply Z.le_trans with (Qfloor p).
    + apply Z.le_trans with (Z.min (Qfloor p) (Qfloor q)); [apply Z.le_min_r | apply Z.le_min_l].
    + repeat apply Z.min_glb; lia.
  - apply Z.le_trans with (Qceiling q).
    + repeat apply Z.max_lub; lia.
    + apply Z.le_trans with (Z.max (Qceiling p) (Qceiling q)); [apply Z.le_max_r | apply Z.le_max_l].
Qed.

End GridArithmetic.

(** ** The pixel window of [crop_to_bbox] *)

Section PixelWindow.

Context {R : Rounding}.

Local Open Scope Q_scope.

(** The window is the outer envelope of the four floor and ceil
    candidates of each axis. *)
Lemma crop_window_envelope (tr inv : Affine.t) (bbox : BoundingBox.t) :
  Affine.invert tr = Ok inv ->
  forall cl rt cr rb,
    Affine.apply inv (BoundingBox.left bbox, BoundingBox.top bbox) = (cl, rt) ->
    Affine.apply inv (BoundingBox.right bbox, BoundingBox.bottom bbox) = (cr, rb) ->
    WorldClimData.crop_window tr bbox =
      Ok (mkWindow
            (Z.min (Z.min (Qceiling rb) (Qceiling rt)) (Z.min (Qfloor rb) (Qfloor rt)))
            (Z.max (Z.max (Qceiling rb) (Qceiling rt)) (Z.max (Qfloor rb) (Qfloor rt)))
            (Z.min (Z.min (Qceiling cl) (Qceiling cr)) (Z.min (Qfloor cl) (Qfloor cr)))
            (Z.max (Z.max (Qceiling cl) (Qceiling cr)) (Z.max (Qfloor cl) (Qfloor cr)))).
Proof.
  intros Hinv cl rt cr rb H1 H2.
  unfold WorldClimData.crop_window, rowcol. rewrite Hinv.
  cbn [rbind combine map]. rewrite H1, H2. reflexivity.
Qed.

Lemma crop_window_degenerate (tr : Affine.t) (bbox : BoundingBox.t) :
  Affine.is_degenerate tr = true ->
  WorldClimData.crop_window tr bbox = Raise TransformNotInvertibleError.
Proof.
  intros H. unfold WorldClimData.crop_window, rowcol, Affine.invert.
  rewrite H. reflexivity.
Qed.

Lemma crop_window_ordered (tr : Affine.t) (bbox : BoundingBox.t) :
  Affine.is_degenerate tr = false ->
  exists w, WorldClimData.crop_window tr bbox = Ok w /\
            (row_start w <= row_stop w)%Z /\ (col_start w <= col_stop w)%Z.
Proof.
  intros Hdeg.
  destruct (Affine.invert tr) as [inv | ex] eqn:Hinv.
  2:{ unfold Affine.invert in Hinv. rewrite Hdeg in Hinv. discriminate. }
  destruct (Affine.apply inv (BoundingBox.left bbox, BoundingBox.top bbox)) as [cl rt] eqn:H1.
  destruct (Affine.apply inv (BoundingBox.right bbox, BoundingBox.bottom bbox)) as [cr rb] eqn:H2.
  eexists. split; [apply (crop_window_envelope tr inv bbox Hinv _ _ _ _ H1 H2) |].
  cbn [row_start row_stop col_start col_stop]. split; lia.
Qed.

Lemma rowcol_run (tr inv : Affine.t) (bbox : BoundingBox.t) (op : Q -> Z) :
  Affine.invert tr = Ok inv ->
  forall cl rt cr rb,
    Affine.apply inv (BoundingBox.left bbox, BoundingBox.top bbox) = (cl, rt) ->
    Affine.apply inv (BoundingBox.right bbox, BoundingBox.bottom bbox) = (cr, rb) ->
    rowcol tr [BoundingBox.left bbox; BoundingBox.right bbox]
              [BoundingBox.top bbox; BoundingBox.bottom bbox] op
    = Ok ([op rt; op rb], [op cl; op cr]).
Proof.
  intros Hinv cl rt cr rb H1 H2. unfold rowcol. rewrite Hinv.
  cbn [rbind combine map]. rewrite H1, H2. reflexivity.
Qed.

(** A window that was computed came from an inverse transform and from the
    positions of the two corners under it. *)
Lemma crop_window_positions (tr : Affine.t) (bbox : BoundingBox.t) (w : Window) :
  WorldClimData.crop_window tr bbox = Ok w ->
  exists inv cl rt cr rb,
    Affine.invert tr = Ok inv /\
    Affine.apply inv (BoundingBox.left bbox, BoundingBox.top bbox) = (cl, rt) /\
    Affine.apply inv (BoundingBox.right bbox, BoundingBox.bottom bbox) = (cr, rb) /\
    w = mkWindow
          (Z.min (Z.min (Qceiling rb) (Qceiling rt)) (Z.min (Qfloor rb) (Qfloor rt)))
          (Z.max (Z.max (Qceiling rb) (Qceiling rt)) (Z.max (Qfloor rb) (Qfloor rt)))
          (Z.min (Z.min (Qceiling cl) (Qceiling cr)) (Z.min (Qfloor cl) (Qfloor cr)))
          (Z.max (Z.max (Qceiling cl) (Qceiling cr)) (Z.max (Qfloor cl) (Qfloor cr))).
Proof.
  intros H. destruct (Affine.invert tr) as [inv | ex] eqn:Hinv.
  2:{ unfold WorldClimData.crop_window, rowcol in H. rewrite Hinv in H. discriminate. }
  destruct (Affine.apply inv (BoundingBox.left bbox, BoundingBox.top bbox)) as [cl rt] eqn:H1.
  destruct (Affine.apply inv (BoundingBox.right bbox, BoundingBox.bottom bbox)) as [cr rb] eqn:H2.
  rewrite (crop_window_envelope tr inv bbox Hinv _ _ _ _ H1 H2) in H.
  injection H as <-. exists inv, cl, rt, cr, rb.
  split; [reflexivity |]. split; [exact H1 |]. split; [exact H2 | reflexivity].
Qed.

End PixelWindow.

(** On a north-up grid, under a faithful rounding, the computed column
    grows with x and the computed row grows as y decreases. *)

Section NorthUp.

Context {R : Rounding} {F : Faithful R}.

Local Open Scope Q_scope.

Lemma invert_north_up (tr inv : Affine.t) :
  north_up tr -> Affine.invert tr = Ok inv ->
  0 <= Affine.a inv /\ Affine.b inv == 0 /\ Affine.d inv == 0 /\ Affine.e inv <= 0.
Proof.
  intros (Hb & Hd & Ha & He) Hinv. unfold Affine.invert in Hinv.
  destruct (Affine.is_degenerate tr) eqn:Hdeg; [discriminate |].
  inversion Hinv; subst inv; clear Hinv.
  cbn [Affine.a Affine.b Affine.d Affine.e].
  unfold Affine.is_degenerate in Hdeg.
  assert (Hne : ~ Affine.determinant tr == 0)
    by (intros E; apply Qeq_eq_bool in E; congruence).
  assert (Hle : Affine.determinant tr <= 0).
  { unfold Affine.determinant, Float.sub, Float.mul. apply rnd_nonpos.
    assert (P : rnd (Affine.a tr * Affine.e tr) <= 0).
    { apply rnd_nonpos. rewrite <- (Qmult_0_r (Affine.a tr)).
      apply Qmult_le_l; [exact Ha | lra]. }
    assert (Z0 : rnd (Affine.b tr * Affine.d tr) == 0)
      by (apply rnd_null; rewrite Hb; ring).
    lra. }
  assert (Hneg : Affine.determinant tr < 0) by lra.
  assert (Hidet : Float.div 1 (Affine.determinant tr) <= 0).
  { unfold Float.div. apply rnd_nonpos.
    pose proof (Qinv_neg _ Hneg) as I. unfold Qdiv. lra. }
  set (idet := Float.div 1 (Affine.determinant tr)) in *.
  unfold Float.mul. repeat split.
  - apply rnd_nonneg.
    assert (E : Affine.e tr * idet == (- Affine.e tr) * (- idet)) by ring.
    rewrite E. apply Qmult_le_0_compat; lra.
  - apply rnd_null. rewrite Hb. ring.
  - apply rnd_null. rewrite Hd. ring.
  - apply rnd_nonpos.
    assert (E : Affine.a tr * idet == - (Affine.a tr * (- idet))) by ring.
    rewrite E. assert (0 <= Affine.a tr * (- idet)) by (apply Qmult_le_0_compat; lra).
    lra.
Qed.

Lemma column_grows (inv : Affine.t) (x x' y y' : Q) :
  0 <= Affine.a inv -> Affine.b inv == 0 -> x <= x' ->
  fst (Affine.apply inv (x, y)) <= fst (Affine.apply inv (x', y')).
Proof.
  intros Ha Hb Hx. unfold Affine.apply, Float.add, Float.mul. cbn [fst].
  apply rnd_le.
  assert (Z0 : rnd (y * Affine.b inv) == 0) by (apply rnd_null; rewrite Hb; ring).
  assert (Z1 : rnd (y' * Affine.b inv) == 0) by (apply rnd_null; rewrite Hb; ring).
  assert (M : rnd (x * Affine.a inv) <= rnd (x' * Affine.a inv))
    by (apply rnd_le, Qmult_le_compat_r; assumption).
  assert (S : rnd (rnd (x * Affine.a inv) + rnd (y * Affine.b inv))
              <= rnd (rnd (x' * Affine.a inv) + rnd (y' * Affine.b inv)))
    by (apply rnd_le; lra).
  lra.
Qed.

Lemma row_grows (inv : Affine.t) (x x' y y' : Q) :
  Affine.d inv == 0 -> Affine.e inv <= 0 -> y' <= y ->
  snd (Affine.apply inv (x, y)) <= snd (Affine.apply inv (x', y')).
Proof.
  intros Hd He Hy. unfold Affine.apply, Float.add, Float.mul. cbn [snd].
  apply rnd_le.
  assert (Z0 : rnd (x * Affine.d inv) == 0) by (apply rnd_null; rewrite Hd; ring).
  assert (Z1 : rnd (x' * Affine.d inv) == 0) by (apply rnd_null; rewrite Hd; ring).
  assert (M : rnd (y * Affine.e inv) <= rnd (y' * Affine.e inv)).
  { apply rnd_le.
    assert (E : y' * Affine.e inv - y * Affine.e inv == (y - y') * (- Affine.e inv)) by ring.
    assert (0 <= (y - y') * (- Affine.e inv)) by (apply Qmult_le_0_compat; lra).
    lra. }
  assert (S : rnd (rnd (x * Affine.d inv) + rnd (y * Affine.e inv))
              <= rnd (rnd (x' * Affine.d inv) + rnd (y' * Affine.e inv)))
    by (apply rnd_le; lra).
  lra.
Qed.

End NorthUp.

(** ** Runs of the monad *)

Section MonadRuns.

Context {S : Type}.

Lemma bind_ok {A B : Type} (m : M S A) (k : A -> M S B) (s s' : S) (y : B) :
  bind m k s = (Ok y, s') ->
  exists x s1, m s = (Ok x, s1) /\ k x s1 = (Ok y, s').
Proof.
  unfold bind. destruct (m s) as [[x | ex] s1]; intros H.
  - exists x, s1. split; [reflexivity | exact H].
  - discriminate.
Qed.

Lemma lift_ok {A : Type} (r : result A) (s s' : S) (x : A) :
  lift r s = (Ok x, s') -> r = Ok x /\ s' = s.
Proof. unfold lift. intros H. inversion H. split; reflexivity. Qed.

Lemma ret_ok {A : Type} (x y : A) (s s' : S) :
  ret x s = (Ok y, s') -> y = x /\ s' = s.
Proof. unfold ret. intros H. inversion H. split; reflexivity. Qed.

Lemma gets_ok {A : Type} (f : S -> A) (s s' : S) (x : A) :
  gets f s = (Ok x, s') -> x = f s /\ s' = s.
Proof. unfold gets. intros H. inversion H. split; reflexivity. Qed.

Lemma rbind_ok {A B : Type} (r : result A) (k : A -> result B) (y : B) :
  rbind r k = Ok y -> exists x, r = Ok x /\ k x = Ok y.
Proof.
  destruct r as [x | ex]; cbn; intros H; [exists x; split; [reflexivity | exact H] | discriminate].
Qed.

Lemma rmap_length {A B : Type} (f : A -> result B) (xs : list A) (ys : list B) :
  rmap f xs = Ok ys -> length ys = length xs.
Proof.
  revert ys. induction xs as [| x xs IH]; cbn; intros ys H.
  - inversion H. reflexivity.
  - destruct (f x) as [y | ex]; cbn in H; [| discriminate].
    destruct (rmap f xs) as [ys' | ex]; cbn in H; [| discriminate].
    inversion H. cbn. rewrite (IH ys' eq_refl). reflexivity.
Qed.

Lemma rmap_nth {A B : Type} (f : A -> result B) (xs : list A) (ys : list B) :
  rmap f xs = Ok ys ->
  forall i x, nth_error xs i = Some x ->
              exists y, nth_error ys i = Some y /\ f x = Ok y.
Proof.
  revert ys. induction xs as [| x0 xs IH]; cbn; intros ys H i x Hi.
  - destruct i; discriminate.
  - destruct (f x0) as [y0 | ex] eqn:E0; cbn in H; [| discriminate].
    destruct (rmap f xs) as [ys' | ex]; cbn in H; [| discriminate].
    inversion H; subst ys. destruct i as [| i]; cbn in Hi |- *.
    + inversion Hi; subst x. exists y0. split; [reflexivity | exact E0].
    + apply (IH ys' eq_refl i x Hi).
Qed.

Lemma rmap_Forall {A B : Type} (f : A -> result B) (P : B -> Prop)
      (xs : list A) (ys : list B) :
  (forall x y, f x = Ok y -> P y) -> rmap f xs = Ok ys -> Forall P ys.
Proof.
  intros HP. revert ys. induction xs as [| x xs IH]; cbn; intros ys H.
  - inversion H. constructor.
  - destruct (f x) as [y | ex] eqn:E; cbn in H; [| discriminate].
    destruct (rmap f xs) as [ys' | ex]; cbn in H; [| discriminate].
    inversion H. constructor; [apply (HP x y E) | apply IH; reflexivity].
Qed.

Lemma rmap_rmap {A B C : Type} (f : A -> result B) (g : B -> result C)
      (xs : list A) (ys : list B) :
  rmap f xs = Ok ys ->
  rmap g ys = rmap (fun x => rbind (f x) g) xs.
Proof.
  revert ys. induction xs as [| x xs IH]; cbn; intros ys H.
  - inversion H. reflexivity.
  - destruct (f x) as [y | ex]; cbn in H; [| discriminate].
    destruct (rmap f xs) as [ys' | ex]; cbn in H; [| discriminate].
    inversion H. cbn. rewrite (IH ys' eq_refl). reflexivity.
Qed.

Lemma rmap_split {A B C : Type} (f : A -> result B) (g : B -> result C)
      (xs : list A) (zs : list C) :
  rmap (fun x => rbind (f x) g) xs = Ok zs ->
  exists ys, rmap f xs = Ok ys /\ rmap g ys = Ok zs.
Proof.
  revert zs. induction xs as [| x xs IH]; cbn; intros zs H.
  - inversion H. exists []. split; reflexivity.
  - destruct (f x) as [y | ex]; cbn in H; [| discriminate].
    destruct (g y) as [z | ex] eqn:Ez; cbn in H; [| discriminate].
    destruct (rmap (fun x0 => rbind (f x0) g) xs) as [zs' | ex]; cbn in H; [| discriminate].
    destruct (IH zs' eq_refl) as (ys & Hys & Hzs).
    exists (y :: ys). cbn. rewrite Hys, Ez, Hzs. cbn. split; [reflexivity | exact H].
Qed.

End MonadRuns.

(** ** Runs of the WorldClim methods *)

Section MethodRuns.

Context {R : Rounding} {RIO : Rasterio} {UTILS : Utils}.

Import WorldClimData.

Lemma mapM_pure {A B : Type} (f : A -> M state B) (g : A -> result B) (s : state) :
  (forall x, f x s = (g x, s)) ->
  forall xs, mapM f xs s = (rmap g xs, s).
Proof.
  intros Hf. induction xs as [| x xs IH]; cbn; [reflexivity |].
  unfold bind. rewrite Hf. destruct (g x) as [y | ex]; cbn; [| reflexivity].
  rewrite IH. destruct (rmap g xs); reflexivity.
Qed.

Lemma mapM_reader {A B : Type} (f : A -> M state B) (g : t -> A -> result B) :
  (forall x s, fst (f x s) = g (this s) x /\ this (snd (f x s)) = this s) ->
  forall xs s, fst (mapM f xs s) = rmap (g (this s)) xs /\
               this (snd (mapM f xs s)) = this s.
Proof.
  intros Hf. induction xs as [| x xs IH]; intros s; cbn; [split; reflexivity |].
  unfold bind. destruct (Hf x s) as [Hv Hs].
  destruct (f x s) as [[y | ex] s1]; cbn in Hv, Hs; rewrite <- Hv; cbn.
  - destruct (IH s1) as [Hv' Hs']. rewrite Hs in Hv'.
    destruct (mapM f xs s1) as [[ys | ex] s2]; cbn in Hv', Hs' |- *;
      rewrite <- Hv'; cbn; split; congruence.
  - split; [reflexivity | exact Hs].
Qed.

Lemma crop_to_bbox_run (imfile : string) (bbox : BoundingBox.t) (s : state) :
  crop_to_bbox imfile bbox s =
    match crop_window (transform (this s)) bbox with
    | Raise ex => (Raise ex, s)
    | Ok w =>
        let printed :=
          trace s ++ [EvPrint (col_start w) (col_stop w) (row_start w) (row_stop w)] in
        match rio_open imfile with
        | Raise ex => (Raise ex, mkState (this s) (printed ++ [EvOpen imfile]))
        | Ok ds =>
            (ds_read ds w,
             mkState (this s) ((printed ++ [EvOpen imfile]) ++ [EvRead imfile w]))
        end
    end.
Proof.
  destruct s as [self tr].
  unfold crop_to_bbox, bind, gets, lift, io, open_dataset, read_window, emit, modify, ret.
  cbn [this trace fst snd].
  destruct (crop_window (transform self) bbox) as [w | ex]; [| reflexivity].
  cbn. destruct (rio_open imfile) as [ds | ex]; [| reflexivity].
  cbn. destruct (ds_read ds w); reflexivity.
Qed.

Lemma get_var_name_run (var : WorldClimVar.t) (s : state) :
  get_var_name var s = (var_name (wcres (this s)) var, s).
Proof. reflexivity. Qed.

Lemma get_file_path_run (var : WorldClimVar.t) (s : state) :
  get_file_path var s =
    (file_path (wcdir (this s)) (wcprefix (this s)) (wcres (this s)) var, s).
Proof.
  unfold get_file_path, bind, gets, file_path. rewrite get_var_name_run.
  destruct (var_name (wcres (this s)) var); reflexivity.
Qed.

(** The value of a crop, read off the run. *)
Lemma crop_to_bbox_value (imfile : string) (bbox : BoundingBox.t) (s : state) :
  fst (crop_to_bbox imfile bbox s) =
    rbind (crop_window (transform (this s)) bbox) (fun w =>
    rbind (rio_open imfile) (fun ds => ds_read ds w)) /\
  this (snd (crop_to_bbox imfile bbox s)) = this s.
Proof.
  rewrite crop_to_bbox_run.
  destruct (crop_window (transform (this s)) bbox) as [w | ex]; cbn; [| split; reflexivity].
  destruct (rio_open imfile) as [ds | ex]; cbn; split; reflexivity.
Qed.

Lemma cropped_layer_eq (self : t) (bbox : BoundingBox.t) (var : WorldClimVar.t) :
  cropped_layer self bbox var =
    rbind (file_path (wcdir self) (wcprefix self) (wcres self) var) (fun wc_file =>
    rbind (rbind (crop_window (transform self) bbox) (fun w =>
           rbind (rio_open wc_file) (fun ds => ds_read ds w)))
          (index_band 0)).
Proof.
  unfold cropped_layer, bind. rewrite get_file_path_run. cbn [this].
  destruct (file_path (wcdir self) (wcprefix self) (wcres self) var) as [wc_file | ex];
    cbn [rbind fst]; [| reflexivity].
  destruct (crop_to_bbox_value wc_file bbox (mkState self [])) as [Hv _].
  cbn [this] in Hv. rewrite <- Hv.
  destruct (crop_to_bbox wc_file bbox (mkState self [])) as [[image | ex] s1];
    reflexivity.
Qed.

Lemma layer_run (bbox : BoundingBox.t) (wc_file : string) (s : state) :
  fst ((image <- crop_to_bbox wc_file bbox ;; lift (index_band 0 image)) s) =
    rbind (rbind (crop_window (transform (this s)) bbox) (fun w =>
           rbind (rio_open wc_file) (fun ds => ds_read ds w)))
          (index_band 0) /\
  this (snd ((image <- crop_to_bbox wc_file bbox ;; lift (index_band 0 image)) s)) = this s.
Proof.
  unfold bind. destruct (crop_to_bbox_value wc_file bbox s) as [Hv Hs].
  rewrite <- Hv.
  destruct (crop_to_bbox wc_file bbox s) as [[image | ex] s1]; cbn in Hs |- *;
    split; solve [reflexivity | exact Hs].
Qed.

(** What a successful [get_wc_for_bbox] went through. *)
Lemma get_wc_for_bbox_ok (bbox : BoundingBox.t) (wc_vars : option (list WorldClimVar.t))
      (s s' : state) (stacked : ndarray) (tr : Affine.t) :
  get_wc_for_bbox bbox wc_vars s = (Ok (stacked, tr), s') ->
  exists wcvars,
    rmap (cropped_layer (this s) bbox)
         (match wc_vars with None => WorldClimVarAll | Some l => l end) = Ok wcvars /\
    np_stack wcvars = Ok stacked /\
    tr = Affine.Affine (Affine.a (transform (this s))) (Affine.b (transform (this s)))
                       (BoundingBox.left bbox)
                       (Affine.d (transform (this s))) (Affine.e (transform (this s)))
                       (BoundingBox.top bbox) /\
    this s' = this s.
Proof.
  unfold get_wc_for_bbox.
  set (vars := match wc_vars with None => WorldClimVarAll | Some l => l end).
  intros H.
  apply bind_ok in H. destruct H as (files & s1 & Hfiles & H).
  rewrite (mapM_pure get_file_path
             (file_path (wcdir (this s)) (wcprefix (this s)) (wcres (this s))) s
             (fun x => get_file_path_run x s)) in Hfiles.
  inversion Hfiles as [[Hf Hs1]]. subst s1. clear Hfiles.
  apply bind_ok in H. destruct H as (wcvars & s2 & Hlayers & H).
  destruct (mapM_reader
              (fun wc_file => image <- crop_to_bbox wc_file bbox ;;
                              lift (index_band 0 image))
              (fun self wc_file =>
                 rbind (rbind (crop_window (transform self) bbox) (fun w =>
                        rbind (rio_open wc_file) (fun ds => ds_read ds w)))
                       (index_band 0))
              (fun x s0 => layer_run bbox x s0) files s) as [Hv Hs2].
  rewrite Hlayers in Hv, Hs2. cbn [fst snd] in Hv, Hs2.
  apply bind_ok in H. destruct H as (self & s3 & Hself & H).
  apply gets_ok in Hself. destruct Hself as [-> ->].
  apply bind_ok in H. destruct H as (st & s4 & Hstack & H).
  apply lift_ok in Hstack. destruct Hstack as [Hstack ->].
  apply ret_ok in H. destruct H as [H ->]. inversion H; subst st tr. clear H.
  exists wcvars. rewrite Hs2. repeat split; try assumption.
  rewrite Hv. rewrite (rmap_rmap _ _ _ _ Hf).
  clear. induction vars as [| v vars IH]; cbn; [reflexivity |].
  rewrite cropped_layer_eq, IH. reflexivity.
Qed.

(** [get_wc_for_bbox] returns as soon as every variable can be cropped and
    the crops can be stacked. *)
Lemma get_wc_for_bbox_returns (bbox : BoundingBox.t)
      (wc_vars : option (list WorldClimVar.t)) (s : state)
      (wcvars : list ndarray) (stacked : ndarray) :
  rmap (cropped_layer (this s) bbox)
       (match wc_vars with None => WorldClimVarAll | Some l => l end) = Ok wcvars ->
  np_stack wcvars = Ok stacked ->
  exists s',
    get_wc_for_bbox bbox wc_vars s =
      (Ok (stacked,
           Affine.Affine (Affine.a (transform (this s))) (Affine.b (transform (this s)))
                         (BoundingBox.left bbox)
                         (Affine.d (transform (this s))) (Affine.e (transform (this s)))
                         (BoundingBox.top bbox)),
       s').
Proof.
  unfold get_wc_for_bbox.
  set (vars := match wc_vars with None => WorldClimVarAll | Some l => l end).
  intros Hlayers Hstack.
  assert (Hsplit : rmap (fun v =>
            rbind (file_path (wcdir (this s)) (wcprefix (this s)) (wcres (this s)) v)
                  (fun wc_file =>
                     rbind (rbind (crop_window (transform (this s)) bbox) (fun w =>
                            rbind (rio_open wc_file) (fun ds => ds_read ds w)))
                           (index_band 0))) vars = Ok wcvars).
  { rewrite <- Hlayers. clear. induction vars as [| v vars IH]; cbn; [reflexivity |].
    rewrite cropped_layer_eq, IH. reflexivity. }
  apply rmap_split in Hsplit. destruct Hsplit as (files & Hfiles & Hcrops).
  unfold bind at 1.
  rewrite (mapM_pure get_file_path
             (file_path (wcdir (this s)) (wcprefix (this s)) (wcres (this s))) s
             (fun x => get_file_path_run x s)), Hfiles.
  destruct (mapM_reader
              (fun wc_file => image <- crop_to_bbox wc_file bbox ;;
                              lift (index_band 0 image))
              (fun self wc_file =>
                 rbind (rbind (crop_window (transform self) bbox) (fun w =>
                        rbind (rio_open wc_file) (fun ds => ds_read ds w)))
                       (index_band 0))
              (fun x s0 => layer_run bbox x s0) files s) as [Hv Hs2].
  rewrite Hcrops in Hv. unfold bind at 1.
  destruct (mapM _ files s) as [[got | ex] s2]; cbn [fst snd] in Hv, Hs2; [| discriminate].
  inversion Hv; subst got. exists s2.
  unfold bind, gets, lift, ret. rewrite Hstack, Hs2. reflexivity.
Qed.

End MethodRuns.

(** ** Arrays *)

Section ArrayFacts.

Lemma concat_block {A : Type} (n : nat) (ls : list (list A)) :
  Forall (fun l => length l = n) ls ->
  forall i l, nth_error ls i = Some l ->
              firstn n (skipn (i * n) (concat ls)) = l.
Proof.
  induction 1 as [| l0 ls Hl0 Hls IH]; intros i l Hi.
  - destruct i; discriminate.
  - destruct i as [| i]; cbn in Hi |- *.
    + inversion Hi; subst l0.
      rewrite firstn_app, Hl0, Nat.sub_diag, <- Hl0, firstn_all. cbn.
      apply app_nil_r.
    + rewrite skipn_app, Hl0.
      replace (n + i * n - n)%nat with (i * n)%nat by lia.
      rewrite skipn_all2 by lia. cbn. apply IH, Hi.
Qed.

Lemma shape_eqb_eq (s1 s2 : list Z) : shape_eqb s1 s2 = true -> s1 = s2.
Proof. unfold shape_eqb. destruct (list_eq_dec Z.eq_dec s1 s2); [trivial | discriminate]. Qed.

Lemma np_stack_ok (arrays : list ndarray) (stacked : ndarray) :
  np_stack arrays = Ok stacked ->
  exists sh,
    shape stacked = Z.of_nat (length arrays) :: sh /\
    flat stacked = concat (map flat arrays) /\
    Forall (fun arr => shape arr = sh) arrays.
Proof.
  unfold np_stack. destruct arrays as [| a0 rest]; [discriminate |].
  destruct (forallb (fun arr => shape_eqb (shape arr) (shape a0)) rest) eqn:E;
    [| discriminate].
  intros H. inversion H; subst stacked. exists (shape a0). cbn [shape flat].
  repeat split. constructor; [reflexivity |].
  rewrite forallb_forall in E. apply Forall_forall. intros arr Harr.
  apply shape_eqb_eq, E, Harr.
Qed.

Lemma index_band_well_formed (arr layer : ndarray) :
  well_formed arr -> index_band 0 arr = Ok layer -> well_formed layer.
Proof.
  unfold well_formed, index_band, index_axis0. intros Hwf.
  destruct (3 <=? Z.of_nat (length (shape arr))); [| discriminate].
  destruct (shape arr) as [| n rest] eqn:Hsh; [discriminate |].
  destruct ((0 <=? 0) && (0 <? n)) eqn:Hn; [| discriminate].
  intros H. inversion H; subst layer. cbn [shape flat].
  apply andb_true_iff in Hn. destruct Hn as [_ Hn]. apply Z.ltb_lt in Hn.
  cbn [size_of fold_right] in Hwf. fold (size_of rest) in Hwf.
  cbn [Z.to_nat Nat.mul skipn].
  rewrite length_firstn, Hwf. apply Nat.min_l.
  destruct (Z.le_gt_cases 0 (size_of rest)) as [Hpos | Hneg]; [nia | lia].
Qed.

(** Indexing a stack gives back the array stacked at that place. *)
Lemma np_stack_layer (arrays : list ndarray) (stacked : ndarray) :
  Forall well_formed arrays ->
  np_stack arrays = Ok stacked ->
  forall i layer, nth_error arrays i = Some layer ->
                  index_axis0 (Z.of_nat i) stacked = Ok layer.
Proof.
  intros Hwf Hst i layer Hi.
  destruct (np_stack_ok _ _ Hst) as (sh & Hshape & Hflat & Hsame).
  assert (Hlt : (i < length arrays)%nat) by (apply nth_error_Some; congruence).
  unfold index_axis0. rewrite Hshape, Hflat.
  replace ((0 <=? Z.of_nat i) && (Z.of_nat i <? Z.of_nat (length arrays))) with true
    by (symmetry; apply andb_true_iff; split; [apply Z.leb_le | apply Z.ltb_lt]; lia).
  rewrite Nat2Z.id.
  rewrite (concat_block (Z.to_nat (size_of sh)) (map flat arrays)) with (l := flat layer).
  - assert (Hl : shape layer = sh).
    { rewrite Forall_forall in Hsame. apply Hsame. eapply nth_error_In, Hi. }
    destruct layer as [lsh lfl]. cbn in Hl |- *. subst lsh. reflexivity.
  - apply Forall_forall. intros l Hl. apply in_map_iff in Hl.
    destruct Hl as (arr & <- & Harr).
    rewrite Forall_forall in Hwf, Hsame.
    rewrite (Hwf arr Harr). rewrite (Hsame arr Harr). reflexivity.
  - rewrite nth_error_map, Hi. reflexivity.
Qed.

End ArrayFacts.

(** ** The claims on the pixel window *)

Section WindowClaims.

Context {R : Rounding} {RIO : Rasterio} {UTILS : Utils}.

Local Open Scope Q_scope.

(** C1. Whenever [crop_to_bbox] computes a window, the window is the
    outer envelope of the floor and ceil candidates of [rowcol] (least
    candidate for the starts, greatest for the stops), the candidates being
    the floor and the ceil of the pixel positions that the inverted
    transform computes for the two corners of the box. The window holds
    those computed positions and reaches less than one pixel beyond the
    outermost of them; and when the computed positions are whole numbers,
    the floor and ceil candidates are the same and the window is exactly the
    span between the positions. *)
Theorem crop_window_encloses_bbox (tr : Affine.t) (bbox : BoundingBox.t) (w : Window) :
  WorldClimData.crop_window tr bbox = Ok w ->
  exists inv cl rt cr rb,
    Affine.invert tr = Ok inv /\
    Affine.apply inv (BoundingBox.left bbox, BoundingBox.top bbox) = (cl, rt) /\
    Affine.apply inv (BoundingBox.right bbox, BoundingBox.bottom bbox) = (cr, rb) /\
    rowcol tr [BoundingBox.left bbox; BoundingBox.right bbox]
              [BoundingBox.top bbox; BoundingBox.bottom bbox] Qfloor
      = Ok ([Qfloor rt; Qfloor rb], [Qfloor cl; Qfloor cr]) /\
    rowcol tr [BoundingBox.left bbox; BoundingBox.right bbox]
              [BoundingBox.top bbox; BoundingBox.bottom bbox] Qceiling
      = Ok ([Qceiling rt; Qceiling rb], [Qceiling cl; Qceiling cr]) /\
    least (col_start w) [Qfloor cl; Qfloor cr; Qceiling cl; Qceiling cr] /\
    greatest (col_stop w) [Qfloor cl; Qfloor cr; Qceiling cl; Qceiling cr] /\
    least (row_start w) [Qfloor rt; Qfloor rb; Qceiling rt; Qceiling rb] /\
    greatest (row_stop w) [Qfloor rt; Qfloor rb; Qceiling rt; Qceiling rb] /\
    holds (col_start w) (col_stop w) cl cr /\
    holds (row_start w) (row_stop w) rt rb /\
    snug (col_start w) (col_stop w) cl cr /\
    snug (row_start w) (row_stop w) rt rb /\
    (forall kl kr kt kb : Z,
       cl == inject_Z kl -> cr == inject_Z kr ->
       rt == inject_Z kt -> rb == inject_Z kb ->
       [Qfloor rt; Qfloor rb] = [Qceiling rt; Qceiling rb] /\
       [Qfloor cl; Qfloor cr] = [Qceiling cl; Qceiling cr] /\
       w = mkWindow (Z.min kt kb) (Z.max kt kb) (Z.min kl kr) (Z.max kl kr)).
Proof.
  intros Hw.
  destruct (crop_window_positions tr bbox w Hw) as (inv & cl & rt & cr & rb & Hinv & H1 & H2 & ->).
  exists inv, cl, rt, cr, rb.
  split; [exact Hinv |]. split; [exact H1 |]. split; [exact H2 |].
  split; [apply (rowcol_run tr inv bbox Qfloor Hinv cl rt cr rb H1 H2) |].
  split; [apply (rowcol_run tr inv bbox Qceiling Hinv cl rt cr rb H1 H2) |].
  cbn [row_start row_stop col_start col_stop].
  split; [apply least_of_four |]. split; [apply greatest_of_four |].
  split.
  { replace (Z.min (Z.min (Qceiling rb) (Qceiling rt)) (Z.min (Qfloor rb) (Qfloor rt)))
      with (Z.min (Z.min (Qceiling rt) (Qceiling rb)) (Z.min (Qfloor rt) (Qfloor rb)))
      by lia.
    apply least_of_four. }
  split.
  { replace (Z.max (Z.max (Qceiling rb) (Qceiling rt)) (Z.max (Qfloor rb) (Qfloor rt)))
      with (Z.max (Z.max (Qceiling rt) (Qceiling rb)) (Z.max (Qfloor rt) (Qfloor rb)))
      by lia.
    apply greatest_of_four. }
  split; [apply envelope_holds |].
  split.
  { replace (Z.min (Z.min (Qceiling rb) (Qceiling rt)) (Z.min (Qfloor rb) (Qfloor rt)))
      with (Z.min (Z.min (Qceiling rt) (Qceiling rb)) (Z.min (Qfloor rt) (Qfloor rb)))
      by lia.
    replace (Z.max (Z.max (Qceiling rb) (Qceiling rt)) (Z.max (Qfloor rb) (Qfloor rt)))
      with (Z.max (Z.max (Qceiling rt) (Qceiling rb)) (Z.max (Qfloor rt) (Qfloor rb)))
      by lia.
    apply envelope_holds. }
  split; [apply envelope_snug |].
  split.
  { replace (Z.min (Z.min (Qceiling rb) (Qceiling rt)) (Z.min (Qfloor rb) (Qfloor rt)))
      with (Z.min (Z.min (Qceiling rt) (Qceiling rb)) (Z.min (Qfloor rt) (Qfloor rb)))
      by lia.
    replace (Z.max (Z.max (Qceiling rb) (Qceiling rt)) (Z.max (Qfloor rb) (Qfloor rt)))
      with (Z.max (Z.max (Qceiling rt) (Qceiling rb)) (Z.max (Qfloor rt) (Qfloor rb)))
      by lia.
    apply envelope_snug. }
  intros kl kr kt kb El Er Et Eb.
  rewrite (floor_of_integer _ _ El), (ceiling_of_integer _ _ El),
          (floor_of_integer _ _ Er), (ceiling_of_integer _ _ Er),
          (floor_of_integer _ _ Et), (ceiling_of_integer _ _ Et),
          (floor_of_integer _ _ Eb), (ceiling_of_integer _ _ Eb).
  split; [reflexivity |]. split; [reflexivity |].
  f_equal; lia.
Qed.

End WindowClaims.

(** On the grid of three units the four edges of the box lie on pixel
    boundaries, at columns 2 and 4 and rows 2 and 4; the positions computed
    for them are the floats next below 2 and next below 4. On the grid of a
    quarter unit the computed positions are whole, and the window is the
    span between them. *)
Lemma crop_window_encloses_bbox_witness :
  (exists inv cl rt cr rb,
     Affine.invert (R := binary64) Demo.coarse_grid = Ok inv /\
     Affine.apply (R := binary64) inv (7, -7)%Q = (cl, rt) /\
     Affine.apply (R := binary64) inv (13, -13)%Q = (cr, rb) /\
     WorldClimData.crop_window (R := binary64) Demo.coarse_grid Demo.box_aligned
       = Ok (mkWindow 1 4 1 4) /\
     holds 1 4 cl cr /\ holds 1 4 rt rb /\ snug 1 4 cl cr /\ snug 1 4 rt rb /\
     (cl < 2)%Q /\ (cr < 4)%Q /\ (rt < 2)%Q /\ (rb < 4)%Q) /\
  WorldClimData.crop_window (R := binary64) Demo.quarter_grid Demo.box_quarters
    = Ok (mkWindow 4 8 4 12).
Proof.
  split.
  - assert (Hw : WorldClimData.crop_window (R := binary64) Demo.coarse_grid Demo.box_aligned
                 = Ok (mkWindow 1 4 1 4)) by (vm_compute; reflexivity).
    destruct (crop_window_encloses_bbox (R := binary64) _ _ _ Hw)
      as (inv & cl & rt & cr & rb & Hinv & H1 & H2 & _ & _ & _ & _ & _ & _
          & Hc & Hr & Sc & Sr & _).
    exists inv, cl, rt, cr, rb.
    cbn [col_start col_stop row_start row_stop] in Hc, Hr, Sc, Sr.
    split; [exact Hinv |]. split; [exact H1 |]. split; [exact H2 |].
    split; [exact Hw |]. split; [exact Hc |]. split; [exact Hr |].
    split; [exact Sc |]. split; [exact Sr |].
    vm_compute in Hinv. injection Hinv as <-.
    vm_compute in H1. vm_compute in H2.
    injection H1 as <- <-. injection H2 as <- <-.
    repeat split; reflexivity.
  - destruct (WorldClimData.crop_window (R := binary64) Demo.quarter_grid Demo.box_quarters)
      as [w | ex] eqn:Hw.
    2:{ vm_compute in Hw. discriminate. }
    destruct (crop_window_encloses_bbox (R := binary64) _ _ _ Hw)
      as (inv & cl & rt & cr & rb & Hinv & H1 & H2 & _ & _ & _ & _ & _ & _
          & _ & _ & _ & _ & Hwhole).
    vm_compute in Hinv. injection Hinv as <-.
    vm_compute in H1. vm_compute in H2.
    injection H1 as <- <-. injection H2 as <- <-.
    destruct (Hwhole 4 12 4 8) as (_ & _ & ->); reflexivity.
Defined.

(** In exact terms the enclosure does not hold of the code. For the box on
    pixel boundaries above, the floor and the ceil candidates differ and the
    window is one whole pixel wider than the box on the left and at the top.
    For a box whose left edge is the float next below a pixel boundary, the
    window starts at that boundary and leaves the edge outside. *)
Lemma crop_window_aligned_box_overshoots :
  on_pixel_grid Demo.coarse_grid Demo.box_aligned /\
  north_up Demo.coarse_grid /\ ordered Demo.box_aligned /\
  rowcol (R := binary64) Demo.coarse_grid [7; 13]%Q [-7; -13]%Q Qfloor
    = Ok ([1; 3], [1; 3]) /\
  rowcol (R := binary64) Demo.coarse_grid [7; 13]%Q [-7; -13]%Q Qceiling
    = Ok ([2; 4], [2; 4]) /\
  WorldClimData.crop_window (R := binary64) Demo.coarse_grid Demo.box_aligned
    = Ok (mkWindow 1 4 1 4) /\
  ~ same_box (window_bounds (R := binary64) Demo.coarse_grid (mkWindow 1 4 1 4))
             Demo.box_aligned /\
  (BoundingBox.left Demo.box_aligned
   - BoundingBox.left (window_bounds (R := binary64) Demo.coarse_grid (mkWindow 1 4 1 4))
   == Affine.a Demo.coarse_grid)%Q /\
  WorldClimData.crop_window (R := binary64) Demo.degree3_grid Demo.box_near_boundary
    = Ok (mkWindow 0 4 18 27) /\
  ~ covers (window_bounds (R := binary64) Demo.degree3_grid (mkWindow 0 4 18 27))
           Demo.box_near_boundary.
Proof.
  split.
  { exists 2%Z, 4%Z, 2%Z, 4%Z. repeat split; reflexivity. }
  split; [repeat split; reflexivity |].
  split; [split; vm_compute; discriminate |].
  split; [vm_compute; reflexivity |].
  split; [vm_compute; reflexivity |].
  split; [vm_compute; reflexivity |].
  split.
  { intros (Hl & _). vm_compute in Hl. discriminate. }
  split; [vm_compute; reflexivity |].
  split; [vm_compute; reflexivity |].
  intros (Hl & _). vm_compute in Hl. apply Hl. reflexivity.
Qed.

Section WindowOrder.

Context {R : Rounding} {RIO : Rasterio} {UTILS : Utils}.

Local Open Scope Q_scope.

(** C6. Whenever the transform can be inverted, [crop_to_bbox] computes a
    window with row_start <= row_stop and col_start <= col_stop, whatever the
    bounding box, and that window is the one it reads. *)
Theorem crop_to_bbox_window_well_ordered
        (imfile : string) (bbox : BoundingBox.t) (s : WorldClimData.state) :
  Affine.is_degenerate (WorldClimData.transform (WorldClimData.this s)) = false ->
  exists w,
    WorldClimData.crop_window (WorldClimData.transform (WorldClimData.this s)) bbox = Ok w /\
    (row_start w <= row_stop w)%Z /\ (col_start w <= col_stop w)%Z /\
    forall ds, rio_open imfile = Ok ds ->
      WorldClimData.crop_to_bbox imfile bbox s =
        (ds_read ds w,
         WorldClimData.mkState (WorldClimData.this s)
           (WorldClimData.trace s ++
            [EvPrint (col_start w) (col_stop w) (row_start w) (row_stop w);
             EvOpen imfile; EvRead imfile w])).
Proof.
  intros Hdeg.
  destruct (crop_window_ordered _ bbox Hdeg) as (w & Hw & Hrow & Hcol).
  exists w. repeat split; try assumption.
  intros ds Hds. rewrite crop_to_bbox_run, Hw, Hds. cbn zeta.
  rewrite <- !app_assoc. reflexivity.
Qed.

End WindowOrder.

Lemma crop_to_bbox_window_well_ordered_witness :
  exists w,
    WorldClimData.crop_window (R := binary64) (WorldClimData.transform Demo.self) Demo.box_off_grid = Ok w /\
    (row_start w <= row_stop w)%Z /\ (col_start w <= col_stop w)%Z /\
    fst (WorldClimData.crop_to_bbox (R := binary64) (RIO := Demo.rasterio)
           "/wc/wc2.0_30s_tavg_08.tif" Demo.box_off_grid Demo.start)
      = ds_read (Rasterio := Demo.rasterio)
                (Demo.checksum "/wc/wc2.0_30s_tavg_08.tif") w.
Proof.
  assert (Hdeg : Affine.is_degenerate (R := binary64)
                   (WorldClimData.transform (WorldClimData.this Demo.start)) = false)
    by reflexivity.
  destruct (crop_to_bbox_window_well_ordered (R := binary64) (RIO := Demo.rasterio)
              "/wc/wc2.0_30s_tavg_08.tif" Demo.box_off_grid Demo.start Hdeg)
    as (w & Hw & Hrow & Hcol & Hrun).
  exists w. repeat split; try assumption.
  rewrite (Hrun (Demo.checksum "/wc/wc2.0_30s_tavg_08.tif") eq_refl). reflexivity.
Defined.

(** ** The claims on the stack of [get_wc_for_bbox] *)

Section StackClaims.

Context {R : Rounding} {RIO : Rasterio} {UTILS : Utils}.

Import WorldClimData.

Local Open Scope Q_scope.

Lemma cropped_layer_well_formed (self : t) (bbox : BoundingBox.t)
      (var : WorldClimVar.t) (layer : ndarray) :
  reads_well_formed -> cropped_layer self bbox var = Ok layer -> well_formed layer.
Proof.
  intros Hwf H. rewrite cropped_layer_eq in H.
  apply rbind_ok in H. destruct H as (wc_file & _ & H).
  apply rbind_ok in H. destruct H as (image & H & Hband).
  apply rbind_ok in H. destruct H as (w & _ & H).
  apply rbind_ok in H. destruct H as (ds & Hopen & Hread).
  apply (index_band_well_formed image layer); [| exact Hband].
  apply (Hwf wc_file ds w image Hopen Hread).
Qed.

(** C3. The transform returned by [get_wc_for_bbox] has the pixel-size
    coefficients a, b, d, e of the catalog's transform and the requested
    box's own left and top as origin (c, f), whatever window was read. *)
Theorem get_wc_for_bbox_transform
        (bbox : BoundingBox.t) (wc_vars : option (list WorldClimVar.t))
        (s s' : state) (stacked : ndarray) (tr : Affine.t) :
  get_wc_for_bbox bbox wc_vars s = (Ok (stacked, tr), s') ->
  Affine.a tr = Affine.a (transform (this s)) /\
  Affine.b tr = Affine.b (transform (this s)) /\
  Affine.d tr = Affine.d (transform (this s)) /\
  Affine.e tr = Affine.e (transform (this s)) /\
  Affine.c tr = BoundingBox.left bbox /\
  Affine.f tr = BoundingBox.top bbox.
Proof.
  intros H. apply get_wc_for_bbox_ok in H.
  destruct H as (wcvars & _ & _ & -> & _). cbn [Affine.a Affine.b Affine.c Affine.d Affine.e Affine.f].
  repeat split; reflexivity.
Qed.

(** C5. [get_wc_for_bbox] returns a stack as soon as every requested
    variable can be cropped and the crops stacked, and the stack it returns
    has one layer per requested variable, in the order of the request: layer i
    is the cropped data of the i-th variable. Requesting [A; B; A] gives three
    layers, of which layers 0 and 2 are the same array, the cropped data of
    A. *)
Theorem get_wc_for_bbox_layers
        (bbox : BoundingBox.t) (vars : list WorldClimVar.t) (s : state) :
  reads_well_formed ->
  (forall layers stacked,
     rmap (cropped_layer (this s) bbox) vars = Ok layers ->
     np_stack layers = Ok stacked ->
     exists tr s', get_wc_for_bbox bbox (Some vars) s = (Ok (stacked, tr), s')) /\
  (forall stacked tr s',
     get_wc_for_bbox bbox (Some vars) s = (Ok (stacked, tr), s') ->
     hd_error (shape stacked) = Some (Z.of_nat (length vars)) /\
     (forall i var, nth_error vars i = Some var ->
        exists layer, cropped_layer (this s) bbox var = Ok layer /\
                      index_axis0 (Z.of_nat i) stacked = Ok layer) /\
     (forall A B, vars = [A; B; A] ->
        hd_error (shape stacked) = Some 3%Z /\
        index_axis0 0 stacked = cropped_layer (this s) bbox A /\
        index_axis0 2 stacked = cropped_layer (this s) bbox A)).
Proof.
  intros Hwf. split.
  { intros layers stacked Hlayers Hstack.
    destruct (get_wc_for_bbox_returns bbox (Some vars) s layers stacked Hlayers Hstack)
      as (s' & Hrun).
    eexists. exists s'. exact Hrun. }
  intros stacked tr s' H. apply get_wc_for_bbox_ok in H.
  destruct H as (wcvars & Hlayers & Hstack & _ & _).
  assert (Hall : Forall well_formed wcvars).
  { apply (rmap_Forall (cropped_layer (this s) bbox) well_formed vars wcvars);
      [| exact Hlayers].
    intros var layer. apply cropped_layer_well_formed, Hwf. }
  assert (Hshape : hd_error (shape stacked) = Some (Z.of_nat (length vars))).
  { destruct (np_stack_ok _ _ Hstack) as (sh & -> & _ & _).
    cbn. rewrite (rmap_length _ _ _ Hlayers). reflexivity. }
  assert (Hnth : forall i var, nth_error vars i = Some var ->
            exists layer, cropped_layer (this s) bbox var = Ok layer /\
                          index_axis0 (Z.of_nat i) stacked = Ok layer).
  { intros i var Hi.
    destruct (rmap_nth _ _ _ Hlayers i var Hi) as (layer & Hl & Hc).
    exists layer. split; [exact Hc |].
    apply (np_stack_layer wcvars stacked Hall Hstack i layer Hl). }
  split; [exact Hshape |]. split; [exact Hnth |].
  intros A B ->. split; [exact Hshape |].
  destruct (Hnth 0%nat A eq_refl) as (l0 & Hc0 & Hi0).
  destruct (Hnth 2%nat A eq_refl) as (l2 & Hc2 & Hi2).
  cbn in Hi0, Hi2. rewrite Hi0, Hi2. split; symmetry; assumption.
Qed.

End StackClaims.

Lemma demo_reads_well_formed : reads_well_formed (RIO := Demo.rasterio).
Proof.
  intros path ds w arr _ H. cbn in H.
  destruct ((0 <=? row_start w) && (row_start w <=? row_stop w)
            && (0 <=? col_start w) && (col_start w <=? col_stop w)); [| discriminate].
  inversion H. unfold well_formed. cbn [shape flat size_of fold_right].
  rewrite repeat_length. f_equal. ring.
Qed.

(** The box 1.2, 43.1, 1.9, 43.9 on the 30-arc-second grid: the origin
    returned is the box's own corner, while the window that was read starts
    at column 21744 and row 5532, whose corner lies to the left of and above
    it. *)
Lemma get_wc_for_bbox_transform_witness :
  exists stacked tr s',
    WorldClimData.get_wc_for_bbox (R := binary64) (RIO := Demo.rasterio) Demo.box_off_grid
      (Some [Demo.tavg_08]) Demo.start = (Ok (stacked, tr), s') /\
    Affine.a tr = Affine.a (WorldClimData.transform Demo.self) /\
    Affine.c tr = BoundingBox.left Demo.box_off_grid /\
    Affine.f tr = BoundingBox.top Demo.box_off_grid /\
    WorldClimData.crop_window (R := binary64) (WorldClimData.transform Demo.self)
      Demo.box_off_grid = Ok (mkWindow 5532 5629 21744 21829) /\
    (BoundingBox.left (window_bounds (R := binary64) (WorldClimData.transform Demo.self)
                         (mkWindow 5532 5629 21744 21829)) < Affine.c tr)%Q /\
    (Affine.f tr < BoundingBox.top (window_bounds (R := binary64)
                                      (WorldClimData.transform Demo.self)
                                      (mkWindow 5532 5629 21744 21829)))%Q.
Proof.
  destruct (WorldClimData.get_wc_for_bbox (R := binary64) (RIO := Demo.rasterio)
              Demo.box_off_grid (Some [Demo.tavg_08]) Demo.start)
    as [[[stacked tr] | ex] s'] eqn:Hrun.
  2:{ vm_compute in Hrun. discriminate. }
  destruct (get_wc_for_bbox_transform (R := binary64) (RIO := Demo.rasterio) _ _ _ _ _ _ Hrun)
    as (Ha & _ & _ & _ & Hc & Hf).
  exists stacked, tr, s'.
  split; [reflexivity |]. split; [exact Ha |]. split; [exact Hc |]. split; [exact Hf |].
  split; [vm_compute; reflexivity |].
  rewrite Hc, Hf. split; vm_compute; reflexivity.
Defined.

Lemma get_wc_for_bbox_layers_witness :
  exists stacked tr s',
    WorldClimData.get_wc_for_bbox (R := binary64) (RIO := Demo.rasterio) Demo.box_off_grid
      (Some [Demo.tavg_08; Demo.prec_01; Demo.tavg_08]) Demo.start
      = (Ok (stacked, tr), s') /\
    hd_error (shape stacked) = Some 3 /\
    index_axis0 0 stacked = index_axis0 2 stacked /\
    index_axis0 0 stacked
      = cropped_layer (R := binary64) (RIO := Demo.rasterio) Demo.self Demo.box_off_grid Demo.tavg_08.
Proof.
  destruct (WorldClimData.get_wc_for_bbox (R := binary64) (RIO := Demo.rasterio) Demo.box_off_grid
              (Some [Demo.tavg_08; Demo.prec_01; Demo.tavg_08]) Demo.start)
    as [[[stacked tr] | ex] s'] eqn:Hrun.
  2:{ vm_compute in Hrun. discriminate. }
  destruct (proj2 (get_wc_for_bbox_layers (R := binary64) (RIO := Demo.rasterio) Demo.box_off_grid
                     [Demo.tavg_08; Demo.prec_01; Demo.tavg_08] Demo.start
                     demo_reads_well_formed) stacked tr s' Hrun) as (_ & _ & Haba).
  destruct (Haba Demo.tavg_08 Demo.prec_01 eq_refl) as (Hn & H0 & H2).
  exists stacked, tr, s'. repeat split; try assumption.
  rewrite H0, H2. reflexivity.
Defined.

(** ** The instance is read, never written *)

Section Frame.

Context {R : Rounding} {RIO : Rasterio} {UTILS : Utils}.

Import WorldClimData.

Lemma preserves_ret {A : Type} (x : A) : preserves_self (ret x).
Proof. intros s. reflexivity. Qed.

Lemma preserves_raise {A : Type} (ex : exn) : preserves_self (@raise state A ex).
Proof. intros s. reflexivity. Qed.

Lemma preserves_lift {A : Type} (r : result A) : preserves_self (lift r).
Proof. intros s. reflexivity. Qed.

Lemma preserves_gets {A : Type} (g : state -> A) : preserves_self (gets g).
Proof. intros s. reflexivity. Qed.

Lemma preserves_io {A : Type} (m : M (list event) A) : preserves_self (io m).
Proof. intros s. unfold io. destruct (m (trace s)). reflexivity. Qed.

Lemma preserves_bind {A B : Type} (m : M state A) (k : A -> M state B) :
  preserves_self m -> (forall x, preserves_self (k x)) -> preserves_self (bind m k).
Proof.
  intros Hm Hk s. unfold bind. specialize (Hm s).
  destruct (m s) as [[x | ex] s1]; cbn in Hm |- *.
  - rewrite (Hk x s1). exact Hm.
  - exact Hm.
Qed.

Lemma preserves_mapM {A B : Type} (body : A -> M state B) (xs : list A) :
  (forall x, preserves_self (body x)) -> preserves_self (mapM body xs).
Proof.
  intros Hbody. induction xs as [| x xs IH]; cbn [mapM].
  - apply preserves_ret.
  - apply preserves_bind; [apply Hbody | intros y].
    apply preserves_bind; [exact IH | intros ys]. apply preserves_ret.
Qed.

Ltac frame :=
  repeat first
    [ apply preserves_ret | apply preserves_raise | apply preserves_lift
    | apply preserves_gets | apply preserves_io
    | apply preserves_mapM; intros ?
    | apply preserves_bind; [| intros ?]
    | match goal with
      | |- preserves_self (match ?x with _ => _ end) => destruct x
      end ].

Lemma crop_to_bbox_preserves (imfile : string) (bbox : BoundingBox.t) :
  preserves_self (crop_to_bbox imfile bbox).
Proof. unfold crop_to_bbox. frame. Qed.

Lemma get_var_name_preserves (var : WorldClimVar.t) : preserves_self (get_var_name var).
Proof. unfold get_var_name. frame. Qed.

Lemma get_file_path_preserves (var : WorldClimVar.t) : preserves_self (get_file_path var).
Proof. unfold get_file_path. frame. Qed.

Lemma get_wc_for_bbox_preserves (bbox : BoundingBox.t)
      (wc_vars : option (list WorldClimVar.t)) :
  preserves_self (get_wc_for_bbox bbox wc_vars).
Proof.
  unfold get_wc_for_bbox. frame.
Qed.

Lemma read_as_numpy_preserves wc_vars crs resolution bounds algorithm dt :
  preserves_self (read_as_numpy wc_vars crs resolution bounds algorithm dt).
Proof.
  unfold read_as_numpy. destruct bounds as [bounds |]; frame.
Qed.

Lemma read_as_xarray_preserves wc_vars crs resolution bounds algorithm dt :
  preserves_self (read_as_xarray wc_vars crs resolution bounds algorithm dt).
Proof.
  unfold read_as_xarray. frame. apply read_as_numpy_preserves.
Qed.

Lemma init_files (wcdir : string) :
  exists clim bio,
    rmap (fun mcv =>
            rbind (WorldClimVar.__init__ (WorldClimVar.Quantity (snd mcv)) (Some (fst mcv)))
                  (file_path wcdir "wc2.0" "30s"))
         (flat_map (fun m => map (fun cv => (m, cv)) WorldClimQuantityAll) (range 1 13))
      = Ok ((wcdir ++ "/wc2.0_30s_prec_01.tif")%string :: clim) /\
    rmap (fun b => rbind (WorldClimVar.__init__ (WorldClimVar.Bio b) None)
                         (file_path wcdir "wc2.0" "30s"))
         WorldClimBioAll
      = Ok bio.
Proof. eexists. eexists. split; vm_compute; reflexivity. Qed.

(** C7. The constructor opens the first climate file,
    wc2.0_30s_prec_01.tif, once, and stores its transform moved by half a
    pixel: a, b, d, e as in the file, and for c and f the floats that
    [c - a / 2] and [f - e / 2] evaluate to. No method of the class changes
    the instance afterwards, so the stored transform stays what the
    constructor computed. *)
Theorem init_transform_half_pixel_shift (wcdir : string) (tr0 : list event) :
  snd (__init__ wcdir tr0) = tr0 ++ [EvOpen (wcdir ++ "/wc2.0_30s_prec_01.tif")%string] /\
  (forall ex, rio_open (wcdir ++ "/wc2.0_30s_prec_01.tif")%string = Raise ex ->
              fst (__init__ wcdir tr0) = Raise ex) /\
  (forall ds, rio_open (wcdir ++ "/wc2.0_30s_prec_01.tif")%string = Ok ds ->
     exists self,
       fst (__init__ wcdir tr0) = Ok self /\
       hd_error (climfiles self) = Some (wcdir ++ "/wc2.0_30s_prec_01.tif")%string /\
       transform self =
         Affine.Affine
           (Affine.a (ds_transform ds)) (Affine.b (ds_transform ds))
           (Float.sub (Affine.c (ds_transform ds)) (Float.div (Affine.a (ds_transform ds)) 2))
           (Affine.d (ds_transform ds)) (Affine.e (ds_transform ds))
           (Float.sub (Affine.f (ds_transform ds)) (Float.div (Affine.e (ds_transform ds)) 2))) /\
  (forall imfile bbox, preserves_self (crop_to_bbox imfile bbox)) /\
  (forall var, preserves_self (get_var_name var)) /\
  (forall var, preserves_self (get_file_path var)) /\
  (forall bbox wc_vars, preserves_self (get_wc_for_bbox bbox wc_vars)) /\
  (forall wc_vars crs resolution bounds algorithm dt,
      preserves_self (read_as_numpy wc_vars crs resolution bounds algorithm dt)) /\
  (forall wc_vars crs resolution bounds algorithm dt,
      preserves_self (read_as_xarray wc_vars crs resolution bounds algorithm dt)).
Proof.
  destruct (init_files wcdir) as (clim & bio & Hclim & Hbio).
  assert (Hrun : __init__ wcdir tr0 =
            (rbind (rio_open (wcdir ++ "/wc2.0_30s_prec_01.tif")%string) (fun ds =>
               Ok (WorldClimData wcdir "wc2.0" "+proj=latlong" "30s"
                     (Float.div (Float.div 30 60) 60)
                     ((wcdir ++ "/wc2.0_30s_prec_01.tif")%string :: clim) bio
                     (Affine.Affine
                        (Affine.a (ds_transform ds)) (Affine.b (ds_transform ds))
                        (Float.sub (Affine.c (ds_transform ds))
                                   (Float.div (Affine.a (ds_transform ds)) 2))
                        (Affine.d (ds_transform ds)) (Affine.e (ds_transform ds))
                        (Float.sub (Affine.f (ds_transform ds))
                                   (Float.div (Affine.e (ds_transform ds)) 2))))),
             tr0 ++ [EvOpen (wcdir ++ "/wc2.0_30s_prec_01.tif")%string])).
  { unfold __init__. cbv zeta. unfold bind at 1. unfold lift at 1. rewrite Hclim.
    unfold bind at 1. unfold lift at 1. rewrite Hbio.
    unfold bind, open_dataset, bind, emit, modify, lift, ret.
    destruct (rio_open (wcdir ++ "/wc2.0_30s_prec_01.tif")%string); reflexivity. }
  rewrite Hrun. cbn [fst snd].
  split; [reflexivity |].
  split; [intros ex ->; reflexivity |].
  split.
  { intros ds ->. cbn [rbind]. eexists. split; [reflexivity |]. split; reflexivity. }
  split; [intros; apply crop_to_bbox_preserves |].
  split; [intros; apply get_var_name_preserves |].
  split; [intros; apply get_file_path_preserves |].
  split; [intros; apply get_wc_for_bbox_preserves |].
  split; [intros; apply read_as_numpy_preserves | intros; apply read_as_xarray_preserves].
Qed.

End Frame.

(** ** The destination grid of [read_as_numpy] *)

Section DestinationGrid.

Context {R : Rounding} {RIO : Rasterio} {UTILS : Utils}.

Import WorldClimData.

Lemma truediv_ok (x y q : Q) :
  truediv x y = Ok q -> q = Float.div x y /\ ~ (y == 0)%Q.
Proof.
  unfold truediv. destruct (Qeq_bool y 0) eqn:E; [discriminate |].
  intros H. inversion H. split; [reflexivity |].
  intros Hy. apply Qeq_eq_bool in Hy. congruence.
Qed.

Lemma np_zeros_ok (sh : list Z) (arr : ndarray) :
  np_zeros sh = Ok arr -> shape arr = sh.
Proof.
  unfold np_zeros. destruct (forallb (fun n => 0 <=? n) sh); [| discriminate].
  intros H. inversion H. reflexivity.
Qed.

Lemma reproject_ok source destination src_transform src_crs dst_transform dst_crs
      resampling (out : ndarray) (tr : Affine.t) :
  reproject source destination src_transform src_crs dst_transform dst_crs resampling
    = Ok (out, tr) ->
  shape out = shape destination /\ tr = dst_transform.
Proof.
  unfold reproject. intros H. apply rbind_ok in H. destruct H as (values & _ & H).
  inversion H. split; reflexivity.
Qed.

Lemma set_last_length (l : list Q) (v : Q) :
  l <> [] -> length (set_last l v) = length l.
Proof.
  intros Hl. unfold set_last.
  rewrite (app_removelast_last 0%Q Hl) at 2. rewrite !length_app. reflexivity.
Qed.

(** A linspace has [num] points and, from two points on, ends at [stop]. *)
Lemma np_linspace_length (start stop : Q) (num : Z) (l : list Q) :
  np_linspace start stop num = Ok l ->
  (0 <= num)%Z /\ length l = Z.to_nat num /\ ((1 < num)%Z -> last l 0%Q = stop).
Proof.
  unfold np_linspace. destruct (num <? 0) eqn:Eneg; [discriminate |].
  apply Z.ltb_ge in Eneg.
  set (idx := map (fun i => inject_Z (Z.of_nat i)) (seq 0 (Z.to_nat num))).
  set (y := if 0 <? num - 1 then _ else _).
  assert (Hlen : length y = Z.to_nat num).
  { unfold y, idx.
    destruct (0 <? num - 1);
      [destruct (Qeq_bool (Float.div (Float.sub stop start) (inject_Z (num - 1))) 0) |];
      rewrite !length_map, length_seq; reflexivity. }
  intros H. inversion H; subst l; clear H. split; [exact Eneg |].
  destruct (1 <? num) eqn:E1.
  - apply Z.ltb_lt in E1.
    assert (Hne : y <> []) by (intros Hy; rewrite Hy in Hlen; cbn in Hlen; lia).
    split; [rewrite set_last_length by exact Hne; exact Hlen |].
    intros _. unfold set_last. apply last_last.
  - apply Z.ltb_ge in E1. split; [exact Hlen | lia].
Qed.

(** What a successful [read_as_numpy] went through. *)
Lemma read_as_numpy_ok (vars : list WorldClimVar.t) (crs : option string)
      (resolution : Q) (bounds : BoundingBox.t) (algorithm : Resampling) (dt : dtype)
      (s s' : state) (arr : ndarray) (xs ys : list Q) (crs' : string) (tr : Affine.t) :
  read_as_numpy (Some vars) crs resolution (Some bounds) algorithm dt s
    = (Ok (arr, xs, ys, crs', tr), s') ->
  ~ (resolution == 0)%Q /\
  shape arr =
    [Z.of_nat (length vars);
     Qceiling (Float.div (Float.sub (BoundingBox.top bounds) (BoundingBox.bottom bounds))
                         resolution);
     Qceiling (Float.div (Float.sub (BoundingBox.right bounds) (BoundingBox.left bounds))
                         resolution)] /\
  np_linspace (Float.add (BoundingBox.left bounds) (Float.div resolution 2))
              (Float.sub (BoundingBox.right bounds) (Float.div resolution 2))
              (Qceiling (Float.div (Float.sub (BoundingBox.right bounds)
                                              (BoundingBox.left bounds)) resolution))
    = Ok xs /\
  np_linspace (Float.sub (BoundingBox.top bounds) (Float.div resolution 2))
              (Float.add (BoundingBox.bottom bounds) (Float.div resolution 2))
              (Qceiling (Float.div (Float.sub (BoundingBox.top bounds)
                                              (BoundingBox.bottom bounds)) resolution))
    = Ok ys /\
  tr = Affine.Affine resolution 0 (BoundingBox.left bounds)
                     0 (- resolution) (BoundingBox.top bounds).
Proof.
  unfold read_as_numpy. intros H.
  apply bind_ok in H. destruct H as (self & s1 & Hself & H).
  apply gets_ok in Hself. destruct Hself as [-> ->].
  apply bind_ok in H. destruct H as (qx & s1 & Hqx & H).
  apply lift_ok in Hqx. destruct Hqx as [Hqx ->].
  apply truediv_ok in Hqx. destruct Hqx as [-> Hres].
  apply bind_ok in H. destruct H as (qy & s1 & Hqy & H).
  apply lift_ok in Hqy. destruct Hqy as [Hqy ->].
  apply truediv_ok in Hqy. destruct Hqy as [-> _].
  apply bind_ok in H. destruct H as (bbox & s1 & Hbbox & H).
  apply lift_ok in Hbbox. destruct Hbbox as [_ ->].
  apply bind_ok in H. destruct H as ([wc_bbox src_transform] & s1 & Hwc & H).
  apply get_wc_for_bbox_ok in Hwc.
  destruct Hwc as (wcvars & Hlayers & Hstack & _ & _).
  apply bind_ok in H. destruct H as (n & s2 & Hn & H).
  apply lift_ok in Hn. destruct Hn as [Hn ->].
  destruct (np_stack_ok _ _ Hstack) as (sh & Hshape & _ & _).
  rewrite Hshape in Hn. inversion Hn; subst n; clear Hn.
  rewrite (rmap_length _ _ _ Hlayers) in H.
  apply bind_ok in H. destruct H as (dst0 & s2 & Hz & H).
  apply lift_ok in Hz. destruct Hz as [Hz ->]. apply np_zeros_ok in Hz.
  apply bind_ok in H. destruct H as ([dst1 dst_tr] & s2 & Hrep & H).
  apply lift_ok in Hrep. destruct Hrep as [Hrep ->].
  apply reproject_ok in Hrep. destruct Hrep as [Hsh1 ->].
  apply bind_ok in H. destruct H as (xc & s2 & Hx & H).
  apply lift_ok in Hx. destruct Hx as [Hx ->].
  apply bind_ok in H. destruct H as (yc & s2 & Hy & H).
  apply lift_ok in Hy. destruct Hy as [Hy ->].
  apply ret_ok in H. destruct H as [H _]. inversion H; subst arr xs ys crs' tr; clear H.
  split; [exact Hres |].
  split; [cbn [astype shape]; rewrite Hsh1, Hz; reflexivity |].
  split; [exact Hx |]. split; [exact Hy | reflexivity].
Qed.

End DestinationGrid.

Section Linspace.

Context {R : Rounding} {F : Faithful R}.

(** Under a faithful rounding the first point of a linspace is [start], when
    [start] is a float. *)
Lemma np_linspace_first (start stop : Q) (num : Z) (l : list Q) (x0 : Q) :
  np_linspace start stop num = Ok l -> hd_error l = Some x0 ->
  (rnd start == start)%Q -> (x0 == start)%Q.
Proof.
  intros Hl Hhd Hstart.
  assert (Hz : forall v, (inject_Z (Z.of_nat 0) * v == 0)%Q) by (intros v; cbn; ring).
  assert (Hfirst : forall v, (Float.add (Float.mul (inject_Z (Z.of_nat 0)) v) start == start)%Q).
  { intros v. unfold Float.add, Float.mul. rewrite <- Hstart at 2. apply rnd_eq.
    rewrite (rnd_null _ (Hz v)). ring. }
  assert (Hfirst' : forall dv v,
             (Float.add (Float.mul (Float.div (inject_Z (Z.of_nat 0)) dv) v) start == start)%Q).
  { intros dv v. unfold Float.add, Float.mul, Float.div. rewrite <- Hstart at 2.
    apply rnd_eq.
    assert (E0 : (rnd (inject_Z (Z.of_nat 0) / dv) == 0)%Q).
    { apply rnd_null. cbn [Z.of_nat inject_Z]. unfold Qdiv. ring. }
    assert (E1 : (rnd (rnd (inject_Z (Z.of_nat 0) / dv) * v) == 0)%Q).
    { apply rnd_null. rewrite E0. ring. }
    rewrite E1. ring. }
  destruct (np_linspace_length _ _ _ _ Hl) as (Hnum & Hlen & _).
  unfold np_linspace in Hl. destruct (num <? 0); [discriminate |].
  destruct (Z.to_nat num) as [| k] eqn:Ek.
  { destruct l; [discriminate | cbn in Hlen; discriminate]. }
  cbn [seq map] in Hl.
  assert (Hset : forall (z : Q) (zs : list Q),
             hd_error (if 1 <? num then set_last (z :: zs) stop else z :: zs) = Some x0 ->
             (1 <? num) = false \/ zs <> [] -> x0 = z).
  { intros z zs H Hc. destruct (1 <? num) eqn:E1.
    - destruct Hc as [Hc | Hc]; [discriminate |].
      destruct zs as [| z' zs']; [congruence |].
      unfold set_last in H. cbn in H. congruence.
    - cbn in H. congruence. }
  assert (Hk : (1 <? num) = false \/ k <> 0%nat).
  { destruct (1 <? num) eqn:E1; [right | left; reflexivity].
    apply Z.ltb_lt in E1. lia. }
  assert (Hzs : forall (g : Q -> Q), (1 <? num) = false \/
                  map g (map (fun i => inject_Z (Z.of_nat i)) (seq 1 k)) <> []).
  { intros g. destruct Hk as [Hk | Hk]; [left; exact Hk | right].
    destruct k; [congruence | cbn; discriminate]. }
  destruct (0 <? num - 1).
  - destruct (Qeq_bool (Float.div (Float.sub stop start) (inject_Z (num - 1))) 0).
    + inversion Hl; subst l; clear Hl.
      rewrite (Hset _ _ Hhd (Hzs _)). apply Hfirst'.
    + inversion Hl; subst l; clear Hl.
      rewrite (Hset _ _ Hhd (Hzs _)). apply Hfirst.
  - inversion Hl; subst l; clear Hl.
    rewrite (Hset _ _ Hhd (Hzs _)). apply Hfirst.
Qed.

End Linspace.

(** From here on the arithmetic is that of the code. *)

Section DestinationGridClaims.

Context {RIO : Rasterio} {UTILS : Utils}.

#[local] Existing Instance binary64.

Import WorldClimData.

(** C2. The array returned by [read_as_numpy] for n requested variables has
    shape (n, ceil((top - bottom) / resolution), ceil((right - left) /
    resolution)), the subtraction and the division being those of floats.
    Its x coordinates start half a resolution inside the left bound and,
    from two columns on, end half a resolution inside the right bound; its y
    coordinates run likewise from the top down. On bounds left=0,
    right=1000, top=1000, bottom=0 at resolution 100 the shape is
    (n, 10, 10), x runs from 50 to 950 and y from 950 to 50. *)
Theorem read_as_numpy_grid (vars : list WorldClimVar.t) (crs : option string)
        (resolution : Q) (bounds : BoundingBox.t) (algorithm : Resampling) (dt : dtype)
        (s s' : state) (arr : ndarray) (xs ys : list Q) (crs' : string) (tr : Affine.t) :
  read_as_numpy (Some vars) crs resolution (Some bounds) algorithm dt s
    = (Ok (arr, xs, ys, crs', tr), s') ->
  shape arr =
    [Z.of_nat (length vars);
     Qceiling (Float.div (Float.sub (BoundingBox.top bounds) (BoundingBox.bottom bounds))
                         resolution);
     Qceiling (Float.div (Float.sub (BoundingBox.right bounds) (BoundingBox.left bounds))
                         resolution)] /\
  Z.of_nat (length xs)
    = Qceiling (Float.div (Float.sub (BoundingBox.right bounds) (BoundingBox.left bounds))
                          resolution) /\
  Z.of_nat (length ys)
    = Qceiling (Float.div (Float.sub (BoundingBox.top bounds) (BoundingBox.bottom bounds))
                          resolution) /\
  (forall x0, hd_error xs = Some x0 ->
              (x0 == Float.add (BoundingBox.left bounds) (Float.div resolution 2))%Q) /\
  (forall y0, hd_error ys = Some y0 ->
              (y0 == Float.sub (BoundingBox.top bounds) (Float.div resolution 2))%Q) /\
  ((2 <= length xs)%nat ->
   last xs 0%Q = Float.sub (BoundingBox.right bounds) (Float.div resolution 2)) /\
  ((2 <= length ys)%nat ->
   last ys 0%Q = Float.add (BoundingBox.bottom bounds) (Float.div resolution 2)) /\
  (bounds = BoundingBox.BoundingBox 0 0 1000 1000 -> resolution = 100%Q ->
   shape arr = [Z.of_nat (length vars); 10; 10] /\
   Forall2 Qeq xs [50; 150; 250; 350; 450; 550; 650; 750; 850; 950]%Q /\
   Forall2 Qeq ys [950; 850; 750; 650; 550; 450; 350; 250; 150; 50]%Q).
Proof.
  intros H. apply read_as_numpy_ok in H.
  destruct H as (Hres & Hshape & Hx & Hy & _).
  pose proof (np_linspace_length _ _ _ _ Hx) as (Px & Lx & Hx1).
  pose proof (np_linspace_length _ _ _ _ Hy) as (Py & Ly & Hy1).
  assert (Nx : Z.of_nat (length xs)
               = Qceiling (Float.div (Float.sub (BoundingBox.right bounds)
                                                (BoundingBox.left bounds)) resolution))
    by (rewrite Lx; apply Z2Nat.id, Px).
  assert (Ny : Z.of_nat (length ys)
               = Qceiling (Float.div (Float.sub (BoundingBox.top bounds)
                                                (BoundingBox.bottom bounds)) resolution))
    by (rewrite Ly; apply Z2Nat.id, Py).
  split; [exact Hshape |]. split; [exact Nx |]. split; [exact Ny |].
  split.
  { intros x0 H0. apply (np_linspace_first _ _ _ _ _ Hx H0). apply rnd_idempotent. }
  split.
  { intros y0 H0. apply (np_linspace_first _ _ _ _ _ Hy H0). apply rnd_idempotent. }
  split; [intros Hl; apply Hx1; lia |].
  split; [intros Hl; apply Hy1; lia |].
  intros -> ->. split; [rewrite Hshape; vm_compute; reflexivity |].
  vm_compute in Hx. vm_compute in Hy.
  inversion Hx; subst xs. inversion Hy; subst ys.
  split; repeat constructor.
Qed.

(** The grid size follows the float quotient, which can exceed the exact
    one: the bounds 0.1 and 0.4 at resolution 0.1 are three pixels apart, and
    the code makes four columns of them. *)
Remark grid_size_of_float_quotient :
  Qceiling (Float.div (Float.sub (float_literal (4 # 10)) (float_literal (1 # 10)))
                      (float_literal (1 # 10))) = 4 /\
  Qceiling ((float_literal (4 # 10) - float_literal (1 # 10)) / float_literal (1 # 10)) = 3.
Proof. split; vm_compute; reflexivity. Qed.

End DestinationGridClaims.

Lemma read_as_numpy_grid_witness :
  exists arr xs ys crs' tr s',
    WorldClimData.read_as_numpy (R := binary64) (RIO := Demo.rasterio) (UTILS := Demo.utils)
      (Some [Demo.tavg_08; Demo.prec_01; Demo.annual_prec]) None 100 (Some Demo.region)
      cubic tt Demo.start
      = (Ok (arr, xs, ys, crs', tr), s') /\
    shape arr = [3; 10; 10] /\
    Forall2 Qeq xs [50; 150; 250; 350; 450; 550; 650; 750; 850; 950]%Q /\
    Forall2 Qeq ys [950; 850; 750; 650; 550; 450; 350; 250; 150; 50]%Q /\
    (last xs 0 == 950)%Q.
Proof.
  destruct (WorldClimData.read_as_numpy (R := binary64) (RIO := Demo.rasterio) (UTILS := Demo.utils)
              (Some [Demo.tavg_08; Demo.prec_01; Demo.annual_prec]) None 100
              (Some Demo.region) cubic tt Demo.start)
    as [[[[[[arr xs] ys] crs'] tr] | ex] s'] eqn:Hrun.
  2:{ vm_compute in Hrun. discriminate. }
  destruct (read_as_numpy_grid (RIO := Demo.rasterio) (UTILS := Demo.utils)
              _ _ _ _ _ _ _ _ _ _ _ _ _ Hrun)
    as (_ & Nx & _ & _ & _ & Hlast & _ & Hscene).
  destruct (Hscene eq_refl eq_refl) as (Hshape & Hxs & Hys).
  exists arr, xs, ys, crs', tr, s'.
  split; [reflexivity |]. split; [exact Hshape |]. split; [exact Hxs |].
  split; [exact Hys |].
  rewrite Hlast; [vm_compute; reflexivity |].
  apply Nat2Z.inj_le. rewrite Nx. vm_compute. discriminate.
Defined.

(** On the 30-arc-second grid, whose pixel is the float nearest to 1/120:
    the stored origin is the float nearest to -180 - a/2, which is
    -3166666788770065 / 2^44, and likewise 1583370044772625 / 2^44 for
    90 + a/2. Neither is the exact difference. *)
Lemma init_transform_half_pixel_shift_witness :
  exists self,
    fst (WorldClimData.__init__ (R := binary64) (RIO := Demo.rasterio) "/wc" []) = Ok self /\
    Affine.a (WorldClimData.transform self) = Affine.a Demo.grid /\
    Affine.e (WorldClimData.transform self) = Affine.e Demo.grid /\
    (Affine.c (WorldClimData.transform self) == - (3166666788770065 # 17592186044416))%Q /\
    (Affine.f (WorldClimData.transform self) == 1583370044772625 # 17592186044416)%Q /\
    ~ (Affine.c (WorldClimData.transform self) == -180 - Affine.a Demo.grid / 2)%Q.
Proof.
  destruct (init_transform_half_pixel_shift (R := binary64) (RIO := Demo.rasterio)
              (UTILS := Demo.utils) "/wc" [])
    as (_ & _ & Hopen & _).
  destruct (Hopen (Demo.checksum "/wc/wc2.0_30s_prec_01.tif") eq_refl)
    as (self & Hself & _ & Htr).
  exists self. split; [exact Hself |]. rewrite Htr.
  cbn [Affine.a Affine.c Affine.e Affine.f].
  split; [reflexivity |]. split; [reflexivity |].
  split; [vm_compute; reflexivity |]. split; [vm_compute; reflexivity |].
  intros H. vm_compute in H. discriminate.
Defined.

(** ** Preconditions and constructors *)

Section Preconditions.

Context {R : Rounding} {RIO : Rasterio} {UTILS : Utils}.

(** C10. Called with [bounds=None], [read_as_numpy] raises AssertionError
    whatever the other arguments are, and leaves the outside untouched: no
    file was opened or read, nothing was printed. *)
Theorem read_as_numpy_requires_bounds
        (wc_vars : option (list WorldClimVar.t)) (crs : option string)
        (resolution : Q) (algorithm : Resampling) (dt : dtype)
        (s : WorldClimData.state) :
  WorldClimData.read_as_numpy wc_vars crs resolution None algorithm dt s
    = (Raise AssertionError, s).
Proof. reflexivity. Qed.

End Preconditions.

(** C4. A [WorldClimVar] is built exactly when the pairing is consistent: a
    bio variable without a month (it then carries none), or a climate quantity
    with a month from 1 to 12 (it then carries that month). Every other
    pairing raises ValueError: a bio variable with a month, a quantity without
    one, a quantity with month 0 or 13. *)
Theorem WorldClimVar_init_pairing :
  (forall wcb,
     WorldClimVar.__init__ (WorldClimVar.Bio wcb) None
     = Ok (WorldClimVar.WorldClimVar (WorldClimBio_value wcb) "bio" None)) /\
  (forall q m, 1 <= m <= 12 ->
     WorldClimVar.__init__ (WorldClimVar.Quantity q) (Some m)
     = Ok (WorldClimVar.WorldClimVar (WorldClimQuantity_value q) "clim" (Some m))) /\
  (forall v month,
     (exists x, WorldClimVar.__init__ v month = Ok x) <->
     ((WorldClimVar.is_bio v = true /\ month = None) \/
      (WorldClimVar.is_quantity v = true /\ exists m, month = Some m /\ 1 <= m <= 12))) /\
  (forall v month,
     (exists x, WorldClimVar.__init__ v month = Ok x /\ WorldClimVar.month x = month) \/
     (exists msg, WorldClimVar.__init__ v month = Raise (ValueError msg))) /\
  (forall wcb m, exists msg,
     WorldClimVar.__init__ (WorldClimVar.Bio wcb) (Some m) = Raise (ValueError msg)) /\
  (forall q, exists msg,
     WorldClimVar.__init__ (WorldClimVar.Quantity q) None = Raise (ValueError msg)) /\
  (forall q, exists msg,
     WorldClimVar.__init__ (WorldClimVar.Quantity q) (Some 0) = Raise (ValueError msg)) /\
  (forall q, exists msg,
     WorldClimVar.__init__ (WorldClimVar.Quantity q) (Some 13) = Raise (ValueError msg)).
Proof.
  split; [reflexivity |].
  split.
  { intros q m [H1 H12]. unfold WorldClimVar.__init__. cbn.
    apply Z.leb_le in H1, H12. rewrite H1, H12. reflexivity. }
  split.
  { intros v month. unfold WorldClimVar.__init__. split.
    - intros [x H]. destruct month as [m |], v as [q | wcb]; cbn in H; try discriminate.
      + right. split; [reflexivity |]. exists m. split; [reflexivity |].
        destruct (1 <=? m) eqn:E1; [| discriminate].
        destruct (m <=? 12) eqn:E12; [| discriminate].
        apply Z.leb_le in E1, E12. lia.
      + rewrite andb_false_r in H. discriminate.
      + left. split; reflexivity.
    - intros [[Hb ->] | [Hq (m & -> & H1 & H12)]].
      + destruct v; [discriminate |]. eexists. reflexivity.
      + destruct v; [| discriminate]. cbn.
        apply Z.leb_le in H1, H12. rewrite H1, H12. eexists. reflexivity. }
  split.
  { intros v month. unfold WorldClimVar.__init__.
    destruct month as [m |], v as [q | wcb]; cbn.
    - destruct ((1 <=? m) && (m <=? 12) && true);
        [left; eexists; split; reflexivity | right; eexists; reflexivity].
    - rewrite andb_false_r. right; eexists; reflexivity.
    - right; eexists; reflexivity.
    - left; eexists; split; reflexivity. }
  split.
  { intros wcb m. unfold WorldClimVar.__init__. cbn. rewrite andb_false_r.
    eexists; reflexivity. }
  repeat split; intros q; eexists; reflexivity.
Qed.

Lemma WorldClimVar_init_pairing_witness :
  WorldClimVar.__init__ (WorldClimVar.Quantity TAVG) (Some 8)
  = Ok (WorldClimVar.WorldClimVar "tavg" "clim" (Some 8)).
Proof.
  apply (proj1 (proj2 WorldClimVar_init_pairing) TAVG 8). lia.
Defined.

(** ** The Sentinel-2 path builders *)

Section PathBuilders.

Context {FS : FileSystem}.

Import Sentinel2.

(** C8. [build_band_path] raises FileNotFoundError exactly when its glob
    pattern matches no file, with a message that names the band, the band
    type and the product directory; otherwise it returns the first match,
    whether or not there are others. *)
Theorem build_band_path_first_match (self : t) (band : Band) (band_type : BandType) :
  (glob (product_dir self ++ "/*" ++ BandType_value band_type ++ "_"
         ++ Band_value band ++ ".tif")%string = [] ->
   build_band_path self band band_type =
     Raise (FileNotFoundError
              ("Could not find band " ++ Band_value band ++ " of type "
               ++ BandType_value band_type ++ " in product directory "
               ++ product_dir self)%string)) /\
  (forall match0 others,
     glob (product_dir self ++ "/*" ++ BandType_value band_type ++ "_"
           ++ Band_value band ++ ".tif")%string = match0 :: others ->
     build_band_path self band band_type = Ok match0) /\
  ((exists ex, build_band_path self band band_type = Raise ex) <->
   glob (product_dir self ++ "/*" ++ BandType_value band_type ++ "_"
         ++ Band_value band ++ ".tif")%string = []).
Proof.
  unfold build_band_path.
  destruct (glob (product_dir self ++ "/*" ++ BandType_value band_type ++ "_"
                  ++ Band_value band ++ ".tif")%string) as [| match0 others]; cbn.
  - split; [reflexivity |]. split; [discriminate |].
    split; [reflexivity | intros _; eexists; reflexivity].
  - split; [discriminate |]. split; [intros m o H; inversion H; reflexivity |].
    split; [intros [ex H]; discriminate | discriminate].
Qed.

(** C9. When at least one file matches *MTD_ALL.xml, [build_xml_path]
    returns None, never the matched path; it raises FileNotFoundError only
    when nothing matches. *)
Theorem build_xml_path_returns_none (self : t) :
  (glob (product_dir self ++ "/*MTD_ALL.xml")%string <> [] ->
   build_xml_path self = Ok None) /\
  (glob (product_dir self ++ "/*MTD_ALL.xml")%string = [] ->
   build_xml_path self =
     Raise (FileNotFoundError
              ("Could not find root XML file in product directory "
               ++ product_dir self)%string)) /\
  ((exists ex, build_xml_path self = Raise ex) <->
   glob (product_dir self ++ "/*MTD_ALL.xml")%string = []) /\
  (forall path, build_xml_path self <> Ok (Some path)).
Proof.
  unfold build_xml_path.
  destruct (glob (product_dir self ++ "/*MTD_ALL.xml")%string) as [| match0 others]; cbn.
  - split; [congruence |]. split; [reflexivity |].
    split; [| discriminate]. split; [reflexivity | intros _; eexists; reflexivity].
  - split; [reflexivity |]. split; [discriminate |].
    split; [| discriminate]. split; [intros [ex H]; discriminate | discriminate].
Qed.

End PathBuilders.

Lemma build_band_path_first_match_witness :
  Sentinel2.build_band_path (FS := Demo.filesystem) Demo.product Sentinel2.B2 Sentinel2.FRE
    = Ok "/products/S2/A_FRE_B2.tif" /\
  Sentinel2.build_band_path (FS := Demo.filesystem) Demo.product Sentinel2.B3 Sentinel2.FRE
    = Raise (FileNotFoundError
               "Could not find band B3 of type FRE in product directory /products/S2").
Proof.
  split.
  - apply (proj1 (proj2 (build_band_path_first_match (FS := Demo.filesystem)
                           Demo.product Sentinel2.B2 Sentinel2.FRE))
             "/products/S2/A_FRE_B2.tif" ["/products/S2/B_FRE_B2.tif"]).
    reflexivity.
  - apply (proj1 (build_band_path_first_match (FS := Demo.filesystem)
                    Demo.product Sentinel2.B3 Sentinel2.FRE)).
    reflexivity.
Defined.

Lemma build_xml_path_returns_none_witness :
  Sentinel2.build_xml_path (FS := Demo.filesystem) Demo.product = Ok None.
Proof.
  apply (proj1 (build_xml_path_returns_none (FS := Demo.filesystem) Demo.product)).
  discriminate.
Defined.

(** * Further properties *)

(** ** The variables and their names *)

Section Naming.

Context {R : Rounding} {RIO : Rasterio} {UTILS : Utils}.

Import WorldClimData.

Lemma WorldClimQuantityVarAll_eq :
  WorldClimQuantityVarAll =
    map (fun vm => WorldClimVar.WorldClimVar (WorldClimQuantity_value (fst vm)) "clim"
                                             (Some (snd vm)))
        (flat_map (fun v => map (fun m => (v, m)) (range 1 13)) WorldClimQuantityAll).
Proof. reflexivity. Qed.

Lemma WorldClimBioVarAll_eq :
  WorldClimBioVarAll =
    map (fun wcb => WorldClimVar.WorldClimVar (WorldClimBio_value wcb) "bio" None)
        WorldClimBioAll.
Proof. reflexivity. Qed.

Lemma in_range (lo hi m : Z) : In m (range lo hi) <-> lo <= m < hi.
Proof.
  unfold range. rewrite in_map_iff. split.
  - intros (i & <- & Hi). apply in_seq in Hi. lia.
  - intros H. exists (Z.to_nat (m - lo)). split; [lia |]. apply in_seq. lia.
Qed.

Lemma in_WorldClimQuantityAll (q : WorldClimQuantity) : In q WorldClimQuantityAll.
Proof. destruct q; cbn; tauto. Qed.

Lemma in_WorldClimBioAll (wcb : WorldClimBio) : In wcb WorldClimBioAll.
Proof. destruct wcb; cbn; tauto. Qed.

(** What the constructor can return. *)
Lemma constructed_cases (v : WorldClimVar.t) :
  constructed v <->
  (exists q m, 1 <= m <= 12 /\
     v = WorldClimVar.WorldClimVar (WorldClimQuantity_value q) "clim" (Some m)) \/
  (exists wcb, v = WorldClimVar.WorldClimVar (WorldClimBio_value wcb) "bio" None).
Proof.
  unfold constructed, WorldClimVar.__init__. split.
  - intros (var & month & H). destruct month as [m |], var as [q | wcb]; cbn in H.
    + destruct (1 <=? m) eqn:E1; [| discriminate].
      destruct (m <=? 12) eqn:E12; [| discriminate].
      apply Z.leb_le in E1, E12. inversion H. left. exists q, m. split; [lia | reflexivity].
    + rewrite andb_false_r in H. discriminate.
    + discriminate.
    + inversion H. right. exists wcb. reflexivity.
  - intros [(q & m & [H1 H12] & ->) | (wcb & ->)].
    + exists (WorldClimVar.Quantity q), (Some m). cbn.
      apply Z.leb_le in H1, H12. rewrite H1, H12. reflexivity.
    + exists (WorldClimVar.Bio wcb), None. reflexivity.
Qed.

Lemma In_WorldClimVarAll (v : WorldClimVar.t) : In v WorldClimVarAll <-> constructed v.
Proof.
  rewrite constructed_cases. unfold WorldClimVarAll.
  rewrite in_app_iff, WorldClimQuantityVarAll_eq, WorldClimBioVarAll_eq, !in_map_iff.
  split.
  - intros [([q m] & <- & Hin) | (wcb & <- & _)].
    + apply in_flat_map in Hin. destruct Hin as (q' & _ & Hin).
      apply in_map_iff in Hin. destruct Hin as (m' & Heq & Hm). inversion Heq; subst q' m'.
      apply in_range in Hm. left. exists q, m. split; [lia | reflexivity].
    + right. exists wcb. reflexivity.
  - intros [(q & m & Hm & ->) | (wcb & ->)].
    + left. exists (q, m). split; [reflexivity |].
      apply in_flat_map. exists q. split; [apply in_WorldClimQuantityAll |].
      apply in_map_iff. exists m. split; [reflexivity | apply in_range; lia].
    + right. exists wcb. split; [reflexivity | apply in_WorldClimBioAll].
Qed.

(** The name of a variable in the 30-arc-second data base, as a plain
    string. *)
Lemma names_30s_NoDup :
  NoDup (map (fun v => match var_name "30s" v with Ok n => n | Raise _ => "" end)
             WorldClimVarAll).
Proof.
  match goal with |- NoDup ?l => assert (H : nodup string_dec l = l) by (vm_compute; reflexivity) end.
  rewrite <- H. apply NoDup_nodup.
Qed.

Lemma NoDup_map_injective {A B : Type} (f : A -> B) (l : list A) :
  NoDup (map f l) -> forall x y, In x l -> In y l -> f x = f y -> x = y.
Proof.
  induction l as [| a l IH]; cbn; intros Hnd x y Hx Hy Hf; [contradiction |].
  inversion Hnd as [| ? ? Hnotin Hnd']; subst.
  destruct Hx as [<- | Hx], Hy as [<- | Hy].
  - reflexivity.
  - exfalso. apply Hnotin. rewrite Hf. apply in_map, Hy.
  - exfalso. apply Hnotin. rewrite <- Hf. apply in_map, Hx.
  - apply IH; assumption.
Qed.

Lemma append_cancel_l (p x y : string) : (p ++ x = p ++ y)%string -> x = y.
Proof. induction p as [| ch p IH]; cbn; intros H; [exact H | injection H; exact IH]. Qed.

Lemma length_append (x y : string) :
  String.length (x ++ y) = (String.length x + String.length y)%nat.
Proof. induction x as [| ch x IH]; cbn; [reflexivity | rewrite IH; reflexivity]. Qed.

Lemma append_cancel_r (sfx x y : string) : (x ++ sfx = y ++ sfx)%string -> x = y.
Proof.
  revert y. induction x as [| ch x IH]; intros [| ch' y] H; cbn in H.
  - reflexivity.
  - exfalso. apply (f_equal String.length) in H. cbn in H. rewrite length_append in H. lia.
  - exfalso. apply (f_equal String.length) in H. cbn in H. rewrite length_append in H. lia.
  - injection H as -> H. f_equal. apply IH, H.
Qed.

(** What a successful constructor went through. *)
Lemma init_ok (dir : string) (tr0 tr1 : list event) (self : t) :
  __init__ dir tr0 = (Ok self, tr1) ->
  wcdir self = dir /\ wcprefix self = "wc2.0" /\ wcres self = "30s" /\
  crs self = "+proj=latlong" /\
  rmap (fun mcv =>
          rbind (WorldClimVar.__init__ (WorldClimVar.Quantity (snd mcv)) (Some (fst mcv)))
                (file_path dir "wc2.0" "30s"))
       (flat_map (fun m => map (fun cv => (m, cv)) WorldClimQuantityAll) (range 1 13))
    = Ok (climfiles self) /\
  rmap (fun b => rbind (WorldClimVar.__init__ (WorldClimVar.Bio b) None)
                       (file_path dir "wc2.0" "30s"))
       WorldClimBioAll
    = Ok (biofiles self) /\
  exists ds,
    rio_open (dir ++ "/wc2.0_30s_prec_01.tif")%string = Ok ds /\
    transform self =
      Affine.Affine
        (Affine.a (ds_transform ds)) (Affine.b (ds_transform ds))
        (Float.sub (Affine.c (ds_transform ds)) (Float.div (Affine.a (ds_transform ds)) 2))
        (Affine.d (ds_transform ds)) (Affine.e (ds_transform ds))
        (Float.sub (Affine.f (ds_transform ds)) (Float.div (Affine.e (ds_transform ds)) 2)).
Proof.
  destruct (init_files dir) as (clim & bio & Hclim & Hbio).
  unfold __init__. cbv zeta. intros H.
  apply bind_ok in H. destruct H as (cf & t1 & Hcf & H).
  apply lift_ok in Hcf. destruct Hcf as [Hcf ->].
  apply bind_ok in H. destruct H as (bf & t1 & Hbf & H).
  apply lift_ok in Hbf. destruct Hbf as [Hbf ->].
  rewrite Hclim in Hcf. inversion Hcf; subst cf.
  apply bind_ok in H. destruct H as (ds & t1 & Hds & H).
  unfold open_dataset in Hds. apply bind_ok in Hds. destruct Hds as (u & t2 & _ & Hds).
  apply lift_ok in Hds. destruct Hds as [Hds _].
  apply ret_ok in H. destruct H as [-> _].
  cbn [wcdir wcprefix wcres crs climfiles biofiles transform].
  split; [reflexivity |]. split; [reflexivity |]. split; [reflexivity |].
  split; [reflexivity |]. split; [exact Hclim |]. split; [exact Hbf |].
  exists ds. split; [exact Hds | reflexivity].
Qed.

Ltac find_place n :=
  first [ exists n; split; [reflexivity | vm_compute; reflexivity]
        | find_place (S n) ].

(** X1. For a variable that came out of the constructor, [get_var_name] and
    [get_file_path] return, without touching the outside: a climate quantity
    is named <res>_<quantity>_<mm>, a bio variable bio_<res>_<nn> with nn its
    1-based place in the enumeration, and the path is
    <wcdir>/<prefix>_<name>.tif. *)
Theorem get_file_path_of_constructed
        (var : WorldClimVar.var) (month : option Z) (v : WorldClimVar.t) (s : state) :
  WorldClimVar.__init__ var month = Ok v ->
  exists name,
    get_var_name v s = (Ok name, s) /\
    get_file_path v s =
      (Ok (wcdir (this s) ++ "/" ++ wcprefix (this s) ++ "_" ++ name ++ ".tif")%string, s) /\
    match var with
    | WorldClimVar.Quantity q =>
        exists m, month = Some m /\ 1 <= m <= 12 /\
          name = (wcres (this s) ++ "_" ++ WorldClimQuantity_value q ++ "_" ++ fmt02 m)%string
    | WorldClimVar.Bio wcb =>
        exists idx, nth_error WorldClimBioAll idx = Some wcb /\
          name = ("bio_" ++ wcres (this s) ++ "_" ++ fmt02 (Z.of_nat idx + 1))%string
    end.
Proof.
  intros H. rewrite get_file_path_run, get_var_name_run. unfold file_path.
  unfold WorldClimVar.__init__ in H.
  destruct month as [m |], var as [q | wcb]; cbn in H.
  - destruct (1 <=? m) eqn:E1; [| discriminate].
    destruct (m <=? 12) eqn:E12; [| discriminate].
    apply Z.leb_le in E1, E12. inversion H; subst v; clear H.
    eexists. split; [unfold var_name; cbn; reflexivity |].
    split; [unfold var_name; cbn; reflexivity |].
    exists m. repeat split; assumption.
  - rewrite andb_false_r in H. discriminate.
  - discriminate.
  - inversion H; subst v; clear H.
    destruct wcb;
      (eexists; split; [vm_compute; reflexivity |];
       split; [vm_compute; reflexivity |];
       find_place 0%nat).
Qed.

Lemma dict_get_missing {V : Type} (k : string) (dc : dict V) :
  (forall kv, In kv dc -> fst kv <> k) -> dict_get k dc = Raise (KeyError k).
Proof.
  induction dc as [| [k' v] dc IH]; cbn; intros H; [reflexivity |].
  destruct (String.eqb k' k) eqn:E.
  - apply String.eqb_eq in E. exfalso. apply (H (k', v)); [left; reflexivity | exact E].
  - apply IH. intros kv Hkv. apply H. right. exact Hkv.
Qed.

(** X2. On an object that did not come out of the constructor,
    [get_var_name] and [get_file_path] raise and touch nothing: KeyError on
    the value when the type is 'bio' and the value is not that of a bio
    variable, AttributeError when the type is not 'bio' and no month was
    set. *)
Theorem get_var_name_errors (v : WorldClimVar.t) (s : state) :
  (WorldClimVar.typ v = "bio" ->
   (forall wcb, WorldClimVar.value v <> WorldClimBio_value wcb) ->
   get_var_name v s = (Raise (KeyError (WorldClimVar.value v)), s) /\
   get_file_path v s = (Raise (KeyError (WorldClimVar.value v)), s)) /\
  (WorldClimVar.typ v <> "bio" ->
   WorldClimVar.month v = None ->
   get_var_name v s = (Raise (AttributeError "month"), s) /\
   get_file_path v s = (Raise (AttributeError "month"), s)).
Proof.
  rewrite get_file_path_run, get_var_name_run. unfold file_path, var_name. split.
  - intros Htyp Hval. rewrite Htyp. cbn [String.eqb Ascii.eqb Bool.eqb].
    change ("bio" =? "bio")%string with true. cbv iota.
    rewrite dict_get_missing; [split; reflexivity |].
    intros kv Hkv. vm_compute in Hkv.
    repeat (destruct Hkv as [<- | Hkv]; [apply not_eq_sym; first
      [ apply (Hval ANNUAL_MEAN_TEMP) | apply (Hval MEAN_DIURNAL_TEMP_RANGE)
      | apply (Hval ISOTHERMALITY) | apply (Hval TEMP_SEASONALITY)
      | apply (Hval MAX_TEMP_WARMEST_MONTH) | apply (Hval MIN_TEMP_COLDEST_MONTH)
      | apply (Hval TEMP_ANNUAL_RANGE) | apply (Hval MEAN_TEMP_WETTEST_QUART)
      | apply (Hval MEAN_TEMP_DRIEST_QUART) | apply (Hval MEAN_TEMP_WARMEST_QUART)
      | apply (Hval MEAN_TEMP_COLDEST_QUART) | apply (Hval ANNUAL_PREC)
      | apply (Hval PREC_WETTEST_MONTH) | apply (Hval PREC_DRIEST_MONTH)
      | apply (Hval PREC_SEASONALITY) | apply (Hval PREC_WETTEST_QUART)
      | apply (Hval PREC_DRIEST_QUART) | apply (Hval PREC_WARMEST_QUART)
      | apply (Hval PREC_COLDEST_QUART) ] |]).
    contradiction.
  - intros Htyp Hmonth.
    destruct (String.eqb (WorldClimVar.typ v) "bio") eqn:E.
    + apply String.eqb_eq in E. contradiction.
    + rewrite Hmonth. split; reflexivity.
Qed.

(** X3. The module-level list [WorldClimVarAll] holds exactly the variables
    the constructor can return, each once: 103 of them. *)
Theorem WorldClimVarAll_enumerates_constructed :
  (forall v, In v WorldClimVarAll <-> constructed v) /\
  NoDup WorldClimVarAll /\
  length WorldClimVarAll = 103%nat.
Proof.
  split; [exact In_WorldClimVarAll |]. split; [| reflexivity].
  apply (NoDup_map_inv _ _ names_30s_NoDup).
Qed.

(** X4. In a catalog that came out of the constructor, two constructed
    variables with the same file path are the same variable: no two
    variables share a file. *)
Theorem get_file_path_injective
        (dir : string) (tr0 tr1 : list event) (self : t)
        (v1 v2 : WorldClimVar.t) (path : string) (log1 log2 : list event) :
  __init__ dir tr0 = (Ok self, tr1) ->
  constructed v1 -> constructed v2 ->
  fst (get_file_path v1 (mkState self log1)) = Ok path ->
  fst (get_file_path v2 (mkState self log2)) = Ok path ->
  v1 = v2.
Proof.
  intros Hinit Hc1 Hc2 H1 H2.
  destruct (init_ok _ _ _ _ Hinit) as (Hdir & Hprefix & Hres & _).
  rewrite get_file_path_run in H1, H2. cbn [fst this] in H1, H2.
  rewrite Hdir, Hprefix, Hres in H1, H2. unfold file_path in H1, H2.
  apply rbind_ok in H1. destruct H1 as (n1 & Hn1 & H1).
  apply rbind_ok in H2. destruct H2 as (n2 & Hn2 & H2).
  inversion H1 as [E1]. inversion H2 as [E2]. rewrite <- E2 in E1.
  apply append_cancel_l in E1.
  apply (append_cancel_l "/wc2.0_" (n1 ++ ".tif") (n2 ++ ".tif")), append_cancel_r in E1.
  apply (NoDup_map_injective _ _ names_30s_NoDup);
    [apply In_WorldClimVarAll, Hc1 | apply In_WorldClimVarAll, Hc2 |].
  rewrite Hn1, Hn2. exact E1.
Qed.

Lemma strs_NoDup :
  NoDup (map (fun v => match WorldClimVar_str v with Ok n => n | Raise _ => "" end)
             WorldClimVarAll).
Proof.
  match goal with
  | |- NoDup ?l => assert (H : nodup string_dec l = l) by (vm_compute; reflexivity)
  end.
  rewrite <- H. apply NoDup_nodup.
Qed.

(** X5. [str] of a constructed variable never raises: it is the upper-cased
    value for a bio variable and CLIM_<VALUE>_<mm> for a climate quantity, and
    two constructed variables with the same string are the same variable. *)
Theorem WorldClimVar_str_injective :
  (forall wcb,
     WorldClimVar_str (WorldClimVar.WorldClimVar (WorldClimBio_value wcb) "bio" None)
     = Ok (upper (WorldClimBio_value wcb))) /\
  (forall q m, 1 <= m <= 12 ->
     WorldClimVar_str (WorldClimVar.WorldClimVar (WorldClimQuantity_value q) "clim" (Some m))
     = Ok ("CLIM_" ++ upper (WorldClimQuantity_value q) ++ "_" ++ fmt02 m)%string) /\
  (forall v, constructed v -> exists name, WorldClimVar_str v = Ok name) /\
  (forall v1 v2, constructed v1 -> constructed v2 ->
                 WorldClimVar_str v1 = WorldClimVar_str v2 -> v1 = v2).
Proof.
  split; [reflexivity |]. split; [reflexivity |]. split.
  - intros v Hv. apply constructed_cases in Hv.
    destruct Hv as [(q & m & _ & ->) | (wcb & ->)]; eexists; reflexivity.
  - intros v1 v2 H1 H2 Heq.
    apply (NoDup_map_injective _ _ strs_NoDup);
      [apply In_WorldClimVarAll, H1 | apply In_WorldClimVarAll, H2 |].
    rewrite Heq. reflexivity.
Qed.

Ltac month_case Hclim :=
  match goal with
  | |- nth_error _ ?i = Some _ =>
      let i' := eval vm_compute in i in
      let y := fresh "y" in
      let Hy := fresh "Hy" in
      let Hf := fresh "Hf" in
      destruct (rmap_nth _ _ _ Hclim i' _ eq_refl) as (y & Hy & Hf);
      vm_compute in Hf; inversion Hf; subst y;
      change i with i'; rewrite Hy; vm_compute; reflexivity
  end.

(** X6. A catalog that came out of the constructor lists the 84 monthly files
    month by month (the seven quantities of January, then those of February,
    and so on) and the 19 bio files in the order of the enumeration. *)
Theorem init_file_lists (dir : string) (tr0 tr1 : list event) (self : t) :
  __init__ dir tr0 = (Ok self, tr1) ->
  length (climfiles self) = 84%nat /\
  length (biofiles self) = 19%nat /\
  (forall m k q, 1 <= m <= 12 -> nth_error WorldClimQuantityAll k = Some q ->
     nth_error (climfiles self) (7 * Z.to_nat (m - 1) + k)
     = Some (dir ++ "/wc2.0_30s_" ++ WorldClimQuantity_value q ++ "_" ++ fmt02 m
             ++ ".tif")%string) /\
  (forall k wcb, nth_error WorldClimBioAll k = Some wcb ->
     nth_error (biofiles self) k
     = Some (dir ++ "/wc2.0_bio_30s_" ++ fmt02 (Z.of_nat k + 1) ++ ".tif")%string).
Proof.
  intros Hinit.
  destruct (init_ok _ _ _ _ Hinit) as (_ & _ & _ & _ & Hclim & Hbio & _).
  split; [rewrite (rmap_length _ _ _ Hclim); reflexivity |].
  split; [rewrite (rmap_length _ _ _ Hbio); reflexivity |].
  split.
  - intros m k q Hm Hk.
    assert (Hcases : m = 1 \/ m = 2 \/ m = 3 \/ m = 4 \/ m = 5 \/ m = 6 \/ m = 7 \/
                     m = 8 \/ m = 9 \/ m = 10 \/ m = 11 \/ m = 12) by lia.
    clear Hm.
    do 7 (try destruct k as [| k]); cbn in Hk; try (destruct k; discriminate);
      inversion Hk; subst q; clear Hk;
      repeat (destruct Hcases as [-> | Hcases]); try subst m;
      month_case Hclim.
  - intros k wcb Hk.
    do 19 (try destruct k as [| k]); cbn in Hk; try (destruct k; discriminate);
      inversion Hk; subst wcb; clear Hk;
      month_case Hbio.
Qed.

End Naming.

Lemma WorldClimVar_str_injective_witness :
  WorldClimVar_str Demo.tavg_08 = Ok "CLIM_TAVG_08" /\
  (WorldClimVar_str Demo.tavg_08 = WorldClimVar_str Demo.tavg_08 -> Demo.tavg_08 = Demo.tavg_08).
Proof.
  assert (Hc : constructed Demo.tavg_08)
    by (exists (WorldClimVar.Quantity TAVG), (Some 8); reflexivity).
  split.
  - apply (proj1 (proj2 WorldClimVar_str_injective) TAVG 8). lia.
  - apply (proj2 (proj2 (proj2 WorldClimVar_str_injective)) _ _ Hc Hc).
Defined.

Lemma init_file_lists_witness :
  nth_error (WorldClimData.climfiles Demo.self) (7 * Z.to_nat (8 - 1) + 2)
  = Some ("/wc" ++ "/wc2.0_30s_" ++ WorldClimQuantity_value TAVG ++ "_" ++ fmt02 8
          ++ ".tif")%string.
Proof.
  assert (Hinit : WorldClimData.__init__ (R := binary64) (RIO := Demo.rasterio) "/wc" []
                  = (Ok Demo.self, [EvOpen "/wc/wc2.0_30s_prec_01.tif"]))
    by (vm_compute; reflexivity).
  apply (proj1 (proj2 (proj2 (init_file_lists (R := binary64) (RIO := Demo.rasterio) "/wc" [] _ Demo.self
                                Hinit))) 8 2%nat TAVG).
  - lia.
  - reflexivity.
Defined.

Lemma get_var_name_errors_witness :
  WorldClimData.get_var_name (WorldClimVar.WorldClimVar "Altitude" "bio" None) Demo.start
    = (Raise (KeyError "Altitude"), Demo.start) /\
  WorldClimData.get_file_path (WorldClimVar.WorldClimVar "tavg" "clim" None) Demo.start
    = (Raise (AttributeError "month"), Demo.start).
Proof.
  split.
  - apply (proj1 (get_var_name_errors
                    (WorldClimVar.WorldClimVar "Altitude" "bio" None) Demo.start)).
    + reflexivity.
    + intros wcb; destruct wcb; discriminate.
  - apply (proj2 (get_var_name_errors
                    (WorldClimVar.WorldClimVar "tavg" "clim" None) Demo.start)).
    + discriminate.
    + reflexivity.
Defined.

Lemma get_file_path_of_constructed_witness :
  exists name,
    WorldClimData.get_file_path Demo.tavg_08 Demo.start
      = (Ok ("/wc" ++ "/" ++ "wc2.0" ++ "_" ++ name ++ ".tif")%string, Demo.start) /\
    name = "30s_tavg_08".
Proof.
  destruct (get_file_path_of_constructed
              (WorldClimVar.Quantity TAVG) (Some 8) Demo.tavg_08 Demo.start eq_refl)
    as (name & _ & Hpath & m & Hm & _ & Hname).
  exists name. split; [exact Hpath |].
  inversion Hm; subst m. exact Hname.
Defined.

Lemma get_file_path_injective_witness :
  Demo.tavg_08 = WorldClimVar.WorldClimVar "tavg" "clim" (Some 8).
Proof.
  assert (Hinit : WorldClimData.__init__ (R := binary64) (RIO := Demo.rasterio) "/wc" []
                  = (Ok Demo.self, [EvOpen "/wc/wc2.0_30s_prec_01.tif"]))
    by (vm_compute; reflexivity).
  apply (get_file_path_injective (R := binary64) (RIO := Demo.rasterio) "/wc" [] _ Demo.self
           Demo.tavg_08 (WorldClimVar.WorldClimVar "tavg" "clim" (Some 8))
           "/wc/wc2.0_30s_tavg_08.tif" [] [] Hinit).
  - exists (WorldClimVar.Quantity TAVG), (Some 8). reflexivity.
  - exists (WorldClimVar.Quantity TAVG), (Some 8). reflexivity.
  - reflexivity.
  - reflexivity.
Defined.

(** ** What the readers do to the outside *)

Section Outside.

Context {R : Rounding} {RIO : Rasterio} {UTILS : Utils}.

Import WorldClimData.

(** X7. [crop_to_bbox] fails in three ways. A catalog transform that cannot
    be inverted raises before anything is printed or opened; a file that
    cannot be opened raises after the window was printed, and nothing is
    read; a failing read raises after the one read was attempted. The
    instance is the same afterwards. *)
Theorem crop_to_bbox_failures (imfile : string) (bbox : BoundingBox.t) (s : state) :
  (Affine.is_degenerate (transform (this s)) = true ->
   crop_to_bbox imfile bbox s = (Raise TransformNotInvertibleError, s)) /\
  (forall w ex,
     crop_window (transform (this s)) bbox = Ok w -> rio_open imfile = Raise ex ->
     crop_to_bbox imfile bbox s =
       (Raise ex,
        mkState (this s)
          (trace s ++ [EvPrint (col_start w) (col_stop w) (row_start w) (row_stop w);
                       EvOpen imfile]))) /\
  (forall w ds ex,
     crop_window (transform (this s)) bbox = Ok w -> rio_open imfile = Ok ds ->
     ds_read ds w = Raise ex ->
     crop_to_bbox imfile bbox s =
       (Raise ex,
        mkState (this s)
          (trace s ++ [EvPrint (col_start w) (col_stop w) (row_start w) (row_stop w);
                       EvOpen imfile; EvRead imfile w]))).
Proof.
  split; [| split].
  - intros Hdeg. rewrite crop_to_bbox_run, (crop_window_degenerate _ bbox Hdeg). reflexivity.
  - intros w ex Hw Hopen. rewrite crop_to_bbox_run, Hw, Hopen. cbn zeta.
    rewrite <- !app_assoc. reflexivity.
  - intros w ds ex Hw Hopen Hread. rewrite crop_to_bbox_run, Hw, Hopen, Hread. cbn zeta.
    rewrite <- !app_assoc. reflexivity.
Qed.

(** The trace of the crops of a list of files that all succeed. *)
Lemma crops_trace (bbox : BoundingBox.t) (w : Window) (files : list string) :
  forall (s s' : state) (layers : list ndarray),
    crop_window (transform (this s)) bbox = Ok w ->
    mapM (fun wc_file => image <- crop_to_bbox wc_file bbox ;; lift (index_band 0 image))
         files s = (Ok layers, s') ->
    trace s' =
      trace s ++
      flat_map (fun f => [EvPrint (col_start w) (col_stop w) (row_start w) (row_stop w);
                          EvOpen f; EvRead f w]) files.
Proof.
  induction files as [| f files IH]; intros s s' layers Hw H; cbn [mapM] in H.
  - apply ret_ok in H. destruct H as [_ ->]. cbn. rewrite app_nil_r. reflexivity.
  - apply bind_ok in H. destruct H as (y & s1 & Hy & H).
    apply bind_ok in H. destruct H as (ys & s2 & Hys & H).
    apply ret_ok in H. destruct H as [_ ->].
    apply bind_ok in Hy. destruct Hy as (image & s0 & Himage & Hy).
    apply lift_ok in Hy. destruct Hy as [_ ->].
    rewrite crop_to_bbox_run, Hw in Himage. cbn zeta in Himage.
    destruct (rio_open f) as [ds | ex]; [| discriminate].
    inversion Himage as [[Hread Hs0]]. clear Himage.
    assert (Hw0 : crop_window (transform (this s0)) bbox = Ok w)
      by (rewrite <- Hs0; exact Hw).
    rewrite (IH s0 s2 ys Hw0 Hys), <- Hs0. cbn [trace flat_map app].
    rewrite <- !app_assoc. reflexivity.
Qed.

(** The trace of a call of [get_wc_for_bbox] that returns. *)
Lemma get_wc_for_bbox_trace
        (bbox : BoundingBox.t) (wc_vars : option (list WorldClimVar.t))
        (s s' : state) (stacked : ndarray) (tr : Affine.t) :
  get_wc_for_bbox bbox wc_vars s = (Ok (stacked, tr), s') ->
  exists w files,
    crop_window (transform (this s)) bbox = Ok w /\
    mapM get_file_path (match wc_vars with None => WorldClimVarAll | Some l => l end) s
      = (Ok files, s) /\
    this s' = this s /\
    trace s' =
      trace s ++
      flat_map (fun f => [EvPrint (col_start w) (col_stop w) (row_start w) (row_stop w);
                          EvOpen f; EvRead f w]) files.
Proof.
  unfold get_wc_for_bbox.
  set (vars := match wc_vars with None => WorldClimVarAll | Some l => l end).
  intros H.
  apply bind_ok in H. destruct H as (files & s1 & Hfiles & H).
  assert (Hs1 : s1 = s).
  { rewrite (mapM_pure get_file_path
               (file_path (wcdir (this s)) (wcprefix (this s)) (wcres (this s))) s
               (fun x => get_file_path_run x s)) in Hfiles.
    inversion Hfiles. reflexivity. }
  subst s1.
  apply bind_ok in H. destruct H as (wcvars & s2 & Hlayers & H).
  apply bind_ok in H. destruct H as (self & s3 & Hself & H).
  apply gets_ok in Hself. destruct Hself as [-> ->].
  apply bind_ok in H. destruct H as (st & s4 & Hstack & H).
  apply lift_ok in Hstack. destruct Hstack as [Hstack ->].
  apply ret_ok in H. destruct H as [_ ->].
  destruct (crop_window (transform (this s)) bbox) as [w | ex] eqn:Hw.
  - exists w, files. split; [reflexivity |]. split; [exact Hfiles |].
    split; [| apply (crops_trace bbox w files s s2 wcvars Hw Hlayers)].
    destruct (mapM_reader
                (fun wc_file => image <- crop_to_bbox wc_file bbox ;;
                                lift (index_band 0 image))
                (fun self wc_file =>
                   rbind (rbind (crop_window (transform self) bbox) (fun w =>
                          rbind (rio_open wc_file) (fun ds => ds_read ds w)))
                         (index_band 0))
                (fun x s0 => layer_run bbox x s0) files s) as [_ Hthis].
    rewrite Hlayers in Hthis. exact Hthis.
  - exfalso. destruct files as [| f files]; cbn [mapM] in Hlayers.
    + apply ret_ok in Hlayers. destruct Hlayers as [-> _]. discriminate.
    + apply bind_ok in Hlayers. destruct Hlayers as (y & s1 & Hy & _).
      apply bind_ok in Hy. destruct Hy as (image & s0 & Himage & _).
      rewrite crop_to_bbox_run, Hw in Himage. discriminate.
Qed.

(** X8. A call of [get_wc_for_bbox] that returns has touched exactly the
    files of the requested variables, in the order of the request: for each
    of them it printed the window, opened the file and read the window, and
    the window is the same for all. A variable requested twice is opened and
    read twice. *)
Theorem get_wc_for_bbox_reads
        (bbox : BoundingBox.t) (wc_vars : option (list WorldClimVar.t))
        (s s' : state) (stacked : ndarray) (tr : Affine.t) :
  get_wc_for_bbox bbox wc_vars s = (Ok (stacked, tr), s') ->
  exists w files,
    crop_window (transform (this s)) bbox = Ok w /\
    mapM get_file_path (match wc_vars with None => WorldClimVarAll | Some l => l end) s
      = (Ok files, s) /\
    this s' = this s /\
    trace s' =
      trace s ++
      flat_map (fun f => [EvPrint (col_start w) (col_stop w) (row_start w) (row_stop w);
                          EvOpen f; EvRead f w]) files.
Proof. apply get_wc_for_bbox_trace. Qed.

(** X9. [get_wc_for_bbox] resolves every file name before it touches a
    file: when one requested variable has no name the call raises that
    error, and when the request is empty it raises ValueError, in both cases
    with nothing printed, opened or read. *)
Theorem get_wc_for_bbox_fails_untouched
        (bbox : BoundingBox.t) (vars : list WorldClimVar.t) (s : state) :
  (forall ex, fst (mapM get_file_path vars s) = Raise ex ->
              get_wc_for_bbox bbox (Some vars) s = (Raise ex, s)) /\
  (vars = [] ->
   get_wc_for_bbox bbox (Some vars) s
   = (Raise (ValueError "need at least one array to stack"), s)).
Proof.
  split.
  - intros ex H. unfold get_wc_for_bbox, bind.
    rewrite (mapM_pure get_file_path
               (file_path (wcdir (this s)) (wcprefix (this s)) (wcres (this s))) s
               (fun x => get_file_path_run x s)) in H |- *.
    cbn [fst] in H. rewrite H. reflexivity.
  - intros ->. reflexivity.
Qed.

End Outside.

Lemma crop_to_bbox_failures_witness :
  WorldClimData.crop_to_bbox (R := binary64) (RIO := Demo.rasterio) "/wc/wc2.0_30s_tavg_08.tif"
    Demo.box_off_grid
    (WorldClimData.mkState
       (WorldClimData.WorldClimData "/wc" "wc2.0" "+proj=latlong" "30s" (30 # 3600) [] []
          (Affine.Affine 0 0 0 0 0 0)) [])
  = (Raise TransformNotInvertibleError,
     WorldClimData.mkState
       (WorldClimData.WorldClimData "/wc" "wc2.0" "+proj=latlong" "30s" (30 # 3600) [] []
          (Affine.Affine 0 0 0 0 0 0)) []).
Proof.
  apply (proj1 (crop_to_bbox_failures (R := binary64) (RIO := Demo.rasterio) _ _ _)). reflexivity.
Defined.

Lemma get_wc_for_bbox_reads_witness :
  exists stacked tr s' w,
    WorldClimData.get_wc_for_bbox (R := binary64) (RIO := Demo.rasterio) Demo.box_off_grid
      (Some [Demo.tavg_08; Demo.tavg_08]) Demo.start = (Ok (stacked, tr), s') /\
    WorldClimData.trace s' =
      [EvPrint (col_start w) (col_stop w) (row_start w) (row_stop w);
       EvOpen "/wc/wc2.0_30s_tavg_08.tif"; EvRead "/wc/wc2.0_30s_tavg_08.tif" w;
       EvPrint (col_start w) (col_stop w) (row_start w) (row_stop w);
       EvOpen "/wc/wc2.0_30s_tavg_08.tif"; EvRead "/wc/wc2.0_30s_tavg_08.tif" w].
Proof.
  destruct (WorldClimData.get_wc_for_bbox (R := binary64) (RIO := Demo.rasterio) Demo.box_off_grid
              (Some [Demo.tavg_08; Demo.tavg_08]) Demo.start)
    as [[[stacked tr] | ex] s'] eqn:Hrun.
  2:{ vm_compute in Hrun. discriminate. }
  destruct (get_wc_for_bbox_reads (R := binary64) (RIO := Demo.rasterio) _ _ _ _ _ _ Hrun)
    as (w & files & _ & Hfiles & _ & Htrace).
  exists stacked, tr, s', w. split; [reflexivity |].
  rewrite Htrace. vm_compute in Hfiles. inversion Hfiles; subst files. reflexivity.
Defined.

Lemma get_wc_for_bbox_fails_untouched_witness :
  WorldClimData.get_wc_for_bbox (R := binary64) (RIO := Demo.rasterio) Demo.box_off_grid
    (Some [Demo.tavg_08; WorldClimVar.WorldClimVar "Altitude" "bio" None]) Demo.start
  = (Raise (KeyError "Altitude"), Demo.start) /\
  WorldClimData.get_wc_for_bbox (R := binary64) (RIO := Demo.rasterio) Demo.box_off_grid (Some []) Demo.start
  = (Raise (ValueError "need at least one array to stack"), Demo.start).
Proof.
  split.
  - apply (proj1 (get_wc_for_bbox_fails_untouched (R := binary64) (RIO := Demo.rasterio) _ _ _)).
    reflexivity.
  - apply (proj2 (get_wc_for_bbox_fails_untouched (R := binary64) (RIO := Demo.rasterio) _ _ _)).
    reflexivity.
Defined.

(** ** More on the geometry of the window *)

Section WindowGeometry.

Context {R : Rounding} {F : Faithful R}.

Import WorldClimData.

Local Open Scope Q_scope.

(** X10. On a north-up grid the window grows with the box: if an ordered
    box lies inside another box, its window lies inside the window of the
    other. This holds of the windows as they are computed, under every
    rounding that keeps the order and keeps zero, as that of binary64
    does. *)
Theorem crop_window_monotone (tr : Affine.t) (outer inner : BoundingBox.t)
        (w_outer w_inner : Window) :
  north_up tr -> ordered inner -> covers outer inner ->
  crop_window tr outer = Ok w_outer -> crop_window tr inner = Ok w_inner ->
  (row_start w_outer <= row_start w_inner)%Z /\
  (row_stop w_inner <= row_stop w_outer)%Z /\
  (col_start w_outer <= col_start w_inner)%Z /\
  (col_stop w_inner <= col_stop w_outer)%Z.
Proof.
  intros Hn (Ix & Iy) (Cl & Cr & Cb & Ct) Hwo Hwi.
  destruct (crop_window_positions tr outer w_outer Hwo)
    as (inv & cl & rt & cr & rb & Hinv & O1 & O2 & ->).
  destruct (crop_window_positions tr inner w_inner Hwi)
    as (inv' & cl' & rt' & cr' & rb' & Hinv' & I1 & I2 & ->).
  rewrite Hinv in Hinv'. injection Hinv' as <-.
  destruct (invert_north_up tr inv Hn Hinv) as (Ha & Hb & Hd & He).
  assert (L : cl <= cl').
  { pose proof (column_grows inv _ _ (BoundingBox.top outer) (BoundingBox.top inner)
                  Ha Hb Cl) as H. rewrite O1, I1 in H. exact H. }
  assert (M : cl' <= cr').
  { pose proof (column_grows inv _ _ (BoundingBox.top inner) (BoundingBox.bottom inner)
                  Ha Hb Ix) as H. rewrite I1, I2 in H. exact H. }
  assert (U : cr' <= cr).
  { pose proof (column_grows inv _ _ (BoundingBox.bottom inner) (BoundingBox.bottom outer)
                  Ha Hb Cr) as H. rewrite I2, O2 in H. exact H. }
  assert (T : rt <= rt').
  { pose proof (row_grows inv (BoundingBox.left outer) (BoundingBox.left inner) _ _
                  Hd He Ct) as H. rewrite O1, I1 in H. exact H. }
  assert (N : rt' <= rb').
  { pose proof (row_grows inv (BoundingBox.left inner) (BoundingBox.right inner) _ _
                  Hd He Iy) as H. rewrite I1, I2 in H. exact H. }
  assert (B : rb' <= rb).
  { pose proof (row_grows inv (BoundingBox.right inner) (BoundingBox.right outer) _ _
                  Hd He Cb) as H. rewrite I2, O2 in H. exact H. }
  cbn [row_start row_stop col_start col_stop].
  destruct (envelope_nested cl cl' cr' cr L M U) as (C1 & C2).
  destruct (envelope_nested rt rt' rb' rb T N B) as (R1 & R2).
  split; [| split; [| split; [exact C1 | exact C2]]].
  - rewrite (Z.min_comm (Qceiling rb) (Qceiling rt)), (Z.min_comm (Qfloor rb) (Qfloor rt)),
            (Z.min_comm (Qceiling rb') (Qceiling rt')), (Z.min_comm (Qfloor rb') (Qfloor rt')).
    exact R1.
  - rewrite (Z.max_comm (Qceiling rb) (Qceiling rt)), (Z.max_comm (Qfloor rb) (Qfloor rt)),
            (Z.max_comm (Qceiling rb') (Qceiling rt')), (Z.max_comm (Qfloor rb') (Qfloor rt')).
    exact R2.
Qed.

End WindowGeometry.

(** The one-degree box and the box 1.2, 43.1, 1.9, 43.9 inside it, on the
    30-arc-second grid in binary64. *)
Lemma crop_window_monotone_witness :
  exists w_outer w_inner,
    WorldClimData.crop_window (R := binary64) Demo.grid Demo.box_on_grid = Ok w_outer /\
    WorldClimData.crop_window (R := binary64) Demo.grid Demo.box_off_grid = Ok w_inner /\
    (col_start w_outer <= col_start w_inner)%Z /\ (col_stop w_inner <= col_stop w_outer)%Z.
Proof.
  assert (Hn : north_up Demo.grid) by (repeat split; vm_compute; reflexivity).
  assert (Hord : ordered Demo.box_off_grid) by (split; vm_compute; discriminate).
  assert (Hcov : covers Demo.box_on_grid Demo.box_off_grid)
    by (repeat split; vm_compute; discriminate).
  destruct (WorldClimData.crop_window (R := binary64) Demo.grid Demo.box_on_grid)
    as [w_outer | ex] eqn:Ho.
  2:{ vm_compute in Ho. discriminate. }
  destruct (WorldClimData.crop_window (R := binary64) Demo.grid Demo.box_off_grid)
    as [w_inner | ex] eqn:Hi.
  2:{ vm_compute in Hi. discriminate. }
  exists w_outer, w_inner.
  split; [reflexivity |]. split; [reflexivity |].
  destruct (crop_window_monotone (R := binary64) Demo.grid Demo.box_on_grid Demo.box_off_grid
              w_outer w_inner Hn Hord Hcov Ho Hi) as (_ & _ & Hc1 & Hc2).
  split; [exact Hc1 | exact Hc2].
Defined.

(** ** More on the destination grid *)

Section GridCoordinates.

Context {R : Rounding} {RIO : Rasterio} {UTILS : Utils}.

Import WorldClimData.

Lemma read_as_numpy_run (vars : list WorldClimVar.t) (crs : option string)
      (resolution : Q) (bounds : BoundingBox.t) (algorithm : Resampling) (dt : dtype)
      (s s' : state) (arr : ndarray) (xs ys : list Q) (crs' : string) (tr : Affine.t) :
  read_as_numpy (Some vars) crs resolution (Some bounds) algorithm dt s
    = (Ok (arr, xs, ys, crs', tr), s') ->
  crs' = match crs with None => WorldClimData.crs (this s) | Some c => c end /\
  exists bbox wc_bbox src_transform,
    compute_latlon_bbox_from_region bounds crs' = Ok bbox /\
    get_wc_for_bbox bbox (Some vars) s = (Ok (wc_bbox, src_transform), s').
Proof.
  unfold read_as_numpy. intros H.
  apply bind_ok in H. destruct H as (self & s1 & Hself & H).
  apply gets_ok in Hself. destruct Hself as [-> ->].
  apply bind_ok in H. destruct H as (qx & s1 & Hqx & H).
  apply lift_ok in Hqx. destruct Hqx as [_ ->].
  apply bind_ok in H. destruct H as (qy & s1 & Hqy & H).
  apply lift_ok in Hqy. destruct Hqy as [_ ->].
  apply bind_ok in H. destruct H as (bbox & s1 & Hbbox & H).
  apply lift_ok in Hbbox. destruct Hbbox as [Hbbox ->].
  apply bind_ok in H. destruct H as ([wc_bbox src_transform] & s1 & Hwc & H).
  apply bind_ok in H. destruct H as (n & s2 & Hn & H).
  apply lift_ok in Hn. destruct Hn as [_ ->].
  apply bind_ok in H. destruct H as (dst0 & s2 & Hz & H).
  apply lift_ok in Hz. destruct Hz as [_ ->].
  apply bind_ok in H. destruct H as ([dst1 dst_tr] & s2 & Hrep & H).
  apply lift_ok in Hrep. destruct Hrep as [_ ->].
  apply bind_ok in H. destruct H as (xc & s2 & Hx & H).
  apply lift_ok in Hx. destruct Hx as [_ ->].
  apply bind_ok in H. destruct H as (yc & s2 & Hy & H).
  apply lift_ok in Hy. destruct Hy as [_ ->].
  apply ret_ok in H. destruct H as [H ->]. inversion H; subst.
  split; [reflexivity |].
  exists bbox, wc_bbox, src_transform. split; [exact Hbbox | exact Hwc].
Qed.

(** X14. A call of [read_as_numpy] that returns has cropped the box that
    [compute_latlon_bbox_from_region] gives for the bounds in the returned
    crs: it went through the files of the requested variables in order,
    printing, opening and reading the one window of that box, and touched
    nothing else. *)
Theorem read_as_numpy_reads
        (vars : list WorldClimVar.t) (crs : option string)
        (resolution : Q) (bounds : BoundingBox.t) (algorithm : Resampling) (dt : dtype)
        (s s' : state) (arr : ndarray) (xs ys : list Q) (crs' : string) (tr : Affine.t) :
  read_as_numpy (Some vars) crs resolution (Some bounds) algorithm dt s
    = (Ok (arr, xs, ys, crs', tr), s') ->
  exists bbox w files,
    compute_latlon_bbox_from_region bounds crs' = Ok bbox /\
    crop_window (transform (this s)) bbox = Ok w /\
    mapM get_file_path vars s = (Ok files, s) /\
    this s' = this s /\
    trace s' =
      trace s ++
      flat_map (fun f => [EvPrint (col_start w) (col_stop w) (row_start w) (row_stop w);
                          EvOpen f; EvRead f w]) files.
Proof.
  intros H.
  destruct (read_as_numpy_run _ _ _ _ _ _ _ _ _ _ _ _ _ H)
    as (_ & bbox & wc_bbox & src_tr & Hbbox & Hwc).
  destruct (get_wc_for_bbox_trace bbox (Some vars) s s' wc_bbox src_tr Hwc)
    as (w & files & Hw & Hfiles & Hthis & Htrace).
  exists bbox, w, files. repeat split; assumption.
Qed.

End GridCoordinates.

(** From here on the arithmetic is that of the code. *)

Section GridPreconditions.

Context {RIO : Rasterio} {UTILS : Utils}.

#[local] Existing Instance binary64.

Import WorldClimData.

Local Open Scope Q_scope.

(** A float quotient above -1 comes from an exact quotient above -1, when
    the divisor is a float. *)
Lemma quotient_above_minus_one (x y res : Q) :
  rnd res == res -> ~ res == 0 ->
  -1 < Float.div (Float.sub x y) res -> -1 < (x - y) / res.
Proof.
  intros Hfloat Hres Hq. apply Qnot_le_lt. intros Hle.
  assert (Hone : rnd (-1) == -1) by (vm_compute; reflexivity).
  assert (Hopp : rnd (- res) == - res).
  { change (rnd (- res)) with (round_binary64 (- res)).
    rewrite round_binary64_opp. change (round_binary64 res) with (rnd res).
    rewrite Hfloat. reflexivity. }
  assert (Hback : x - y == (x - y) / res * res) by (field; exact Hres).
  assert (Hfinal : Float.div (Float.sub x y) res <= -1).
  { unfold Float.div, Float.sub. rewrite <- Hone. apply rnd_le.
    destruct (Qlt_le_dec 0 res) as [Hpos | Hneg].
    - assert (Hd : x - y <= - res).
      { rewrite Hback. setoid_replace (- res) with (-1 * res) by ring.
        apply Qmult_le_compat_r; [exact Hle | lra]. }
      assert (Hr : rnd (x - y) <= - res) by (rewrite <- Hopp; apply rnd_le, Hd).
      apply Qle_shift_div_r; [exact Hpos | lra].
    - assert (Hneg' : res < 0).
      { apply Qle_lteq in Hneg. destruct Hneg as [L | L]; [exact L | contradiction]. }
      assert (Hd : - res <= x - y).
      { assert (H1 : (x - y) / res * (- res) <= -1 * (- res))
          by (apply Qmult_le_compat_r; [exact Hle | lra]).
        assert (H2 : (x - y) / res * (- res) == - (x - y)) by (rewrite Hback at 2; ring).
        lra. }
      assert (Hr : - res <= rnd (x - y)) by (rewrite <- Hopp; apply rnd_le, Hd).
      assert (H1 : 1 <= rnd (x - y) / (- res))
        by (apply Qle_shift_div_l; [lra | lra]).
      assert (H2 : rnd (x - y) / (- res) == - (rnd (x - y) / res)) by (field; exact Hres).
      lra. }
  lra.
Qed.

(** X13. [read_as_numpy] with a zero resolution raises ZeroDivisionError
    before anything is touched. A call that returns had a non-zero
    resolution, at least one requested variable, and bounds whose width and
    height, counted in pixels, are greater than -1 (so that neither grid size
    is negative): so counted by the subtraction and the division of the code
    and, the resolution being a float, so counted exactly. *)
Theorem read_as_numpy_preconditions
        (wc_vars : option (list WorldClimVar.t)) (crs : option string)
        (resolution : Q) (bounds : BoundingBox.t) (algorithm : Resampling) (dt : dtype)
        (s : state) :
  ((resolution == 0)%Q ->
   read_as_numpy wc_vars crs resolution (Some bounds) algorithm dt s
   = (Raise ZeroDivisionError, s)) /\
  (forall vars r s',
     wc_vars = Some vars ->
     read_as_numpy wc_vars crs resolution (Some bounds) algorithm dt s = (Ok r, s') ->
     ~ (resolution == 0)%Q /\ vars <> [] /\
     (-1 < Float.div (Float.sub (BoundingBox.right bounds) (BoundingBox.left bounds))
                     resolution)%Q /\
     (-1 < Float.div (Float.sub (BoundingBox.top bounds) (BoundingBox.bottom bounds))
                     resolution)%Q /\
     (rnd resolution == resolution ->
      (-1 < (BoundingBox.right bounds - BoundingBox.left bounds) / resolution)%Q /\
      (-1 < (BoundingBox.top bounds - BoundingBox.bottom bounds) / resolution)%Q)).
Proof.
  split.
  - intros Hres. unfold read_as_numpy, bind, gets, lift, truediv.
    rewrite (Qeq_eq_bool _ _ Hres). reflexivity.
  - intros vars [[[[arr xs] ys] crs'] tr] s' -> H.
    destruct (read_as_numpy_run _ _ _ _ _ _ _ _ _ _ _ _ _ H)
      as (_ & bbox & wc_bbox & src_tr & _ & Hwc).
    apply read_as_numpy_ok in H. destruct H as (Hres & _ & Hx & Hy & _).
    split; [exact Hres |]. split.
    { intros ->. apply get_wc_for_bbox_ok in Hwc.
      destruct Hwc as (wcvars & Hl & Hst & _). cbn in Hl. inversion Hl; subst wcvars.
      discriminate. }
    destruct (np_linspace_length _ _ _ _ Hx) as (Ex & _).
    destruct (np_linspace_length _ _ _ _ Hy) as (Ey & _).
    pose proof (Qceiling_lt
                  (Float.div (Float.sub (BoundingBox.right bounds) (BoundingBox.left bounds))
                             resolution)) as Cx.
    pose proof (Qceiling_lt
                  (Float.div (Float.sub (BoundingBox.top bounds) (BoundingBox.bottom bounds))
                             resolution)) as Cy.
    unfold Z.sub in Cx, Cy. rewrite inject_Z_plus, inject_Z_opp in Cx, Cy.
    change (inject_Z 1) with 1%Q in Cx, Cy.
    rewrite Zle_Qle in Ex, Ey. change (inject_Z 0) with 0%Q in Ex, Ey.
    assert (Qx : -1 < Float.div (Float.sub (BoundingBox.right bounds)
                                           (BoundingBox.left bounds)) resolution) by lra.
    assert (Qy : -1 < Float.div (Float.sub (BoundingBox.top bounds)
                                           (BoundingBox.bottom bounds)) resolution) by lra.
    split; [exact Qx |]. split; [exact Qy |].
    intros Hfloat. split.
    + apply (quotient_above_minus_one _ _ _ Hfloat Hres Qx).
    + apply (quotient_above_minus_one _ _ _ Hfloat Hres Qy).
Qed.

End GridPreconditions.

Lemma read_as_numpy_preconditions_witness :
  WorldClimData.read_as_numpy (R := binary64) (RIO := Demo.rasterio) (UTILS := Demo.utils)
    (Some [Demo.tavg_08]) None 0 (Some Demo.region) cubic tt Demo.start
  = (Raise ZeroDivisionError, Demo.start).
Proof.
  apply (proj1 (read_as_numpy_preconditions (RIO := Demo.rasterio) (UTILS := Demo.utils)
                  _ _ _ _ _ _ _)).
  reflexivity.
Defined.

Lemma read_as_numpy_reads_witness :
  exists bbox w,
    compute_latlon_bbox_from_region (Utils := Demo.utils) Demo.region "+proj=latlong"
      = Ok bbox /\
    WorldClimData.crop_window (R := binary64) (WorldClimData.transform Demo.self) bbox = Ok w /\
    exists r s',
      WorldClimData.read_as_numpy (R := binary64) (RIO := Demo.rasterio) (UTILS := Demo.utils)
        (Some [Demo.tavg_08]) None 100 (Some Demo.region) cubic tt Demo.start
        = (Ok r, s') /\
      WorldClimData.trace s' =
        [EvPrint (col_start w) (col_stop w) (row_start w) (row_stop w);
         EvOpen "/wc/wc2.0_30s_tavg_08.tif"; EvRead "/wc/wc2.0_30s_tavg_08.tif" w].
Proof.
  destruct (WorldClimData.read_as_numpy (R := binary64) (RIO := Demo.rasterio) (UTILS := Demo.utils)
              (Some [Demo.tavg_08]) None 100 (Some Demo.region) cubic tt Demo.start)
    as [[[[[[arr xs] ys] crs'] tr] | ex] s'] eqn:Hrun.
  2:{ vm_compute in Hrun. discriminate. }
  destruct (read_as_numpy_run (R := binary64) (RIO := Demo.rasterio) (UTILS := Demo.utils)
              _ _ _ _ _ _ _ _ _ _ _ _ _ Hrun) as (Hcrs & _).
  cbn in Hcrs. subst crs'.
  destruct (read_as_numpy_reads (R := binary64) (RIO := Demo.rasterio) (UTILS := Demo.utils)
              _ _ _ _ _ _ _ _ _ _ _ _ _ Hrun)
    as (bbox & w & files & Hbbox & Hw & Hfiles & _ & Htrace).
  exists bbox, w. split; [exact Hbbox |]. split; [exact Hw |].
  eexists. exists s'. split; [reflexivity |].
  rewrite Htrace. vm_compute in Hfiles. inversion Hfiles; subst files. reflexivity.
Defined.

(** ** The dataset of [read_as_xarray] *)

Section XarrayDataset.

Context {R : Rounding} {RIO : Rasterio} {UTILS : Utils}.

Import WorldClimData.

Lemma dict_get_set_same {V : Type} (k : string) (v : V) (dc : dict V) :
  dict_get k (dict_set k v dc) = Ok v.
Proof.
  unfold dict_set.
  destruct (existsb (fun kv => String.eqb (fst kv) k) dc) eqn:E.
  - induction dc as [| [k' v'] dc IH]; cbn in E |- *; [discriminate |].
    destruct (String.eqb k' k) eqn:Ek; cbn.
    + rewrite String.eqb_refl. reflexivity.
    + rewrite Ek. apply IH. cbn in E. exact E.
  - induction dc as [| [k' v'] dc IH]; cbn in E |- *.
    + rewrite String.eqb_refl. reflexivity.
    + apply orb_false_iff in E. destruct E as [Ek E]. rewrite Ek. apply IH, E.
Qed.

Lemma dict_get_set_other {V : Type} (k k' : string) (v : V) (dc : dict V) :
  k' <> k -> dict_get k (dict_set k' v dc) = dict_get k dc.
Proof.
  intros Hne. apply String.eqb_neq in Hne. unfold dict_set.
  destruct (existsb (fun kv => String.eqb (fst kv) k') dc).
  - induction dc as [| [k0 v0] dc IH]; cbn; [reflexivity |].
    destruct (String.eqb k0 k') eqn:E0; cbn.
    + apply String.eqb_eq in E0. subst k0. rewrite Hne. exact IH.
    + destruct (String.eqb k0 k); [reflexivity | exact IH].
  - induction dc as [| [k0 v0] dc IH]; cbn.
    + rewrite Hne. reflexivity.
    + destruct (String.eqb k0 k); [reflexivity | exact IH].
Qed.

Lemma fold_set_get_other {V : Type} (k : string) (items : list (string * V)) :
  forall dc, (forall kv, In kv items -> fst kv <> k) ->
    dict_get k (fold_left (fun dc kv => dict_set (fst kv) (snd kv) dc) items dc)
    = dict_get k dc.
Proof.
  induction items as [| it items IH]; intros dc H; cbn; [reflexivity |].
  rewrite IH by (intros kv Hkv; apply H; right; exact Hkv).
  apply dict_get_set_other. apply H. left. reflexivity.
Qed.

(** In a dict built item by item, a key holds the value of its last item. *)
Lemma fold_set_get_last {V : Type} (k : string) (v : V) (items : list (string * V)) :
  forall dc i,
    nth_error items i = Some (k, v) ->
    (forall j kv, (i < j)%nat -> nth_error items j = Some kv -> fst kv <> k) ->
    dict_get k (fold_left (fun dc kv => dict_set (fst kv) (snd kv) dc) items dc) = Ok v.
Proof.
  induction items as [| it items IH]; intros dc i Hi Hlater.
  - destruct i; discriminate.
  - destruct i as [| i]; cbn in Hi |- *.
    + inversion Hi; subst it. cbn [fst snd].
      rewrite fold_set_get_other; [apply dict_get_set_same |].
      intros kv Hkv. apply In_nth_error in Hkv. destruct Hkv as (j & Hj).
      apply (Hlater (S j) kv); [lia | exact Hj].
    + apply (IH _ i Hi). intros j kv Hlt Hj. apply (Hlater (S j) kv); [lia | exact Hj].
Qed.

Lemma fold_set_length {V : Type} (items : list (string * V)) :
  forall dc,
    (length (fold_left (fun dc kv => dict_set (fst kv) (snd kv) dc) items dc)
     <= length dc + length items)%nat.
Proof.
  induction items as [| it items IH]; intros dc; cbn; [lia |].
  specialize (IH (dict_set (fst it) (snd it) dc)).
  assert (length (dict_set (fst it) (snd it) dc) <= S (length dc))%nat.
  { unfold dict_set. destruct (existsb _ dc); [rewrite length_map; lia |].
    rewrite length_app. cbn. lia. }
  lia.
Qed.

Lemma nth_error_enumerate {A : Type} (xs : list A) :
  forall start i,
    nth_error (enumerate xs start) i
    = option_map (fun x => (start + Z.of_nat i, x)) (nth_error xs i).
Proof.
  induction xs as [| x xs IH]; intros start i; destruct i as [| i]; cbn; try reflexivity.
  - rewrite Z.add_0_r. reflexivity.
  - rewrite IH. destruct (nth_error xs i); cbn; [| reflexivity].
    do 2 f_equal. lia.
Qed.

Lemma length_enumerate {A : Type} (xs : list A) :
  forall start, length (enumerate xs start) = length xs.
Proof. induction xs as [| x xs IH]; intros start; cbn; [reflexivity | rewrite IH; reflexivity]. Qed.

(** X15. A call of [read_as_xarray] that returns carries the coordinates,
    crs and transform of the underlying [read_as_numpy], and one variable
    wc_<name> per distinct name among the requested variables, with
    dimensions (y, x). When a name is requested more than once, the variable
    holds the layer of its last request; the dataset never has more variables
    than were requested. *)
Theorem read_as_xarray_variables
        (vars : list WorldClimVar.t) (crs : option string)
        (resolution : Q) (bounds : option BoundingBox.t) (algorithm : Resampling)
        (dt : dtype) (s s' : state) (dset : Dataset) :
  read_as_xarray (Some vars) crs resolution bounds algorithm dt s = (Ok dset, s') ->
  exists arr xs ys crs' tr,
    read_as_numpy (Some vars) crs resolution bounds algorithm dt s
      = (Ok (arr, xs, ys, crs', tr), s') /\
    coords dset = [("x", xs); ("y", ys)] /\
    attrs_crs dset = crs' /\ attrs_resolution dset = resolution /\
    attrs_transform dset = tr /\
    (length (data_vars dset) <= length vars)%nat /\
    (forall i var name,
       nth_error vars i = Some var ->
       var_name (wcres (this s)) var = Ok name ->
       (forall j var', (i < j)%nat -> nth_error vars j = Some var' ->
                       var_name (wcres (this s)) var' <> Ok name) ->
       exists layer,
         index_band (Z.of_nat i) arr = Ok layer /\
         dict_get ("wc_" ++ name)%string (data_vars dset) = Ok (["y"; "x"], layer)).
Proof.
  unfold read_as_xarray. intros H.
  apply bind_ok in H. destruct H as ([[[[arr xs] ys] crs'] tr] & s1 & Hnp & H).
  apply bind_ok in H. destruct H as (items & s2 & Hitems & H).
  apply ret_ok in H. destruct H as [-> ->].
  assert (Hthis : this s1 = this s).
  { pose proof (read_as_numpy_preserves (Some vars) crs resolution bounds algorithm dt s)
      as Hp. rewrite Hnp in Hp. exact Hp. }
  rewrite (mapM_pure
             (fun iv => name <- get_var_name (snd iv) ;;
                        layer <- lift (index_band (fst iv) arr) ;;
                        ret (("wc_" ++ name)%string, (["y"; "x"], layer)))
             (fun iv => rbind (var_name (wcres (this s)) (snd iv)) (fun name =>
                        rbind (index_band (fst iv) arr) (fun layer =>
                        Ok (("wc_" ++ name)%string, (["y"; "x"], layer)))))
             s1) in Hitems.
  2:{ intros iv. unfold bind. rewrite get_var_name_run, Hthis.
      destruct (var_name (wcres (this s)) (snd iv)); cbn; [| reflexivity].
      unfold lift. destruct (index_band (fst iv) arr); reflexivity. }
  inversion Hitems as [[Hrmap Hs2]]. subst s2. clear Hitems.
  exists arr, xs, ys, crs', tr. cbn [coords attrs_crs attrs_resolution attrs_transform data_vars].
  split; [exact Hnp |]. split; [reflexivity |]. split; [reflexivity |].
  split; [reflexivity |]. split; [reflexivity |]. split.
  - pose proof (fold_set_length items []) as Hlen. cbn [length] in Hlen.
    rewrite (rmap_length _ _ _ Hrmap), length_enumerate in Hlen. exact Hlen.
  - intros i var name Hi Hname Hlater.
    assert (Hin : nth_error (enumerate vars 0) i = Some (Z.of_nat i, var))
      by (rewrite nth_error_enumerate, Hi; reflexivity).
    destruct (rmap_nth _ _ _ Hrmap i _ Hin) as (item & Hitem & Hval).
    cbn [fst snd] in Hval. rewrite Hname in Hval. cbn [rbind] in Hval.
    destruct (index_band (Z.of_nat i) arr) as [layer | ex]; [| discriminate].
    inversion Hval; subst item. exists layer. split; [reflexivity |].
    apply (fold_set_get_last _ _ items [] i Hitem).
    intros j kv Hlt Hj Hkey.
    assert (Hjlt : (j < length vars)%nat).
    { rewrite <- (length_enumerate vars 0), <- (rmap_length _ _ _ Hrmap).
      apply nth_error_Some. congruence. }
    destruct (nth_error vars j) as [var' |] eqn:Hvj;
      [| apply nth_error_None in Hvj; lia].
    assert (Hinj : nth_error (enumerate vars 0) j = Some (Z.of_nat j, var'))
      by (rewrite nth_error_enumerate, Hvj; reflexivity).
    destruct (rmap_nth _ _ _ Hrmap j _ Hinj) as (item' & Hitem' & Hval').
    rewrite Hj in Hitem'. inversion Hitem'; subst item'. cbn [fst snd] in Hval'.
    destruct (var_name (wcres (this s)) var') as [name' |] eqn:Hn'; [| discriminate].
    cbn [rbind] in Hval'.
    destruct (index_band (Z.of_nat j) arr); [| discriminate].
    inversion Hval'; subst kv. cbn [fst] in Hkey.
    inversion Hkey; subst name'.
    apply (Hlater j var' Hlt Hvj). exact Hn'.
Qed.

End XarrayDataset.

Lemma read_as_xarray_variables_witness :
  exists dset s' arr layer,
    WorldClimData.read_as_xarray (R := binary64) (RIO := Demo.rasterio) (UTILS := Demo.utils)
      (Some [Demo.tavg_08; Demo.prec_01; Demo.tavg_08]) None 100 (Some Demo.region)
      cubic tt Demo.start = (Ok dset, s') /\
    (length (WorldClimData.data_vars dset) <= 3)%nat /\
    index_band 2 arr = Ok layer /\
    dict_get "wc_30s_tavg_08" (WorldClimData.data_vars dset) = Ok (["y"; "x"], layer).
Proof.
  destruct (WorldClimData.read_as_xarray (R := binary64) (RIO := Demo.rasterio) (UTILS := Demo.utils)
              (Some [Demo.tavg_08; Demo.prec_01; Demo.tavg_08]) None 100
              (Some Demo.region) cubic tt Demo.start) as [[dset | ex] s'] eqn:Hrun.
  2:{ vm_compute in Hrun. discriminate. }
  destruct (read_as_xarray_variables (R := binary64) (RIO := Demo.rasterio) (UTILS := Demo.utils)
              _ _ _ _ _ _ _ _ _ Hrun)
    as (arr & xs & ys & crs' & tr & _ & _ & _ & _ & _ & Hlen & Hvars).
  destruct (Hvars 2%nat Demo.tavg_08 "30s_tavg_08" eq_refl eq_refl) as (layer & Hl & Hget).
  { intros j var' Hlt Hj. destruct j as [| [| [| j]]]; try lia.
    destruct j; discriminate. }
  exists dset, s', arr, layer. repeat split; assumption.
Defined.

(** ** The rest of the Sentinel-2 reader *)

Section Sentinel2Reader.

Context {FS : FileSystem} {EXT : Sentinel2Product.Collaborators}.

Import Sentinel2.
Import Sentinel2Product.

(** X16. [build_mask_path] raises FileNotFoundError exactly when its glob
    pattern, under MASKS/, matches no file, with a message that names the
    mask, the resolution and the product directory; otherwise it returns the
    first match, whether or not there are others. *)
Theorem build_mask_path_first_match (self : Sentinel2.t) (mask : Mask) (resolution : MaskRes) :
  (glob (product_dir self ++ "/MASKS/*" ++ Mask_value mask ++ "_"
         ++ MaskRes_value resolution ++ ".tif")%string = [] ->
   build_mask_path self mask resolution =
     Raise (FileNotFoundError
              ("Could not find mask " ++ Mask_value mask ++ " of resolution "
               ++ MaskRes_value resolution ++ " in product directory "
               ++ product_dir self)%string)) /\
  (forall match0 others,
     glob (product_dir self ++ "/MASKS/*" ++ Mask_value mask ++ "_"
           ++ MaskRes_value resolution ++ ".tif")%string = match0 :: others ->
     build_mask_path self mask resolution = Ok match0) /\
  ((exists ex, build_mask_path self mask resolution = Raise ex) <->
   glob (product_dir self ++ "/MASKS/*" ++ Mask_value mask ++ "_"
         ++ MaskRes_value resolution ++ ".tif")%string = []).
Proof.
  unfold build_mask_path.
  destruct (glob (product_dir self ++ "/MASKS/*" ++ Mask_value mask ++ "_"
                  ++ MaskRes_value resolution ++ ".tif")%string) as [| match0 others]; cbn.
  - split; [reflexivity |]. split; [discriminate |].
    split; [reflexivity | intros _; eexists; reflexivity].
  - split; [discriminate |]. split; [intros m o H; inversion H; reflexivity |].
    split; [intros [ex H]; discriminate | discriminate].
Qed.

(** X17. The two class tables cover the same bands: every band but B10 has
    both a resolution and an MTF, and B10 has neither (KeyError). The
    resolution is 10 exactly on the bands of GROUP_10M; every band of
    resolution 20 is in GROUP_20M, whose members B11 and B12 have resolution
    60; the bands of resolution 60 are B9, B11 and B12. *)
Theorem RES_MTF_tables (band : Band) :
  (band <> B10 ->
   exists res mtf, lookup band RES = Ok res /\ lookup band MTF = Ok mtf /\
                   (res = 10 \/ res = 20 \/ res = 60) /\ (0 < mtf < 1)%Q) /\
  (band = B10 ->
   lookup band RES = Raise (KeyError "Band.B10") /\
   lookup band MTF = Raise (KeyError "Band.B10")) /\
  (lookup band RES = Ok 10 <-> In band GROUP_10M) /\
  (lookup band RES = Ok 20 <-> In band [B5; B6; B7; B8A]) /\
  (lookup band RES = Ok 20 -> In band GROUP_20M) /\
  (lookup band RES = Ok 60 <-> In band [B9; B11; B12]).
Proof.
  split; [| split; [| split; [| split; [| split]]]].
  - intros Hne. destruct band; try contradiction;
      (eexists; eexists; split; [reflexivity |]; split; [reflexivity |];
       split; [tauto | split; vm_compute; reflexivity]).
  - intros ->. split; reflexivity.
  - destruct band; cbn; split; intros H; try discriminate; try tauto;
      repeat (destruct H as [H | H]; try discriminate); try reflexivity; contradiction.
  - destruct band; cbn; split; intros H; try discriminate; try tauto;
      repeat (destruct H as [H | H]; try discriminate); try reflexivity; contradiction.
  - destruct band; cbn; intros H; try discriminate; tauto.
  - destruct band; cbn; split; intros H; try discriminate; try tauto;
      repeat (destruct H as [H | H]; try discriminate); try reflexivity; contradiction.
Qed.

(** X18. [PSF] never returns for an empty list of bands (ValueError) nor
    for a list that holds B10, which has no resolution. When it returns, the
    stack has one kernel per band, in order: kernel i is what
    [generate_psf_kernel] gives for the sampling resolution, the resolution
    and the MTF of band i, and the half kernel width. *)
Theorem PSF_kernels (self : Sentinel2Product.t) (bands : list Band)
        (resolution : Q) (half_kernel_width : option Z) :
  (forall r m k, generate_psf_kernel resolution r m half_kernel_width = Ok k ->
                 well_formed k) ->
  (bands = [] ->
   PSF self bands resolution half_kernel_width
   = Raise (ValueError "need at least one array to stack")) /\
  (In B10 bands -> forall out, PSF self bands resolution half_kernel_width <> Ok out) /\
  (forall out,
     PSF self bands resolution half_kernel_width = Ok out ->
     hd_error (shape out) = Some (Z.of_nat (length bands)) /\
     forall i b, nth_error bands i = Some b ->
       exists res mtf kernel,
         lookup b RES = Ok res /\ lookup b MTF = Ok mtf /\
         generate_psf_kernel resolution res mtf half_kernel_width = Ok kernel /\
         index_axis0 (Z.of_nat i) out = Ok kernel).
Proof.
  intros Hwf. unfold PSF. split; [intros ->; reflexivity |]. split.
  - intros Hin out H. apply rbind_ok in H. destruct H as (kernels & Hk & _).
    apply In_nth_error in Hin. destruct Hin as (i & Hi).
    destruct (rmap_nth _ _ _ Hk i B10 Hi) as (y & _ & Hy). discriminate.
  - intros out H. apply rbind_ok in H. destruct H as (kernels & Hk & Hstack).
    split.
    + destruct (np_stack_ok _ _ Hstack) as (sh & -> & _ & _).
      cbn. rewrite (rmap_length _ _ _ Hk). reflexivity.
    + intros i b Hi. destruct (rmap_nth _ _ _ Hk i b Hi) as (kernel & Hnth & Hval).
      apply rbind_ok in Hval. destruct Hval as (res & Hres & Hval).
      apply rbind_ok in Hval. destruct Hval as (mtf & Hmtf & Hval).
      exists res, mtf, kernel. repeat (split; [assumption |]).
      apply (np_stack_layer kernels out); [| exact Hstack | exact Hnth].
      refine (rmap_Forall _ well_formed bands kernels _ Hk).
      intros b0 k0 H0. apply rbind_ok in H0. destruct H0 as (r0 & _ & H0).
      apply rbind_ok in H0. destruct H0 as (m0 & _ & H0). apply (Hwf r0 m0 k0 H0).
Qed.

Lemma substring_0_append (x y : string) :
  substring 0 (String.length x) (x ++ y) = x.
Proof.
  induction x as [| ch x IH]; cbn; [destruct y; reflexivity | rewrite IH; reflexivity].
Qed.

Lemma substring_skip_append (x y : string) (k m : nat) :
  substring (String.length x + k) m (x ++ y) = substring k m y.
Proof. induction x as [| ch x IH]; cbn; [reflexivity | exact IH]. Qed.

Lemma Satellite_of_value (sat : Satellite) : Satellite_of (Satellite_value sat) = Ok sat.
Proof. destruct sat; reflexivity. Qed.

Lemma Satellite_value_length (sat : Satellite) : String.length (Satellite_value sat) = 10%nat.
Proof. destruct sat; reflexivity. Qed.

(** The three slices of a product name laid out as the naming convention
    says. *)
Lemma product_name_slices (sat : Satellite) (d mid tl rest : string) :
  String.length d = 8%nat -> String.length mid = 16%nat -> String.length tl = 6%nat ->
  substring 0 10 (Satellite_value sat ++ "_" ++ d ++ mid ++ tl ++ rest) = Satellite_value sat /\
  substring 11 8 (Satellite_value sat ++ "_" ++ d ++ mid ++ tl ++ rest) = d /\
  substring 35 6 (Satellite_value sat ++ "_" ++ d ++ mid ++ tl ++ rest) = tl.
Proof.
  intros Hd Hmid Htl. pose proof (Satellite_value_length sat) as Hs.
  split; [| split].
  - replace 10%nat with (String.length (Satellite_value sat) + 0)%nat
      by (rewrite Hs; reflexivity).
    rewrite Nat.add_0_r. apply substring_0_append.
  - replace 11%nat with (String.length (Satellite_value sat) + 1)%nat
      by (rewrite Hs; reflexivity).
    rewrite substring_skip_append. cbn.
    replace 8%nat with (String.length d) by exact Hd. apply substring_0_append.
  - replace 35%nat with (String.length (Satellite_value sat) + 25)%nat
      by (rewrite Hs; reflexivity).
    rewrite substring_skip_append. cbn.
    replace 24%nat with (String.length d + 16)%nat by (rewrite Hd; reflexivity).
    rewrite substring_skip_append.
    replace 16%nat with (String.length mid + 0)%nat by (rewrite Hmid; reflexivity).
    rewrite substring_skip_append.
    replace 6%nat with (String.length tl) by exact Htl. apply substring_0_append.
Qed.

(** X19. The constructor reads the product name at fixed places: for a
    directory whose name is <satellite value>_<8 characters of date><16
    characters><6 characters of tile><anything>, with a B2 FRE file that
    opens and a date that parses, it returns an instance with that
    satellite, that tile, the parsed date with its year and day of year, the
    bounds and crs of the first B2 match, and the offsets it was given. *)
Theorem Sentinel2_init_parses_name
        (dir : string) (offsets : option (Q * Q)) (sat : Satellite)
        (d mid tl rest : string) (when : Date) (path : string) (others : list string)
        (bc : BoundingBox.t * string) :
  basename (normpath dir) = (Satellite_value sat ++ "_" ++ d ++ mid ++ tl ++ rest)%string ->
  String.length d = 8%nat -> String.length mid = 16%nat -> String.length tl = 6%nat ->
  parse d = Ok when ->
  glob (normpath dir ++ "/*FRE_B2.tif")%string = path :: others ->
  open_bounds_crs path = Ok bc ->
  Sentinel2Product.__init__ dir offsets =
    Ok (mkProduct (Sentinel2.Sentinel2 (normpath dir) (basename (normpath dir)) sat tl)
                  offsets when (date_year when) (date_tm_yday when) (fst bc) (snd bc)).
Proof.
  intros Hname Hd Hmid Htl Hparse Hglob Hopen.
  destruct (product_name_slices sat d mid tl rest Hd Hmid Htl) as (S1 & S2 & S3).
  unfold Sentinel2Product.__init__. cbv zeta.
  rewrite Hname, S1, S2, S3, Satellite_of_value. cbn [rbind]. rewrite Hparse. cbn [rbind].
  unfold build_band_path. cbn [product_dir BandType_value Band_value].
  change (normpath dir ++ "/*" ++ "FRE" ++ "_" ++ "B2" ++ ".tif")%string
    with (normpath dir ++ "/*FRE_B2.tif")%string.
  rewrite Hglob. cbn [length Nat.eqb rbind]. rewrite Hopen. reflexivity.
Qed.

(** X20. The constructor checks in this order and stops at the first
    failure: a name whose first ten characters are not the value of a
    satellite raises ValueError; then a date that does not parse raises the
    parser's error; then a directory without a B2 FRE file raises
    FileNotFoundError; then a B2 file that does not open raises the error of
    the open. *)
Theorem Sentinel2_init_failures (dir : string) (offsets : option (Q * Q)) :
  ((forall sat, substring 0 10 (basename (normpath dir)) <> Satellite_value sat) ->
   exists msg, Sentinel2Product.__init__ dir offsets = Raise (ValueError msg)) /\
  (forall sat,
     substring 0 10 (basename (normpath dir)) = Satellite_value sat ->
     (forall ex, parse (substring 11 8 (basename (normpath dir))) = Raise ex ->
                 Sentinel2Product.__init__ dir offsets = Raise ex) /\
     (forall when,
        parse (substring 11 8 (basename (normpath dir))) = Ok when ->
        (glob (normpath dir ++ "/*FRE_B2.tif")%string = [] ->
         Sentinel2Product.__init__ dir offsets =
           Raise (FileNotFoundError
                    ("Could not find band B2 of type FRE in product directory "
                     ++ normpath dir)%string)) /\
        (forall path others ex,
           glob (normpath dir ++ "/*FRE_B2.tif")%string = path :: others ->
           open_bounds_crs path = Raise ex ->
           Sentinel2Product.__init__ dir offsets = Raise ex))).
Proof.
  unfold Sentinel2Product.__init__. cbv zeta. split.
  - intros Hsat. unfold Satellite_of.
    destruct (String.eqb (substring 0 10 (basename (normpath dir))) "SENTINEL2A") eqn:EA.
    { apply String.eqb_eq in EA. exfalso. apply (Hsat S2A). exact EA. }
    destruct (String.eqb (substring 0 10 (basename (normpath dir))) "SENTINEL2B") eqn:EB.
    { apply String.eqb_eq in EB. exfalso. apply (Hsat S2B). exact EB. }
    eexists. reflexivity.
  - intros sat Hsat. rewrite Hsat, Satellite_of_value. cbn [rbind]. split.
    + intros ex Hparse. rewrite Hparse. reflexivity.
    + intros when Hparse. rewrite Hparse. cbn [rbind].
      unfold build_band_path. cbn [product_dir BandType_value Band_value].
      change (normpath dir ++ "/*" ++ "FRE" ++ "_" ++ "B2" ++ ".tif")%string
        with (normpath dir ++ "/*FRE_B2.tif")%string.
      split.
      * intros Hglob. rewrite Hglob. reflexivity.
      * intros path others ex Hglob Hopen. rewrite Hglob. cbn [length Nat.eqb rbind].
        rewrite Hopen. reflexivity.
Qed.

(** X21. [read_bands] resolves every band file before it reads: when the
    pattern of some band matches nothing it raises FileNotFoundError for the
    first such band, and [utils.read_as_numpy] is not consulted. When every
    band has a match, it reads the first matches, in the order of the bands,
    with the offsets of the instance (the offsets argument is not passed on),
    an input no-data value of -10000 and separate=True, and returns the first
    slice of the result. *)
Theorem read_bands_files
        (self : Sentinel2Product.t) (bands : list Band) (band_type : BandType)
        (scale : Q) (crs : option string) (resolution : Q)
        (offsets : option (Q * Q)) (region : option Region)
        (no_data_value : pyfloat) (bounds : option BoundingBox.t)
        (algorithm : Resampling) (dt : np_dtype) :
  (forall i b,
     nth_error bands i = Some b ->
     glob (product_dir (core self) ++ "/*" ++ BandType_value band_type ++ "_"
           ++ Band_value b ++ ".tif")%string = [] ->
     (forall j b', (j < i)%nat -> nth_error bands j = Some b' ->
        glob (product_dir (core self) ++ "/*" ++ BandType_value band_type ++ "_"
              ++ Band_value b' ++ ".tif")%string <> []) ->
     read_bands self bands band_type scale crs resolution offsets region
                no_data_value bounds algorithm dt
     = Raise (FileNotFoundError
                ("Could not find band " ++ Band_value b ++ " of type "
                 ++ BandType_value band_type ++ " in product directory "
                 ++ product_dir (core self))%string)) /\
  (forall img_files,
     Forall2 (fun b f =>
                exists others,
                  glob (product_dir (core self) ++ "/*" ++ BandType_value band_type ++ "_"
                        ++ Band_value b ++ ".tif")%string = f :: others)
             bands img_files ->
     read_bands self bands band_type scale crs resolution offsets region
                no_data_value bounds algorithm dt
     = rbind (utils_read_as_numpy img_files
                (mk_kwargs crs resolution (Sentinel2Product.offsets self) region
                           no_data_value (-10000) bounds algorithm true dt scale))
             (index_axis0 0)).
Proof.
  unfold read_bands. split.
  - intros i b Hi Hglob Hbefore.
    assert (Hrmap : rmap (fun b0 => build_band_path (core self) b0 band_type) bands
                    = Raise (FileNotFoundError
                               ("Could not find band " ++ Band_value b ++ " of type "
                                ++ BandType_value band_type ++ " in product directory "
                                ++ product_dir (core self))%string)).
    { revert i Hi Hbefore. induction bands as [| b0 bands IH]; intros i Hi Hbefore.
      - destruct i; discriminate.
      - destruct i as [| i]; cbn in Hi |- *.
        + inversion Hi; subst b0. unfold build_band_path at 1. rewrite Hglob. reflexivity.
        + assert (H0 : glob (product_dir (core self) ++ "/*" ++ BandType_value band_type
                             ++ "_" ++ Band_value b0 ++ ".tif")%string <> [])
            by (apply (Hbefore 0%nat b0); [lia | reflexivity]).
          unfold build_band_path at 1.
          destruct (glob (product_dir (core self) ++ "/*" ++ BandType_value band_type
                          ++ "_" ++ Band_value b0 ++ ".tif")%string) as [| f0 fs];
            [contradiction |].
          cbn [length Nat.eqb rbind].
          rewrite (IH i Hi); [reflexivity |].
          intros j b' Hlt Hj. apply (Hbefore (S j) b'); [lia | exact Hj]. }
    rewrite Hrmap. reflexivity.
  - intros img_files Hall.
    assert (Hrmap : rmap (fun b0 => build_band_path (core self) b0 band_type) bands
                    = Ok img_files).
    { induction Hall as [| b0 f0 bands img_files (others & Hglob) Hall IH]; cbn;
        [reflexivity |].
      unfold build_band_path at 1. rewrite Hglob. cbn [length Nat.eqb rbind].
      rewrite IH. reflexivity. }
    rewrite Hrmap. reflexivity.
Qed.

End Sentinel2Reader.

Lemma build_mask_path_first_match_witness :
  Sentinel2.build_mask_path (FS := DemoProduct.filesystem)
    (Sentinel2.Sentinel2 DemoProduct.dir "" Sentinel2.S2A "") Sentinel2.CLM Sentinel2.R1
    = Ok (DemoProduct.dir ++ "/MASKS/X_CLM_R1.tif")%string /\
  exists msg,
    Sentinel2.build_mask_path (FS := DemoProduct.filesystem)
      (Sentinel2.Sentinel2 DemoProduct.dir "" Sentinel2.S2A "") Sentinel2.SAT Sentinel2.R2
    = Raise (FileNotFoundError msg).
Proof.
  split.
  - apply (proj1 (proj2 (build_mask_path_first_match (FS := DemoProduct.filesystem)
                           _ Sentinel2.CLM Sentinel2.R1))
             _ [(DemoProduct.dir ++ "/MASKS/Y_CLM_R1.tif")%string]).
    reflexivity.
  - eexists.
    apply (proj1 (build_mask_path_first_match (FS := DemoProduct.filesystem)
                    _ Sentinel2.SAT Sentinel2.R2)).
    reflexivity.
Defined.

Lemma RES_MTF_tables_witness :
  exists res mtf,
    Sentinel2Product.lookup Sentinel2.B11 Sentinel2Product.RES = Ok res /\
    Sentinel2Product.lookup Sentinel2.B11 Sentinel2Product.MTF = Ok mtf /\
    In Sentinel2.B11 Sentinel2.GROUP_20M.
Proof.
  destruct (proj1 (RES_MTF_tables Sentinel2.B11)) as (res & mtf & Hres & Hmtf & _).
  - discriminate.
  - exists res, mtf. split; [exact Hres |]. split; [exact Hmtf |]. cbn. tauto.
Defined.

Lemma demo_kernels_well_formed (resolution : Q) (hkw : option Z) :
  forall r m k,
    Sentinel2Product.generate_psf_kernel (Collaborators := DemoProduct.collaborators)
      resolution r m hkw = Ok k ->
    well_formed k.
Proof. intros r m k H. inversion H. reflexivity. Qed.

Lemma PSF_kernels_witness :
  (forall out,
     Sentinel2Product.PSF (EXT := DemoProduct.collaborators) DemoProduct.product
       [Sentinel2.B2; Sentinel2.B10] (1 # 2) None <> Ok out) /\
  exists out kernel,
    Sentinel2Product.PSF (EXT := DemoProduct.collaborators) DemoProduct.product
      [Sentinel2.B2; Sentinel2.B11] (1 # 2) None = Ok out /\
    Sentinel2Product.generate_psf_kernel (Collaborators := DemoProduct.collaborators)
      (1 # 2) 60 (float_literal (21 # 100)) None = Ok kernel /\
    index_axis0 1 out = Ok kernel.
Proof.
  split.
  - apply (proj1 (proj2 (PSF_kernels (EXT := DemoProduct.collaborators) DemoProduct.product
                           [Sentinel2.B2; Sentinel2.B10] (1 # 2) None
                           (demo_kernels_well_formed (1 # 2) None)))).
    cbn. tauto.
  - destruct (Sentinel2Product.PSF (EXT := DemoProduct.collaborators) DemoProduct.product
                [Sentinel2.B2; Sentinel2.B11] (1 # 2) None) as [out | ex] eqn:Hrun.
    2:{ vm_compute in Hrun. discriminate. }
    destruct (proj2 (proj2 (PSF_kernels (EXT := DemoProduct.collaborators)
                              DemoProduct.product [Sentinel2.B2; Sentinel2.B11] (1 # 2) None
                              (demo_kernels_well_formed (1 # 2) None))) out Hrun)
      as (_ & Hk).
    destruct (Hk 1%nat Sentinel2.B11 eq_refl) as (res & mtf & kernel & Hres & Hmtf & Hgen & Hidx).
    inversion Hres; subst res.
    change (Sentinel2Product.lookup Sentinel2.B11 Sentinel2Product.MTF)
      with (@Ok Q (float_literal (21 # 100))) in Hmtf.
    injection Hmtf as <-.
    exists out, kernel. split; [reflexivity |]. split; [exact Hgen | exact Hidx].
Defined.

Lemma Sentinel2_init_parses_name_witness :
  Sentinel2Product.__init__ (FS := DemoProduct.filesystem) (EXT := DemoProduct.collaborators)
    DemoProduct.dir (Some (1 # 2, - (1 # 2))%Q)
  = Ok DemoProduct.product.
Proof.
  apply (Sentinel2_init_parses_name (FS := DemoProduct.filesystem)
           (EXT := DemoProduct.collaborators)
           DemoProduct.dir (Some (1 # 2, - (1 # 2))%Q) Sentinel2.S2A
           "20200101" "-105859-123_L2A_" "T31TCJ" "_C_V2-2"
           (Sentinel2Product.mkDate 2020 1)
           (DemoProduct.dir ++ "/X_FRE_B2.tif")%string []
           (BoundingBox.BoundingBox 300000 4790220 409800 4900020, "EPSG:32631"));
    reflexivity.
Defined.

Lemma Sentinel2_init_failures_witness :
  (exists msg,
     Sentinel2Product.__init__ (FS := DemoProduct.filesystem)
       (EXT := DemoProduct.collaborators) "/data/LANDSAT8_20200101" None
     = Raise (ValueError msg)) /\
  Sentinel2Product.__init__ (FS := DemoProduct.filesystem)
    (EXT := DemoProduct.collaborators) "/elsewhere/SENTINEL2B_20200101-1" None
  = Raise (FileNotFoundError
             "Could not find band B2 of type FRE in product directory /elsewhere/SENTINEL2B_20200101-1").
Proof.
  split.
  - apply (proj1 (Sentinel2_init_failures (FS := DemoProduct.filesystem)
                    (EXT := DemoProduct.collaborators) "/data/LANDSAT8_20200101" None)).
    intros sat H. destruct sat; vm_compute in H; discriminate.
  - destruct (proj2 (Sentinel2_init_failures (FS := DemoProduct.filesystem)
                       (EXT := DemoProduct.collaborators)
                       "/elsewhere/SENTINEL2B_20200101-1" None) Sentinel2.S2B eq_refl)
      as (_ & Hdate).
    destruct (Hdate (Sentinel2Product.mkDate 2020 1) eq_refl) as (Hmissing & _).
    apply Hmissing. reflexivity.
Defined.

Lemma read_bands_files_witness :
  Sentinel2Product.read_bands (FS := DemoProduct.filesystem)
    (EXT := DemoProduct.collaborators) DemoProduct.product
    [Sentinel2.B3; Sentinel2.B4; Sentinel2.B5] Sentinel2.FRE 10000 None 10 None None
    Sentinel2Product.NaN None cubic tt
  = Raise (FileNotFoundError
             ("Could not find band B4 of type FRE in product directory "
              ++ DemoProduct.dir)%string) /\
  Sentinel2Product.read_bands (FS := DemoProduct.filesystem)
    (EXT := DemoProduct.collaborators) DemoProduct.product
    [Sentinel2.B3; Sentinel2.B2] Sentinel2.FRE 10000 None 10 (Some (3, 4)%Q) None
    Sentinel2Product.NaN None cubic tt
  = rbind (Sentinel2Product.utils_read_as_numpy (Collaborators := DemoProduct.collaborators)
             [(DemoProduct.dir ++ "/X_FRE_B3.tif")%string;
              (DemoProduct.dir ++ "/X_FRE_B2.tif")%string]
             (Sentinel2Product.mk_kwargs None 10 (Some (1 # 2, - (1 # 2))%Q) None
                Sentinel2Product.NaN (-10000) None cubic true tt 10000))
          (index_axis0 0).
Proof.
  split.
  - apply (proj1 (read_bands_files (FS := DemoProduct.filesystem)
                    (EXT := DemoProduct.collaborators) DemoProduct.product
                    [Sentinel2.B3; Sentinel2.B4; Sentinel2.B5] Sentinel2.FRE 10000 None 10
                    None None Sentinel2Product.NaN None cubic tt) 1%nat Sentinel2.B4).
    + reflexivity.
    + reflexivity.
    + intros j b' Hlt Hj. destruct j as [| j]; [| lia].
      inversion Hj; subst b'. discriminate.
  - apply (proj2 (read_bands_files (FS := DemoProduct.filesystem)
                    (EXT := DemoProduct.collaborators) DemoProduct.product
                    [Sentinel2.B3; Sentinel2.B2] Sentinel2.FRE 10000 None 10
                    (Some (3, 4)%Q) None Sentinel2Product.NaN None cubic tt)).
    repeat constructor.
    + exists [(DemoProduct.dir ++ "/Y_FRE_B3.tif")%string]. reflexivity.
    + exists []. reflexivity.
Defined.
